(** * Chess board recognition pipeline: a shallow embedding

  The development follows two scripts of the repository:

  - [step0.py]: board location ([board_contour] loop), corner
    canonicalisation ([order_points]) and perspective rectification;
  - [step3_advanced_recognition.py]: per-cell classification
    ([get_cell_color], [is_cell_empty], [get_piece_color],
    [guess_piece_type]), the analysis loop with its three counters, and the
    assembly of the position string ([fen_rows], [fen_position]).

  Definitions come first (Part I), statements and proofs afterwards
  (Part II). *)

From Stdlib Require Import ZArith QArith Lqa List Bool Lia Permutation.
From Stdlib Require Import Ascii String DecimalString.
From Stdlib Require Import Strings.Byte.
Import ListNotations.

Local Open Scope string_scope.
Local Open Scope list_scope.
Local Open Scope nat_scope.

(* ================================================================== *)
(** * Part I: definitions *)
(* ================================================================== *)

(** ** Python strings *)

Module PyStr.

(** [str(n)] for a non-negative Python integer. *)
Definition str (n : nat) : string :=
  NilZero.string_of_uint (Nat.to_uint n).

(** [sep.join(items)]. *)
Definition join (sep : string) (items : list string) : string :=
  String.concat sep items.

(** [s.split(sep)] for a one-character separator: a string without the
    separator yields one field, the empty string included. *)
Fixpoint split (sep : ascii) (s : string) : list string :=
  match s with
  | EmptyString => [EmptyString]
  | String c rest =>
      if Ascii.eqb c sep then EmptyString :: split sep rest
      else match split sep rest with
           | field :: fields => String c field :: fields
           | [] => [String c EmptyString]
           end
  end.

Definition upper_char (c : ascii) : ascii :=
  let n := nat_of_ascii c in
  if (97 <=? n) && (n <=? 122) then ascii_of_nat (n - 32) else c.

Definition lower_char (c : ascii) : ascii :=
  let n := nat_of_ascii c in
  if (65 <=? n) && (n <=? 90) then ascii_of_nat (n + 32) else c.

(** [s.upper()] and [s.lower()] on ASCII text. *)
Fixpoint upper (s : string) : string :=
  match s with
  | EmptyString => EmptyString
  | String c rest => String (upper_char c) (upper rest)
  end.

Fixpoint lower (s : string) : string :=
  match s with
  | EmptyString => EmptyString
  | String c rest => String (lower_char c) (lower rest)
  end.

Definition is_digit (c : ascii) : bool :=
  (48 <=? nat_of_ascii c) && (nat_of_ascii c <=? 57).

Definition digit_value (c : ascii) : nat := nat_of_ascii c - 48.

End PyStr.

(** ** The board and the position string (step 3, section 9) *)

Module Fen.

(** [board] is a list of 8 lists of 8 one-character strings
    (line 140 of the script). *)
Definition Board := list (list string).

Definition new_board : Board := repeat (repeat "." 8) 8.

(** [board[row][col]].  The board is 8x8 by construction and both indices
    range over [range(8)], so the out-of-range default is never read. *)
Definition board_at (board : Board) (row col : nat) : string :=
  nth col (nth row board []) "".

(** One iteration of the inner [for col in range(8)] loop; the state is
    [(fen_row, empty_count_in_row)]. *)
Definition fen_col_step (st : string * nat) (piece : string) : string * nat :=
  let '(fen_row, empty_count_in_row) := st in
  if String.eqb piece "." then (fen_row, empty_count_in_row + 1)
  else if 0 <? empty_count_in_row
       then (((fen_row ++ PyStr.str empty_count_in_row) ++ piece)%string, 0)
       else ((fen_row ++ piece)%string, empty_count_in_row).

(** The trailing flush after the inner loop. *)
Definition fen_flush (st : string * nat) : string :=
  let '(fen_row, empty_count_in_row) := st in
  if 0 <? empty_count_in_row
  then (fen_row ++ PyStr.str empty_count_in_row)%string
  else fen_row.

(** The body of the outer loop: the string appended to [fen_rows]. *)
Definition fen_row (board : Board) (row : nat) : string :=
  fen_flush
    (fold_left (fun st col => fen_col_step st (board_at board row col))
               (seq 0 8) ("", 0)).

Definition fen_rows (board : Board) : list string :=
  map (fen_row board) (seq 0 8).

Definition fen_position (board : Board) : string :=
  PyStr.join "/" (fen_rows board).

(** Modelled from the spec: the re-parser of the round-trip property is not
    part of the repository.  The spec describes it as: split the string on
    the rank delimiter, expand every run-length digit into that many empty
    cells, and read every other character as a one-character piece
    token. *)
Fixpoint expand_rank (s : string) : list string :=
  match s with
  | EmptyString => []
  | String c rest =>
      (if PyStr.is_digit c then repeat "." (PyStr.digit_value c)
       else [String c EmptyString]) ++ expand_rank rest
  end.

Definition parse_position (s : string) : Board :=
  map expand_rank (PyStr.split "/" s).

(** The labels a cell can carry. *)
Definition piece_letters : list string :=
  ["K"; "Q"; "R"; "B"; "N"; "P"; "k"; "q"; "r"; "b"; "n"; "p"].

Definition unknown_label : string := "?".
Definition empty_label : string := ".".

Definition mem_string (x : string) (l : list string) : bool :=
  existsb (String.eqb x) l.

(** Empty, or a piece of known colour. *)
Definition known_label (p : string) : bool :=
  String.eqb p empty_label || mem_string p piece_letters.

(** Any label the scripts write: ['.'], a piece letter or ['?']. *)
Definition grid_label (p : string) : bool :=
  known_label p || String.eqb p unknown_label.

Definition is_8x8 (board : Board) : Prop :=
  List.length board = 8 /\ Forall (fun r => List.length r = 8) board.

(** A one-character token that is neither a digit, nor the rank delimiter,
    nor the empty-cell mark. *)
Definition is_token (p : string) : bool :=
  match p with
  | String c EmptyString =>
      negb (PyStr.is_digit c) && negb (Ascii.eqb c "/") && negb (Ascii.eqb c ".")
  | _ => false
  end.

(** A cell is a dot or a token. *)
Definition cell_ok (p : string) : Prop := p = "." \/ is_token p = true.

(** The inner loop read off the row itself rather than through indices;
    [fen_row_cells] shows that both agree on rows of 8 cells. *)
Definition encode_rank (cells : list string) : string :=
  fen_flush (fold_left fen_col_step cells ("", 0)).

Fixpoint no_slash (s : string) : bool :=
  match s with
  | EmptyString => true
  | String c rest => negb (Ascii.eqb c "/") && no_slash rest
  end.

Fixpoint last_is_digit (s : string) : bool :=
  match s with
  | EmptyString => false
  | String c EmptyString => PyStr.is_digit c
  | String _ rest => last_is_digit rest
  end.

(** The 64 labels in row-major order, and the number of cells carrying a
    given label. *)
Definition labels (board : Board) : list string := List.concat board.

Definition count_label (x : string) (board : Board) : nat :=
  List.length (filter (String.eqb x) (labels board)).

Definition count_non_empty (board : Board) : nat :=
  List.length (filter (fun l => negb (String.eqb l empty_label)) (labels board)).

Definition squares : list (nat * nat) := list_prod (seq 0 8) (seq 0 8).

(** Measures on one rank segment of the position string. *)
Fixpoint digit_sum (s : string) : nat :=
  match s with
  | EmptyString => 0
  | String c rest =>
      (if PyStr.is_digit c then PyStr.digit_value c else 0) + digit_sum rest
  end.

Fixpoint non_digit_count (s : string) : nat :=
  match s with
  | EmptyString => 0
  | String c rest =>
      (if PyStr.is_digit c then 0 else 1) + non_digit_count rest
  end.

Fixpoint no_adjacent_digits (s : string) : bool :=
  match s with
  | EmptyString => true
  | String c rest =>
      match rest with
      | EmptyString => true
      | String d _ =>
          negb (PyStr.is_digit c && PyStr.is_digit d)
          && no_adjacent_digits rest
      end
  end.

End Fen.

(** ** NumPy values *)

Module Np.

(** A [float64] result.  Finite values are kept as exact rationals: every
    quotient below has a pixel count or a pixel sum as numerator and a pixel
    count as denominator, and for arrays of fewer than 2^40 elements the
    correctly rounded quotient compares with the constants of the scripts
    (127, 0.15, 0.6, ...) exactly as the rational does.  The non-finite
    results of a division by zero are kept apart, since every comparison
    with [NaN] is false. *)
Inductive float64 := Fin (q : Q) | PInf | NInf | NaN.

(** [a / b] on integer operands (NumPy true division: no exception). *)
Definition true_divide (a b : Z) : float64 :=
  if (b =? 0)%Z then
    if (a =? 0)%Z then NaN else if (0 <? a)%Z then PInf else NInf
  else Fin (inject_Z a / inject_Z b)%Q.

Definition Qltb (x y : Q) : bool :=
  (Qnum x * QDen y <? Qnum y * QDen x)%Z.

(** [x > c] and [x < c]. *)
Definition gt (x : float64) (c : Q) : bool :=
  match x with
  | Fin q => Qltb c q
  | PInf => true
  | NInf | NaN => false
  end.

Definition lt (x : float64) (c : Q) : bool :=
  match x with
  | Fin q => Qltb q c
  | NInf => true
  | PInf | NaN => false
  end.

(** A two-dimensional [uint8] array: its shape and its elements. *)
Record Mat := { rows : nat; cols : nat; px : nat -> nat -> byte }.

Definition u8 (b : byte) : Z := Z.of_N (Byte.to_N b).

Definition row_pixels (m : Mat) (r : nat) : list Z :=
  map (fun c => u8 (px m r c)) (seq 0 (cols m)).

(** The elements in row-major order. *)
Definition pixels (m : Mat) : list Z :=
  flat_map (row_pixels m) (seq 0 (rows m)).

(** [np.sum(mask)] for a boolean mask given by [test]. *)
Definition count (test : Z -> bool) (m : Mat) : Z :=
  Z.of_nat (List.length (filter test (pixels m))).

Definition total (l : list Z) : Z := fold_right Z.add 0%Z l.

(** [np.mean]: [nan] on an empty array. *)
Definition mean (m : Mat) : float64 :=
  true_divide (total (pixels m)) (Z.of_nat (List.length (pixels m))).

(** [np.min] and [np.max]: [None] stands for the [ValueError] raised on an
    empty array. *)
Definition amin (m : Mat) : option Z :=
  match pixels m with
  | [] => None
  | x :: xs => Some (fold_left Z.min xs x)
  end.

Definition amax (m : Mat) : option Z :=
  match pixels m with
  | [] => None
  | x :: xs => Some (fold_left Z.max xs x)
  end.

(** Subtraction of two [uint8] scalars wraps around. *)
Definition uint8_sub (a b : Z) : Z := ((a - b) mod 256)%Z.

(** [m[r0:r1, c0:c1]] for non-negative bounds (clipped to the shape). *)
Definition slice (m : Mat) (r0 r1 c0 c1 : nat) : Mat :=
  let r0' := Nat.min r0 (rows m) in
  let r1' := Nat.min r1 (rows m) in
  let c0' := Nat.min c0 (cols m) in
  let c1' := Nat.min c1 (cols m) in
  {| rows := r1' - r0';
     cols := c1' - c0';
     px := fun r c => px m (r0' + r) (c0' + c) |}.

End Np.

(** ** The OpenCV calls of the scripts *)

Module Cv.

Definition Point := (Z * Z)%type.

(** A contour, and a polygon approximation, is an array of points. *)
Definition Contour := list Point.

(** The library functions the scripts call, with the arguments the scripts
    pass.  They are the interface of the embedding: the scripts are verified
    for every implementation of it. *)
Class OpenCV := {
  Image : Type;
  Homography : Type;
  cvtColor_BGR2GRAY : Image -> Np.Mat;
  GaussianBlur : Np.Mat -> nat * nat -> Z -> Np.Mat;
  Canny : Np.Mat -> Z -> Z -> Np.Mat;
  findContours : Np.Mat -> list Contour;
  contourArea : Contour -> Q;
  arcLength : Contour -> bool -> Q;
  approxPolyDP : Contour -> Q -> bool -> Contour;
  boundingRect : Contour -> Z * Z * Z * Z;
  getPerspectiveTransform : list Point -> list Point -> Homography;
  warpPerspective : Image -> Homography -> Z * Z -> Image;
  rectangle : Image -> Point -> Point -> Z * Z * Z -> Z -> Image
}.

Inductive ThresholdType := THRESH_BINARY | THRESH_BINARY_INV.

Definition saturate (z : Z) : byte :=
  match Byte.of_N (Z.to_N z) with
  | Some b => b
  | None => xff
  end.

(** [cv2.threshold] is a per-pixel rule: [maxval] where the source exceeds
    [thresh] and 0 elsewhere, or the other way round for the inverted
    type. *)
Definition threshold (src : Np.Mat) (thresh maxval : Z) (type : ThresholdType)
  : Np.Mat :=
  {| Np.rows := Np.rows src;
     Np.cols := Np.cols src;
     Np.px := fun r c =>
       let above := (thresh <? Np.u8 (Np.px src r c))%Z in
       match type with
       | THRESH_BINARY => if above then saturate maxval else x00
       | THRESH_BINARY_INV => if above then x00 else saturate maxval
       end |}.

(** What the proofs use of [findContours]: a binary image with a non-zero
    pixel has at least one contour. *)
Definition findContours_covers `{OpenCV} : Prop :=
  forall m r c,
    r < Np.rows m -> c < Np.cols m -> Np.px m r c <> x00 ->
    findContours m <> [].

End Cv.

(** ** Step 3: the cell classifier *)

Module Step3.
Import Cv.

Section Classifier.
Context `{cv : OpenCV}.

(** Lines 26-30. *)
Definition get_cell_color (cell_image : Image) : string :=
  let gray := cvtColor_BGR2GRAY cell_image in
  let avg_color := Np.mean gray in
  if Np.gt avg_color 127 then "light" else "dark".

(** Lines 33-57.  [None] is the exception of [np.min] on an empty array. *)
Definition is_cell_empty (cell_image : Image) (cell_color : string)
  : option bool :=
  let gray := cvtColor_BGR2GRAY cell_image in
  let blurred := GaussianBlur gray (5, 5) 0%Z in
  let contrast_pixels :=
    if String.eqb cell_color "light"
    then Np.count (fun v => (v <? 80)%Z) blurred
    else Np.count (fun v => (180 <? v)%Z) blurred in
  let total_pixels := (Z.of_nat (Np.rows gray) * Z.of_nat (Np.cols gray))%Z in
  let contrast_ratio := Np.true_divide contrast_pixels total_pixels in
  match Np.amin blurred, Np.amax blurred with
  | Some min_val, Some max_val =>
      let contrast := Np.uint8_sub max_val min_val in
      Some (Np.lt contrast_ratio 0.15 && (contrast <? 100)%Z)
  | _, _ => None
  end.

(** Lines 60-87. *)
Definition get_piece_color (cell_image : Image) (cell_color : string)
  : string :=
  let gray := cvtColor_BGR2GRAY cell_image in
  let height := Np.rows gray in
  let width := Np.cols gray in
  let center_region :=
    Np.slice gray (height / 4) (3 * height / 4) (width / 4) (3 * width / 4) in
  let avg_brightness := Np.mean center_region in
  if String.eqb cell_color "light" then
    if Np.gt avg_brightness 160 then "w"
    else if Np.lt avg_brightness 100 then "b"
    else "?"
  else
    if Np.gt avg_brightness 180 then "w"
    else if Np.lt avg_brightness 140 then "b"
    else "?".

(** [max(contours, key=cv2.contourArea)]: the first contour of largest
    area. *)
Definition max_by_area (first : Contour) (others : list Contour) : Contour :=
  fold_left
    (fun best c => if Np.Qltb (contourArea best) (contourArea c) then c else best)
    others first.

(** The fill ratio of lines 95-101. *)
Definition fill_ratio (cell_image : Image) (cell_color : string) : Np.float64 :=
  let gray := cvtColor_BGR2GRAY cell_image in
  let filled_pixels :=
    if String.eqb cell_color "light"
    then Np.count (fun v => (v <? 100)%Z) gray
    else Np.count (fun v => (150 <? v)%Z) gray in
  let total_pixels := (Z.of_nat (Np.rows gray) * Z.of_nat (Np.cols gray))%Z in
  Np.true_divide filled_pixels total_pixels.

(** The contours of lines 105-110. *)
Definition piece_contours (cell_image : Image) (cell_color : string)
  : list Contour :=
  let gray := cvtColor_BGR2GRAY cell_image in
  let binary :=
    if String.eqb cell_color "light"
    then threshold gray 100 255 THRESH_BINARY_INV
    else threshold gray 150 255 THRESH_BINARY in
  findContours binary.

(** [h / w if w > 0 else 0] (line 116). *)
Definition aspect_of (largest_contour : Contour) : Q :=
  let '(_, _, w, h) := boundingRect largest_contour in
  if (0 <? w)%Z then (inject_Z h / inject_Z w)%Q else 0%Q.

(** Lines 90-131. *)
Definition guess_piece_type (cell_image : Image) (piece_color cell_color : string)
  : string :=
  let fill_ratio := fill_ratio cell_image cell_color in
  match piece_contours cell_image cell_color with
  | c :: cs =>
      let largest_contour := max_by_area c cs in
      let aspect_ratio := aspect_of largest_contour in
      if Np.gt fill_ratio 0.6 then
        if Np.Qltb 1.2 aspect_ratio then "r" else "q"
      else if Np.gt fill_ratio 0.4 then "n"
      else if Np.gt fill_ratio 0.2 then "b"
      else "p"
  | [] => "p"
  end.

(** *** The analysis loop (lines 138-193) *)

(** What the loop finds under [cells/cell_{row}_{col}.jpg]: no file, a file
    [cv2.imread] cannot decode (it returns [None]), or an image. *)
Inductive CellFile :=
| Missing
| Undecodable
| Decoded (cell : Image).

Record Analysis := {
  board : Fen.Board;
  empty_count : nat;
  white_count : nat;
  black_count : nat
}.

Definition init : Analysis :=
  {| board := Fen.new_board; empty_count := 0; white_count := 0; black_count := 0 |}.

(** [l[i] = v] on a list that has an index [i]. *)
Fixpoint list_set {A} (l : list A) (i : nat) (v : A) : list A :=
  match l, i with
  | [], _ => []
  | _ :: t, 0 => v :: t
  | h :: t, S i' => h :: list_set t i' v
  end.

(** [board[row][col] = v]. *)
Definition set_cell (b : Fen.Board) (row col : nat) (v : string) : Fen.Board :=
  list_set b row (list_set (nth row b []) col v).

(** The body of the inner loop.  [None] is an uncaught exception: the
    script stops without a grid. *)
Definition analyse_cell (st : Analysis) (row col : nat) (file : CellFile)
  : option Analysis :=
  match file with
  | Missing =>
      Some {| board := set_cell (board st) row col "?";
              empty_count := empty_count st;
              white_count := white_count st;
              black_count := black_count st |}
  | Undecodable => None
  | Decoded cell =>
      let cell_color := get_cell_color cell in
      match is_cell_empty cell cell_color with
      | None => None
      | Some true =>
          Some {| board := set_cell (board st) row col ".";
                  empty_count := empty_count st + 1;
                  white_count := white_count st;
                  black_count := black_count st |}
      | Some false =>
          let piece_color := get_piece_color cell cell_color in
          let piece_type := guess_piece_type cell piece_color cell_color in
          if String.eqb piece_color "w" then
            Some {| board := set_cell (board st) row col (PyStr.upper piece_type);
                    empty_count := empty_count st;
                    white_count := white_count st + 1;
                    black_count := black_count st |}
          else if String.eqb piece_color "b" then
            Some {| board := set_cell (board st) row col (PyStr.lower piece_type);
                    empty_count := empty_count st;
                    white_count := white_count st;
                    black_count := black_count st + 1 |}
          else
            Some {| board := set_cell (board st) row col "?";
                    empty_count := empty_count st;
                    white_count := white_count st;
                    black_count := black_count st |}
      end
  end.

(** A [for] loop whose body may raise. *)
Fixpoint for_each {S I} (body : S -> I -> option S) (items : list I) (s : S)
  : option S :=
  match items with
  | [] => Some s
  | i :: rest =>
      match body s i with
      | Some s' => for_each body rest s'
      | None => None
      end
  end.

(** The two nested loops over [range(8)]. *)
Definition analyse (files : nat -> nat -> CellFile) : option Analysis :=
  for_each
    (fun st row =>
       for_each (fun st col => analyse_cell st row col (files row col))
                (seq 0 8) st)
    (seq 0 8) init.

(** The grid together with the position string assembled from it. *)
Definition recognise (files : nat -> nat -> CellFile)
  : option (Analysis * string) :=
  match analyse files with
  | Some st => Some (st, Fen.fen_position (board st))
  | None => None
  end.

(** *** The loop, cell by cell *)

(** Which counter a cell increments. *)
Inductive Verdict := IsEmpty | IsWhite | IsBlack | IsUnknown.

(** The label and the verdict of one cell: [analyse_cell] without the
    state ([analyse_cell_classify]). *)
Definition classify (file : CellFile) : option (string * Verdict) :=
  match file with
  | Missing => Some ("?", IsUnknown)
  | Undecodable => None
  | Decoded cell =>
      let cell_color := get_cell_color cell in
      match is_cell_empty cell cell_color with
      | None => None
      | Some true => Some (".", IsEmpty)
      | Some false =>
          let piece_color := get_piece_color cell cell_color in
          let piece_type := guess_piece_type cell piece_color cell_color in
          if String.eqb piece_color "w" then Some (PyStr.upper piece_type, IsWhite)
          else if String.eqb piece_color "b" then Some (PyStr.lower piece_type, IsBlack)
          else Some ("?", IsUnknown)
      end
  end.

Definition record_cell (st : Analysis) (row col : nat) (lv : string * Verdict)
  : Analysis :=
  let b := set_cell (board st) row col (fst lv) in
  match snd lv with
  | IsEmpty =>
      {| board := b; empty_count := empty_count st + 1;
         white_count := white_count st; black_count := black_count st |}
  | IsWhite =>
      {| board := b; empty_count := empty_count st;
         white_count := white_count st + 1; black_count := black_count st |}
  | IsBlack =>
      {| board := b; empty_count := empty_count st;
         white_count := white_count st; black_count := black_count st + 1 |}
  | IsUnknown =>
      {| board := b; empty_count := empty_count st;
         white_count := white_count st; black_count := black_count st |}
  end.

Definition verdict_eqb (a b : Verdict) : bool :=
  match a, b with
  | IsEmpty, IsEmpty | IsWhite, IsWhite | IsBlack, IsBlack
  | IsUnknown, IsUnknown => true
  | _, _ => false
  end.

Definition has_verdict (files : nat -> nat -> CellFile) (v : Verdict)
  (rc : nat * nat) : bool :=
  match classify (files (fst rc) (snd rc)) with
  | Some (_, v') => verdict_eqb v v'
  | None => false
  end.

(** How many of the cells [cells] get the verdict [v]. *)
Definition tally (files : nat -> nat -> CellFile) (v : Verdict)
  (cells : list (nat * nat)) : nat :=
  List.length (filter (has_verdict files v) cells).

(** The label fits the verdict. *)
Definition label_fits (lv : string * Verdict) : Prop :=
  match snd lv with
  | IsEmpty => fst lv = "."
  | IsWhite => In (fst lv) ["R"; "Q"; "N"; "B"; "P"]
  | IsBlack => In (fst lv) ["r"; "q"; "n"; "b"; "p"]
  | IsUnknown => fst lv = "?"
  end.

(** The loop body on a square given as a pair: the two nested loops are one
    loop over [Fen.squares] ([analyse_flat]). *)
Definition body (files : nat -> nat -> CellFile) (st : Analysis) (rc : nat * nat)
  : option Analysis :=
  analyse_cell st (fst rc) (snd rc) (files (fst rc) (snd rc)).

(** The bounding box of the largest contour is tall: its height exceeds
    1.2 times its width. *)
Definition tall_box (cell_image : Image) (cell_color : string) : Prop :=
  exists c cs,
    piece_contours cell_image cell_color = c :: cs
    /\ (1.2 < aspect_of (max_by_area c cs))%Q.

(** *** The colour test in the words of the specification *)

(** Mean brightness of the central region of the cell (lines 62-68). *)
Definition center_brightness (cell_image : Image) : Np.float64 :=
  let gray := cvtColor_BGR2GRAY cell_image in
  let height := Np.rows gray in
  let width := Np.cols gray in
  Np.mean (Np.slice gray (height / 4) (3 * height / 4) (width / 4) (3 * width / 4)).

(** The brightness is neither above the white threshold nor below the black
    threshold of the background shade. *)
Definition indeterminate (cell_color : string) (avg : Np.float64) : Prop :=
  if String.eqb cell_color "light"
  then Np.gt avg 160 = false /\ Np.lt avg 100 = false
  else Np.gt avg 180 = false /\ Np.lt avg 140 = false.

(** *** The occupancy rule in the words of the specification *)

(** A contrast pixel: below 80 on a light cell, above 180 on a dark one. *)
Definition contrast_pixel (cell_color : string) (v : Z) : bool :=
  if String.eqb cell_color "light" then (v <? 80)%Z
  else if String.eqb cell_color "dark" then (180 <? v)%Z
  else false.

(** Contrast pixels of the blurred cell over all pixels of the cell. *)
Definition contrast_ratio (cell_image : Image) (cell_color : string) : Q :=
  let gray := cvtColor_BGR2GRAY cell_image in
  let blurred := GaussianBlur gray (5, 5) 0%Z in
  (inject_Z (Z.of_nat (List.length (filter (contrast_pixel cell_color) (Np.pixels blurred))))
   / inject_Z (Z.of_nat (List.length (Np.pixels gray))))%Q.

Definition is_least (lo : Z) (l : list Z) : Prop :=
  In lo l /\ forall v, In v l -> (lo <= v)%Z.

Definition is_greatest (hi : Z) (l : list Z) : Prop :=
  In hi l /\ forall v, In v l -> (v <= hi)%Z.

(** The max-min spread of the blurred cell is below [bound]. *)
Definition spread_below (cell_image : Image) (bound : Z) : Prop :=
  let blurred := GaussianBlur (cvtColor_BGR2GRAY cell_image) (5, 5) 0%Z in
  exists lo hi,
    is_least lo (Np.pixels blurred) /\ is_greatest hi (Np.pixels blurred)
    /\ (hi - lo < bound)%Z.

End Classifier.

End Step3.

(** ** Step 0: board location and rectification *)

Module Step0.
Import Cv.

(** [np.argmin] and [np.argmax]: the index of the first occurrence of the
    extreme value.  The scripts call them on four values; the index 0 given
    for an empty list is never reached. *)
Fixpoint argmin (l : list Z) : nat :=
  match l with
  | [] => 0
  | x :: xs =>
      match xs with
      | [] => 0
      | _ :: _ =>
          let k := argmin xs in
          if (x <=? nth k xs 0)%Z then 0 else S k
      end
  end.

Fixpoint argmax (l : list Z) : nat :=
  match l with
  | [] => 0
  | x :: xs =>
      match xs with
      | [] => 0
      | _ :: _ =>
          let k := argmax xs in
          if (nth k xs 0 <=? x)%Z then 0 else S k
      end
  end.

(** The contour points are [int32]; [np.diff] stays in [int32] and wraps
    around, [sum] accumulates in 64 bits and cannot wrap on two [int32]
    values. *)
Definition int32 (z : Z) : Z := ((z + 2 ^ 31) mod 2 ^ 32 - 2 ^ 31)%Z.

Definition point_sum (p : Point) : Z := (fst p + snd p)%Z.

(** [np.diff(pts, axis=1)] is the second column minus the first: [y - x]. *)
Definition point_diff (p : Point) : Z := int32 (snd p - fst p).

(** [pts[i]] on the 4x2 array. *)
Definition row_at (pts : list Point) (i : nat) : Point := nth i pts (0%Z, 0%Z).

(** Lines 82-93.  The result lists [rect[0]], [rect[1]], [rect[2]],
    [rect[3]]: top-left, top-right, bottom-right, bottom-left.  [rect] is a
    [float32] array; pixel coordinates are below 2^24 and are stored
    exactly. *)
Definition order_points (pts : list Point) : list Point :=
  let s := map point_sum pts in
  let rect0 := row_at pts (argmin s) in
  let rect2 := row_at pts (argmax s) in
  let diff := map point_diff pts in
  let rect1 := row_at pts (argmin diff) in
  let rect3 := row_at pts (argmax diff) in
  [rect0; rect1; rect2; rect3].

(** Pixel coordinates of an image. *)
Definition in_frame (p : Point) : Prop :=
  (0 <= fst p < 2 ^ 31)%Z /\ (0 <= snd p < 2 ^ 31)%Z.

(** Three corners on one line (two equal corners included). *)
Definition collinear (p q r : Point) : bool :=
  ((fst q - fst p) * (snd r - snd p) =? (snd q - snd p) * (fst r - fst p))%Z.

Definition degenerate (rect : list Point) : bool :=
  match rect with
  | [a; b; c; d] =>
      collinear a b c || collinear a b d || collinear a c d || collinear b c d
  | _ => true
  end.

(** The extreme value of [f] is reached by one point only. *)
Definition sole_min (f : Point -> Z) (pts : list Point) : Prop :=
  forall p q, In p pts -> In q pts ->
    (forall r, In r pts -> (f p <= f r)%Z) ->
    (forall r, In r pts -> (f q <= f r)%Z) -> p = q.

Definition sole_max (f : Point -> Z) (pts : list Point) : Prop :=
  forall p q, In p pts -> In q pts ->
    (forall r, In r pts -> (f r <= f p)%Z) ->
    (forall r, In r pts -> (f r <= f q)%Z) -> p = q.

(** No tie at the least or the greatest [x + y], nor at the least or the
    greatest [y - x]. *)
Definition no_ties (pts : list Point) : Prop :=
  sole_min point_sum pts /\ sole_max point_sum pts
  /\ sole_min (fun p => snd p - fst p)%Z pts
  /\ sole_max (fun p => snd p - fst p)%Z pts.

Definition BOARD_SIZE : Z := 800.

Definition dst : list Point :=
  [(0, 0); (BOARD_SIZE, 0); (BOARD_SIZE, BOARD_SIZE); (0, BOARD_SIZE)]%Z.

Section Script.
Context `{cv : OpenCV}.

(** The polygon approximation of lines 57-58. *)
Definition approx_of (cnt : Contour) : Contour :=
  let peri := arcLength cnt true in
  approxPolyDP cnt (0.02 * peri)%Q true.

(** One iteration of the loop of lines 54-62 on the state
    [(board_contour, max_area)]. *)
Definition locate_step (st : option Contour * Q) (cnt : Contour)
  : option Contour * Q :=
  let '(board_contour, max_area) := st in
  let area := contourArea cnt in
  if Np.Qltb max_area area then
    let approx := approx_of cnt in
    if List.length approx =? 4 then (Some approx, area) else st
  else st.

(** Lines 51-62. *)
Definition board_contour (contours : list Contour) : option Contour :=
  fst (fold_left locate_step contours (None, 0%Q)).

(** Lines 80-107: [pts = board_contour.reshape(4, 2)], the ordered corners,
    the homography and the warp. *)
Definition rectify (image : Image) (board_contour : Contour) : Image :=
  let pts := board_contour in
  let rect := order_points pts in
  let M := getPerspectiveTransform rect dst in
  warpPerspective image M (BOARD_SIZE, BOARD_SIZE).

(** Lines 116-126: the 64 rectangles of the grid overlay. *)
Definition draw_grid (warped : Image) : Image :=
  let cell := (BOARD_SIZE / 8)%Z in
  fold_left
    (fun grid row =>
       fold_left
         (fun grid col =>
            let x1 := (Z.of_nat col * cell)%Z in
            let y1 := (Z.of_nat row * cell)%Z in
            let x2 := (x1 + cell)%Z in
            let y2 := (y1 + cell)%Z in
            rectangle grid (x1, y1) (x2, y2) (0, 255, 0)%Z 1%Z)
         (seq 0 8) grid)
    (seq 0 8) warped.

(** How a run of the script ends: the two [exit()] calls, or the two saved
    images. *)
Inductive Outcome :=
| ImageNotLoaded
| BoardNotFound
| Saved (warped grid : Image).

(** The script from the contour list on (lines 51-136). *)
Definition from_contours (image : Image) (contours : list Contour) : Outcome :=
  match board_contour contours with
  | None => BoardNotFound
  | Some quad =>
      let warped := rectify image quad in
      Saved warped (draw_grid warped)
  end.

(** The whole script; [None] is [cv2.imread] returning [None]. *)
Definition main (file : option Image) : Outcome :=
  match file with
  | None => ImageNotLoaded
  | Some image =>
      let gray := cvtColor_BGR2GRAY image in
      let blur := GaussianBlur gray (5, 5) 0%Z in
      let edges := Canny blur 50 150 in
      from_contours image (findContours edges)
  end.

(** The contours that qualify as a board outline. *)
Definition four_sided (cnt : Contour) : Prop := List.length (approx_of cnt) = 4.

(** [c] is the first contour of [contours] that has the largest area among
    the four-sided ones, and that area is positive. *)
Definition first_largest (contours : list Contour) (c : Contour) : Prop :=
  exists before after,
    contours = before ++ c :: after
    /\ four_sided c
    /\ (0 < contourArea c)%Q
    /\ (forall c', In c' before -> four_sided c' ->
         (contourArea c' < contourArea c)%Q)
    /\ (forall c', In c' after -> four_sided c' ->
         (contourArea c' <= contourArea c)%Q).

(** The loop invariant: what [(board_contour, max_area)] says about the
    contours seen so far. *)
Definition located (seen : list Contour) (st : option Contour * Q) : Prop :=
  match fst st with
  | None =>
      snd st = 0%Q
      /\ forall c, In c seen -> four_sided c -> (contourArea c <= 0)%Q
  | Some quad =>
      exists c, first_largest seen c /\ quad = approx_of c
                /\ snd st = contourArea c
  end.

End Script.

End Step0.

(** ** A small implementation of the interface, for closed examples *)

Module Reference.
Import Cv.

(** Twice the signed area of a polygon (shoelace formula). *)
Fixpoint shoelace_from (first prev : Point) (rest : list Point) : Z :=
  match rest with
  | [] => (fst prev * snd first - fst first * snd prev)%Z
  | p :: rest' =>
      (fst prev * snd p - fst p * snd prev + shoelace_from first p rest')%Z
  end.

Definition polygon_area (c : Contour) : Q :=
  match c with
  | [] => 0%Q
  | p :: rest => (inject_Z (Z.abs (shoelace_from p p rest)) / 2)%Q
  end.

Definition lit_points (m : Np.Mat) : list Point :=
  flat_map
    (fun r =>
       flat_map
         (fun c =>
            if Byte.eqb (Np.px m r c) x00 then []
            else [(Z.of_nat c, Z.of_nat r)])
         (seq 0 (Np.cols m)))
    (seq 0 (Np.rows m)).

Definition box_of (c : Contour) : Z * Z * Z * Z :=
  match c with
  | [] => (0, 0, 0, 0)%Z
  | p :: rest =>
      let x0 := fold_left Z.min (map fst rest) (fst p) in
      let x1 := fold_left Z.max (map fst rest) (fst p) in
      let y0 := fold_left Z.min (map snd rest) (snd p) in
      let y1 := fold_left Z.max (map snd rest) (snd p) in
      (x0, y0, x1 - x0 + 1, y1 - y0 + 1)%Z
  end.

(** Images are grey already, smoothing and edge detection leave them as they
    are, all lit pixels form one contour, polygons are their own
    approximation, and the warp only records its arguments. *)
Definition ref_cv : OpenCV :=
  {| Image := Np.Mat;
     Homography := list Point * list Point;
     cvtColor_BGR2GRAY := fun m => m;
     GaussianBlur := fun m _ _ => m;
     Canny := fun m _ _ => m;
     findContours := fun m =>
       match lit_points m with
       | [] => []
       | pts => [pts]
       end;
     contourArea := polygon_area;
     arcLength := fun _ _ => 0%Q;
     approxPolyDP := fun c _ _ => c;
     boundingRect := box_of;
     getPerspectiveTransform := fun src dst => (src, dst);
     warpPerspective := fun img _ _ => img;
     rectangle := fun img _ _ _ _ => img |}.

(** A cell of one grey level. *)
Definition uniform (side : nat) (v : byte) : Np.Mat :=
  {| Np.rows := side; Np.cols := side; Np.px := fun _ _ => v |}.

(** A cell whose left half is black and whose right half is white. *)
Definition split_cell (side : nat) : Np.Mat :=
  {| Np.rows := side; Np.cols := side;
     Np.px := fun _ c => if c <? side / 2 then x00 else xff |}.

(** A cell with a dark blob on a light ground: the first [k] columns are
    dark. *)
Definition blob_cell (side k : nat) (dark light : byte) : Np.Mat :=
  {| Np.rows := side; Np.cols := side;
     Np.px := fun _ c => if c <? k then dark else light |}.

(** A square outline and a diamond (a square seen at 45 degrees). *)
Definition square (x y side : Z) : Contour :=
  [(x, y); (x + side, y); (x + side, y + side); (x, y + side)]%Z.

Definition diamond : Contour := [(5, 0); (10, 5); (5, 10); (0, 5)]%Z.

(** The same four points, starting from the left corner. *)
Definition diamond_from_left : Contour := [(0, 5); (5, 0); (10, 5); (5, 10)]%Z.

(** Sixty-three plain light cells and, on a8, a cell that is half black and
    half white. *)
Definition sample_files : nat -> nat -> Step3.CellFile (cv := ref_cv) :=
  fun row col =>
    if (row =? 0) && (col =? 0)
    then Step3.Decoded (cv := ref_cv) (split_cell 8)
    else Step3.Decoded (cv := ref_cv) (uniform 8 xc8).

Definition sample_board : Fen.Board :=
  ("?" :: repeat "." 7) :: repeat (repeat "." 8) 7.

Definition sample_analysis : Step3.Analysis :=
  {| Step3.board := sample_board;
     Step3.empty_count := 63;
     Step3.white_count := 0;
     Step3.black_count := 0 |}.

Definition start_board : Fen.Board :=
  [ ["r"; "n"; "b"; "q"; "k"; "b"; "n"; "r"]; repeat "p" 8;
    repeat "." 8; repeat "." 8; repeat "." 8; repeat "." 8;
    repeat "P" 8; ["R"; "N"; "B"; "Q"; "K"; "B"; "N"; "R"] ].

End Reference.

(** ** Summaries of a grid *)

Module Summary.

Definition white_letters : list string := ["K"; "Q"; "R"; "B"; "N"; "P"].
Definition black_letters : list string := ["k"; "q"; "r"; "b"; "n"; "p"].

(** The labels the analysis loop can write. *)
Definition loop_labels : list string :=
  ["."; "?"; "R"; "Q"; "N"; "B"; "P"; "r"; "q"; "n"; "b"; "p"].

(** How many cells carry a label of [set]. *)
Definition count_in (set : list string) (board : Fen.Board) : nat :=
  List.length (filter (fun l => Fen.mem_string l set) (Fen.labels board)).

(** Occurrences of a character in a string. *)
Fixpoint char_count (c : ascii) (s : string) : nat :=
  match s with
  | EmptyString => 0
  | String d rest => (if Ascii.eqb c d then 1 else 0) + char_count c rest
  end.

(** Occurrences of a label in one row of the grid. *)
Definition count_cells (x : string) (cells : list string) : nat :=
  List.length (filter (String.eqb x) cells).

(** The characters ['1'] to ['8']. *)
Definition rank_digit (c : ascii) : bool :=
  (49 <=? nat_of_ascii c) && (nat_of_ascii c <=? 56).

(** Occurrences of the six white, and of the six black, piece letters. *)
Definition white_chars (s : string) : nat :=
  char_count "K" s + char_count "Q" s + char_count "R" s
  + char_count "B" s + char_count "N" s + char_count "P" s.

Definition black_chars (s : string) : nat :=
  char_count "k" s + char_count "q" s + char_count "r" s
  + char_count "b" s + char_count "n" s + char_count "p" s.

End Summary.

(** ** The 8x8 grid drawn on the rectified board (step 0, lines 116-126) *)

Module Grid.
Import Cv.

(** [cell = BOARD_SIZE // 8]. *)
Definition cell : Z := (Step0.BOARD_SIZE / 8)%Z.

(** The two corners [(x1, y1)] and [(x2, y2)] passed to [cv2.rectangle] for
    one square. *)
Definition cell_rect (rc : nat * nat) : Point * Point :=
  let x1 := (Z.of_nat (snd rc) * cell)%Z in
  let y1 := (Z.of_nat (fst rc) * cell)%Z in
  ((x1, y1), (x1 + cell, y1 + cell)%Z).

(** A pixel inside a rectangle, the far edges excluded. *)
Definition inside (r : Point * Point) (x y : Z) : Prop :=
  (fst (fst r) <= x < fst (snd r))%Z /\ (snd (fst r) <= y < snd (snd r))%Z.

(** An upright rectangle, corners listed clockwise from the top-left. *)
Definition upright (x0 y0 x1 y1 : Z) : Contour :=
  [(x0, y0); (x1, y0); (x1, y1); (x0, y1)].

End Grid.

(** ** More Python text operations *)

Module PyText.

(** Text is kept as its UTF-8 bytes.  The operations below search for ASCII
    patterns or for white space, and on well-formed UTF-8 they find the same
    places as Python does on the decoded characters. *)

Definition nl : string := String "010"%char EmptyString.

(** [s * n]. *)
Fixpoint times (s : string) (n : nat) : string :=
  match n with
  | 0 => EmptyString
  | S k => (s ++ times s k)%string
  end.

(** [s.startswith(p)]. *)
Definition startswith (s p : string) : bool := String.prefix p s.

(** [c in s] for a one-character [c]. *)
Fixpoint contains_char (c : ascii) (s : string) : bool :=
  match s with
  | EmptyString => false
  | String d rest => Ascii.eqb c d || contains_char c rest
  end.

(** [s.replace(old, new)] for a non-empty [old]: the occurrences are
    replaced from left to right without overlap.  [skip] counts the
    characters of an occurrence that are still to be passed over. *)
Fixpoint replace_from (old new : string) (skip : nat) (s : string) : string :=
  match s with
  | EmptyString => EmptyString
  | String c rest =>
      match skip with
      | S k => replace_from old new k rest
      | 0 =>
          if String.prefix old s
          then (new ++ replace_from old new (String.length old - 1) rest)%string
          else String c (replace_from old new 0 rest)
      end
  end.

Definition replace (s old new : string) : string := replace_from old new 0 s.

Definition bytes (l : list nat) : string :=
  string_of_list_ascii (map ascii_of_nat l).

(** The white space of [str.strip] and [str.split]: U+0009-000D,
    U+001C-001F, U+0020, U+0085, U+00A0, U+1680, U+2000-200A, U+2028,
    U+2029, U+202F, U+205F and U+3000, in UTF-8. *)
Definition spaces : list string :=
  map bytes
    [ [9]; [10]; [11]; [12]; [13]; [28]; [29]; [30]; [31]; [32];
      [194; 133]; [194; 160]; [225; 154; 128];
      [226; 128; 128]; [226; 128; 129]; [226; 128; 130]; [226; 128; 131];
      [226; 128; 132]; [226; 128; 133]; [226; 128; 134]; [226; 128; 135];
      [226; 128; 136]; [226; 128; 137]; [226; 128; 138];
      [226; 128; 168]; [226; 128; 169]; [226; 128; 175];
      [226; 129; 159]; [227; 128; 128] ].

Definition reverse (s : string) : string :=
  string_of_list_ascii (rev (list_ascii_of_string s)).

(** The length of the white-space character [s] starts with, if any. *)
Definition leading (seqs : list string) (s : string) : option nat :=
  option_map String.length (find (fun w => String.prefix w s) seqs).

Fixpoint lstrip_from (seqs : list string) (skip : nat) (s : string) : string :=
  match s with
  | EmptyString => EmptyString
  | String c rest =>
      match skip with
      | S k => lstrip_from seqs k rest
      | 0 =>
          match leading seqs s with
          | Some n => lstrip_from seqs (n - 1) rest
          | None => s
          end
      end
  end.

Definition lstrip (s : string) : string := lstrip_from spaces 0 s.

Definition rstrip (s : string) : string :=
  reverse (lstrip_from (map reverse spaces) 0 (reverse s)).

(** [s.strip()]. *)
Definition strip (s : string) : string := rstrip (lstrip s).

Definition flush_word (word : string) : list string :=
  match word with
  | EmptyString => []
  | _ => [word]
  end.

Fixpoint words_from (skip : nat) (word : string) (s : string) : list string :=
  match s with
  | EmptyString => flush_word word
  | String c rest =>
      match skip with
      | S k => words_from k word rest
      | 0 =>
          match leading spaces s with
          | Some n => flush_word word ++ words_from (n - 1) EmptyString rest
          | None => words_from 0 (word ++ String c EmptyString)%string rest
          end
      end
  end.

(** [s.split()] without arguments. *)
Definition split_whitespace (s : string) : list string :=
  words_from 0 EmptyString s.

(** [c] is the first byte of one of [seqs]. *)
Definition first_of (seqs : list string) (c : ascii) : bool :=
  existsb (fun w => match w with
                    | String d _ => Ascii.eqb c d
                    | EmptyString => true
                    end) seqs.

(** A text without a line feed. *)
Definition no_nl (s : string) : bool := negb (contains_char "010" s).

(** A byte that is no line feed, no ['F'], and neither the first nor the
    last byte of a white-space character. *)
Definition plain (c : ascii) : bool :=
  negb (Ascii.eqb c "010") && negb (Ascii.eqb c "F")
  && negb (first_of spaces c) && negb (first_of (map reverse spaces) c).

Fixpoint all_chars (test : ascii -> bool) (s : string) : bool :=
  match s with
  | EmptyString => true
  | String c rest => test c && all_chars test rest
  end.

End PyText.

(** ** The text report of step 3 (lines 353-382) *)

Module Report.
Import PyText.

Definition rule : string := "   ├─┼─┼─┼─┼─┼─┼─┼─┤".

(** The [f.write] calls for row [i] of the board. *)
Definition row_writes (board : Fen.Board) (i : nat) : list string :=
  [(PyStr.str (8 - i) ++ "  │")%string]
  ++ map (fun j => (Fen.board_at board i j ++ "│")%string) (seq 0 8)
  ++ [(" " ++ PyStr.str (8 - i) ++ nl)%string]
  ++ (if i <? 7 then [(rule ++ nl)%string] else []).

(** All [f.write] calls, in order. *)
Definition writes (board : Fen.Board) (fen_position : string)
  (empty_count white_count black_count : nat) : list string :=
  [ (times "=" 50 ++ nl)%string;
    ("РЕЗУЛЬТАТЫ РАСПОЗНАВАНИЯ ШАХМАТНОЙ ДОСКИ" ++ nl)%string;
    (times "=" 50 ++ nl ++ nl)%string;
    ("РАСПОЗНАННАЯ ПОЗИЦИЯ:" ++ nl)%string;
    ("    a b c d e f g h" ++ nl)%string;
    ("   ┌─┬─┬─┬─┬─┬─┬─┬─┐" ++ nl)%string ]
  ++ flat_map (row_writes board) (seq 0 8)
  ++ [ ("   └─┴─┴─┴─┴─┴─┴─┴─┘" ++ nl)%string;
       ("    a b c d e f g h" ++ nl ++ nl)%string;
       ("FEN: " ++ fen_position ++ nl ++ nl)%string;
       ("СТАТИСТИКА:" ++ nl)%string;
       ("  Пустых клеток: " ++ PyStr.str empty_count ++ nl)%string;
       ("  Белых фигур: " ++ PyStr.str white_count ++ nl)%string;
       ("  Чёрных фигур: " ++ PyStr.str black_count ++ nl)%string;
       ("  Всего фигур: " ++ PyStr.str (white_count + black_count)
        ++ nl ++ nl)%string;
       ("ОБОЗНАЧЕНИЯ:" ++ nl)%string;
       ("  K/k - Король   Q/q - Ферзь   R/r - Ладья" ++ nl)%string;
       ("  B/b - Слон     N/n - Конь    P/p - Пешка" ++ nl)%string;
       ("  . - пустая клетка" ++ nl)%string ].

(** The content of [step3_results.txt]. *)
Definition text (board : Fen.Board) (fen_position : string)
  (empty_count white_count black_count : nat) : string :=
  String.concat "" (writes board fen_position empty_count white_count black_count).

(** The same text seen as lines. *)

(** A text made of the given lines, each ended by a line feed. *)
Definition line_cat (lines : list string) : string :=
  String.concat "" (map (fun l => (l ++ nl)%string) lines).

(** Row [i] of the board as one line. *)
Definition row_text (board : Fen.Board) (i : nat) : string :=
  ((PyStr.str (8 - i) ++ "  │")
   ++ String.concat ""
        (map (fun j => (Fen.board_at board i j ++ "│")%string) (seq 0 8))
   ++ " " ++ PyStr.str (8 - i))%string.

Definition row_lines (board : Fen.Board) (i : nat) : list string :=
  row_text board i :: (if i <? 7 then [rule] else []).

(** The lines that come before the position line. *)
Definition lines_before (board : Fen.Board) : list string :=
  [ times "=" 50;
    "РЕЗУЛЬТАТЫ РАСПОЗНАВАНИЯ ШАХМАТНОЙ ДОСКИ";
    times "=" 50;
    "";
    "РАСПОЗНАННАЯ ПОЗИЦИЯ:";
    "    a b c d e f g h";
    "   ┌─┬─┬─┬─┬─┬─┬─┬─┐" ]
  ++ flat_map (row_lines board) (seq 0 8)
  ++ [ "   └─┴─┴─┴─┴─┴─┴─┴─┘";
       "    a b c d e f g h";
       "" ].

(** A line the reader of step 4 passes over on its way to the position
    line: a line without line feed that does not start with the marker. *)
Definition skipped (l : string) : Prop :=
  no_nl l = true /\ startswith l "FEN: " = false.

(** What is written after the position line and its line feed. *)
Definition text_after (empty_count white_count black_count : nat) : string :=
  (nl ++ String.concat ""
     [ ("СТАТИСТИКА:" ++ nl)%string;
       ("  Пустых клеток: " ++ PyStr.str empty_count ++ nl)%string;
       ("  Белых фигур: " ++ PyStr.str white_count ++ nl)%string;
       ("  Чёрных фигур: " ++ PyStr.str black_count ++ nl)%string;
       ("  Всего фигур: " ++ PyStr.str (white_count + black_count)
        ++ nl ++ nl)%string;
       ("ОБОЗНАЧЕНИЯ:" ++ nl)%string;
       ("  K/k - Король   Q/q - Ферзь   R/r - Ладья" ++ nl)%string;
       ("  B/b - Слон     N/n - Конь    P/p - Пешка" ++ nl)%string;
       ("  . - пустая клетка" ++ nl)%string ])%string.

(** The report of one run of step 3. *)
Definition of_analysis (st : Step3.Analysis) : string :=
  text (Step3.board st) (Fen.fen_position (Step3.board st))
       (Step3.empty_count st) (Step3.white_count st) (Step3.black_count st).

End Report.

(** ** Step 4: reading the position back (step4_pro_analyzer.py, lines 161-192) *)

Module Step4.
Import PyText.

(** [step3_results.txt]: absent, not readable as UTF-8 text, or a text. *)
Inductive TextFile :=
| NoFile
| Unreadable
| Text (content : string).

Section Loader.

(** [chess.Board(fen)] returns a board rather than raising. *)
Variable board_parses : string -> bool.

(** The second loop: the first line that looks like a position and that
    [chess.Board] accepts. *)
Fixpoint scan_lines (lines : list string) : option string :=
  match lines with
  | [] => None
  | line :: rest =>
      if contains_char "/" line && (List.length (PyStr.split "/" line) =? 8)
      then
        let parts := split_whitespace (strip line) in
        if 1 <=? List.length parts
        then if board_parses (strip line) then Some (strip line)
             else scan_lines rest
        else scan_lines rest
      else scan_lines rest
  end.

(** [load_fen_from_step3]: [Some fen] when it returns [True] after setting
    the board to [chess.Board(fen)], [None] when it returns [False]. *)
Definition load_fen_from_step3 (file : TextFile) : option string :=
  match file with
  | NoFile => None
  | Unreadable => None
  | Text content =>
      let lines := PyStr.split "010" content in
      match find (fun line => startswith line "FEN: ") lines with
      | Some line =>
          let fen := strip (replace line "FEN: " "") in
          if board_parses fen then Some fen else None
      | None => scan_lines lines
      end
  end.

End Loader.

End Step4.

(** ** The visualisation of step 3 (lines 262-320) *)

Module Render.
Import Cv.

Definition Color := (Z * Z * Z)%type.

Definition is_upper_char (c : ascii) : bool :=
  (65 <=? nat_of_ascii c) && (nat_of_ascii c <=? 90).

Definition is_lower_char (c : ascii) : bool :=
  (97 <=? nat_of_ascii c) && (nat_of_ascii c <=? 122).

Fixpoint any_char (test : ascii -> bool) (s : string) : bool :=
  match s with
  | EmptyString => false
  | String c rest => test c || any_char test rest
  end.

(** [s.isupper()] on ASCII text: there is a cased character and no cased
    character is lower-case. *)
Definition isupper (s : string) : bool :=
  any_char is_upper_char s && negb (any_char is_lower_char s).

Definition cell_size : Z := 60.
Definition light_color : Color := (240, 217, 181)%Z.
Definition dark_color : Color := (181, 136, 99)%Z.
Definition white_circle : Color := (200, 200, 255)%Z.
Definition black_circle : Color := (100, 100, 150)%Z.

(** The drawing calls, with the arguments that vary. *)
Inductive Draw :=
| Rectangle (p1 p2 : Point) (color : Color) (thickness : Z)
| Circle (center : Point) (radius : Z) (color : Color) (thickness : Z)
| PutText (text : string) (org : Point) (color : Color).

Definition circle_color (piece : string) : Color :=
  if isupper piece then white_circle else black_circle.

(** [piece.upper() if piece != '?' else '?']. *)
Definition piece_char (piece : string) : string :=
  if negb (String.eqb piece "?") then PyStr.upper piece else "?".

(** The body of the two loops of lines 280-320 for one square. *)
Definition draw_cell (board : Fen.Board) (row col : nat) : list Draw :=
  let light := (row + col) mod 2 =? 0 in
  let color := if light then light_color else dark_color in
  let text_color := if light then (0, 0, 0)%Z else (255, 255, 255)%Z in
  let x1 := (Z.of_nat col * cell_size)%Z in
  let y1 := (Z.of_nat row * cell_size)%Z in
  let x2 := (x1 + cell_size)%Z in
  let y2 := (y1 + cell_size)%Z in
  let piece := Fen.board_at board row col in
  Rectangle (x1, y1) (x2, y2) color (-1)
  :: (if negb (String.eqb piece ".") then
        let center_x := (x1 + cell_size / 2)%Z in
        let center_y := (y1 + cell_size / 2)%Z in
        [ Circle (center_x, center_y) 22 (circle_color piece) (-1);
          Circle (center_x, center_y) 22 (0, 0, 0)%Z 2;
          PutText (piece_char piece) (center_x - 8, center_y + 10)%Z text_color ]
      else []).

Definition is_circle (d : Draw) : bool :=
  match d with
  | Circle _ _ _ _ => true
  | _ => false
  end.

End Render.

(** ** More sample data *)

Module Samples.
Import Cv Reference.

(** The half-black, half-white cell on a8 and no other cell file. *)
Definition lonely_files : nat -> nat -> Step3.CellFile (cv := ref_cv) :=
  fun row col =>
    if (row =? 0) && (col =? 0)
    then Step3.Decoded (cv := ref_cv) (split_cell 8)
    else Step3.Missing (cv := ref_cv).

Definition lonely_analysis : Step3.Analysis :=
  {| Step3.board := repeat (repeat "?" 8) 8;
     Step3.empty_count := 0;
     Step3.white_count := 0;
     Step3.black_count := 0 |}.

(** An a8 file that cannot be decoded, and no other cell file. *)
Definition broken_files : nat -> nat -> Step3.CellFile (cv := ref_cv) :=
  fun row col =>
    if (row =? 0) && (col =? 0)
    then Step3.Undecodable (cv := ref_cv)
    else Step3.Missing (cv := ref_cv).

(** A cell of grey level 150 and a cell of one pixel. *)
Definition grey_cell : Np.Mat := uniform 2 x96.
Definition pixel_cell : Np.Mat := uniform 1 x96.

Definition triangle : Contour := [(0, 0); (30, 0); (0, 30)]%Z.

(** A [chess.Board] that accepts every text. *)
Definition accept_all : string -> bool := fun _ => true.

End Samples.

(* ================================================================== *)
(** * Part II: statements and proofs *)
(* ================================================================== *)

Module NpFacts.
Import Np.

Lemma Qltb_lt x y : Qltb x y = true <-> (x < y)%Q.
Proof. unfold Qltb, Qlt. apply Z.ltb_lt. Qed.

Lemma Qltb_ge x y : Qltb x y = false <-> (y <= x)%Q.
Proof. unfold Qltb, Qle. apply Z.ltb_ge. Qed.

Lemma length_row_pixels m r : List.length (row_pixels m r) = cols m.
Proof. unfold row_pixels. now rewrite length_map, length_seq. Qed.

Lemma length_flat_map_const {A B} (f : A -> list B) n l :
  (forall a, List.length (f a) = n) ->
  List.length (flat_map f l) = List.length l * n.
Proof.
  intros H. induction l as [|a l IH]; simpl; [reflexivity|].
  now rewrite length_app, H, IH.
Qed.

Lemma length_pixels m : List.length (pixels m) = rows m * cols m.
Proof.
  unfold pixels. rewrite (length_flat_map_const _ (cols m)).
  - now rewrite length_seq.
  - apply length_row_pixels.
Qed.

Lemma u8_range b : (0 <= u8 b <= 255)%Z.
Proof.
  unfold u8. pose proof (Byte.to_N_bounded b). lia.
Qed.

Lemma pixels_range m v : In v (pixels m) -> (0 <= v <= 255)%Z.
Proof.
  unfold pixels, row_pixels. rewrite in_flat_map.
  intros (r & _ & H). apply in_map_iff in H as (c & <- & _). apply u8_range.
Qed.

Lemma In_pixels m r c :
  r < rows m -> c < cols m -> In (u8 (px m r c)) (pixels m).
Proof.
  intros Hr Hc. unfold pixels. apply in_flat_map. exists r. split.
  - apply in_seq. lia.
  - unfold row_pixels. apply in_map_iff. exists c. split; [reflexivity|].
    apply in_seq. lia.
Qed.

Lemma In_pixels_inv m v :
  In v (pixels m) -> exists r c, r < rows m /\ c < cols m /\ v = u8 (px m r c).
Proof.
  unfold pixels, row_pixels. rewrite in_flat_map.
  intros (r & Hr & H). apply in_map_iff in H as (c & <- & Hc).
  apply in_seq in Hr, Hc. exists r, c. repeat split; lia.
Qed.

Lemma fold_min_spec xs : forall x,
  let lo := fold_left Z.min xs x in
  In lo (x :: xs) /\ forall v, In v (x :: xs) -> (lo <= v)%Z.
Proof.
  induction xs as [|y xs IH]; intros x; simpl.
  - split; [auto|]. intros v [<-|[]]. lia.
  - destruct (IH (Z.min x y)) as [Hin Hle]. split.
    + destruct Hin as [Hin|Hin]; [|auto].
      rewrite <- Hin. destruct (Z.min_spec x y) as [[_ ->]|[_ ->]]; auto.
    + intros v Hv.
      assert (fold_left Z.min xs (Z.min x y) <= Z.min x y)%Z by (apply Hle; now left).
      destruct Hv as [<-|[<-|Hv]]; [lia | lia | apply Hle; now right].
Qed.

Lemma fold_max_spec xs : forall x,
  let hi := fold_left Z.max xs x in
  In hi (x :: xs) /\ forall v, In v (x :: xs) -> (v <= hi)%Z.
Proof.
  induction xs as [|y xs IH]; intros x; simpl.
  - split; [auto|]. intros v [<-|[]]. lia.
  - destruct (IH (Z.max x y)) as [Hin Hle]. split.
    + destruct Hin as [Hin|Hin]; [|auto].
      rewrite <- Hin. destruct (Z.max_spec x y) as [[_ ->]|[_ ->]]; auto.
    + intros v Hv.
      assert (Z.max x y <= fold_left Z.max xs (Z.max x y))%Z by (apply Hle; now left).
      destruct Hv as [<-|[<-|Hv]]; [lia | lia | apply Hle; now right].
Qed.

Lemma amin_some m :
  pixels m <> [] ->
  exists lo, amin m = Some lo /\ In lo (pixels m)
             /\ forall v, In v (pixels m) -> (lo <= v)%Z.
Proof.
  unfold amin. destruct (pixels m) as [|x xs]; [congruence|]. intros _.
  eexists. split; [reflexivity|]. apply fold_min_spec.
Qed.

Lemma amax_some m :
  pixels m <> [] ->
  exists hi, amax m = Some hi /\ In hi (pixels m)
             /\ forall v, In v (pixels m) -> (v <= hi)%Z.
Proof.
  unfold amax. destruct (pixels m) as [|x xs]; [congruence|]. intros _.
  eexists. split; [reflexivity|]. apply fold_max_spec.
Qed.

Lemma count_range test m :
  (0 <= count test m <= Z.of_nat (List.length (pixels m)))%Z.
Proof.
  unfold count. pose proof (filter_length_le test (pixels m)). lia.
Qed.

Lemma count_pos_witness test m :
  (0 < count test m)%Z -> exists v, In v (pixels m) /\ test v = true.
Proof.
  unfold count. intros H.
  destruct (filter test (pixels m)) as [|v l] eqn:E; [simpl in H; lia|].
  exists v. apply filter_In. rewrite E. now left.
Qed.

(** A comparison [x > c] with [c >= 0] that succeeds on a quotient of a
    count has a positive numerator. *)
Lemma gt_divide_pos a b c :
  (0 <= a)%Z -> (0 <= b)%Z -> (0 <= c)%Q ->
  gt (true_divide a b) c = true -> (0 < a)%Z.
Proof.
  intros Ha Hb Hc. unfold true_divide.
  destruct (Z.eqb_spec b 0) as [->|Hb0].
  - destruct (Z.eqb_spec a 0); [discriminate|]. lia.
  - simpl. rewrite Qltb_lt. intros H.
    destruct (Z.eq_dec a 0) as [->|]; [|lia].
    exfalso. unfold Qdiv in H. rewrite Qmult_0_l in H.
    apply (Qlt_irrefl 0). eapply Qle_lt_trans; eassumption.
Qed.

End NpFacts.

Module FenFacts.
Import PyStr Fen.

Example fen_start :
  fen_position
    [ ["r";"n";"b";"q";"k";"b";"n";"r"]; repeat "p" 8;
      repeat "." 8; repeat "." 8; repeat "." 8; repeat "." 8;
      repeat "P" 8; ["R";"N";"B";"Q";"K";"B";"N";"R"] ]
  = "rnbqkbnr/pppppppp/8/8/8/8/PPPPPPPP/RNBQKBNR".
Proof. reflexivity. Qed.

Example parse_start :
  parse_position "rnbqkbnr/pppppppp/8/8/8/8/PPPPPPPP/RNBQKBNR"
  = [ ["r";"n";"b";"q";"k";"b";"n";"r"]; repeat "p" 8;
      repeat "." 8; repeat "." 8; repeat "." 8; repeat "." 8;
      repeat "P" 8; ["R";"N";"B";"Q";"K";"B";"N";"R"] ].
Proof. reflexivity. Qed.

(** *** Indices versus cells *)

Lemma map_nth_seq_id {A} (d : A) (l : list A) :
  map (fun i => nth i l d) (seq 0 (List.length l)) = l.
Proof.
  apply nth_ext with (d := d) (d' := d).
  - now rewrite length_map, length_seq.
  - intros n Hn. rewrite length_map, length_seq in Hn.
    rewrite (nth_indep _ d (nth 0 l d)) by now rewrite length_map, length_seq.
    rewrite map_nth with (f := fun i => nth i l d) (d := 0).
    now rewrite seq_nth.
Qed.

Lemma fold_left_map_arg {A B C} (g : A -> B -> A) (h : C -> B) l a :
  fold_left (fun st i => g st (h i)) l a = fold_left g (map h l) a.
Proof. revert a; induction l; simpl; auto. Qed.

Lemma fen_row_cells board row :
  List.length (nth row board []) = 8 ->
  fen_row board row = encode_rank (nth row board []).
Proof.
  intros H. unfold fen_row, encode_rank, board_at.
  rewrite fold_left_map_arg with (h := fun col => nth col (nth row board []) "").
  change 8 with 8 at 1. rewrite <- H at 1. now rewrite map_nth_seq_id.
Qed.

Lemma fen_rows_cells board :
  is_8x8 board -> fen_rows board = map encode_rank board.
Proof.
  intros [Hlen Hrows]. unfold fen_rows.
  rewrite <- (map_nth_seq_id [] board) at 2. rewrite Hlen, map_map.
  apply map_ext_in. intros row Hin. apply in_seq in Hin.
  apply fen_row_cells.
  rewrite Forall_forall in Hrows. apply Hrows, nth_In. lia.
Qed.

(** *** Splitting and joining *)

Lemma split_not_nil sep s : split sep s <> [].
Proof.
  destruct s as [|c s]; simpl; [discriminate|].
  destruct (Ascii.eqb c sep); [discriminate|].
  destruct (split sep s); discriminate.
Qed.

Lemma split_no_slash s : no_slash s = true -> split "/" s = [s].
Proof.
  induction s as [|c s IH]; simpl; intros H; [reflexivity|].
  apply andb_prop in H as [Hc Hs].
  apply negb_true_iff in Hc. rewrite Hc, (IH Hs). reflexivity.
Qed.

Lemma split_app_slash a b :
  no_slash a = true ->
  split "/" (a ++ String "/" b)%string = a :: split "/" b.
Proof.
  induction a as [|c a IH]; simpl; intros H; [reflexivity|].
  apply andb_prop in H as [Hc Ha].
  apply negb_true_iff in Hc. rewrite Hc, (IH Ha). reflexivity.
Qed.

Lemma split_join rows :
  rows <> [] -> Forall (fun r => no_slash r = true) rows ->
  split "/" (join "/" rows) = rows.
Proof.
  induction rows as [|r rows IH]; intros Hne Hall; [congruence|].
  inversion Hall as [|? ? Hr Hrest]; subst.
  destruct rows as [|r' rows'].
  - simpl. now apply split_no_slash.
  - unfold join in *. cbn [String.concat].
    change ("/" ++ ?x)%string with (String "/" x).
    rewrite split_app_slash by assumption.
    f_equal. apply IH; [discriminate | assumption].
Qed.

(** *** Digits written by [str] *)

Lemma str_digit e :
  1 <= e <= 9 ->
  exists d, str e = String d EmptyString /\ is_digit d = true /\ digit_value d = e.
Proof.
  intros H.
  do 10 (destruct e as [|e]; [try lia; eexists; repeat split; reflexivity|]).
  lia.
Qed.

Lemma expand_rank_app a b :
  expand_rank (a ++ b)%string = expand_rank a ++ expand_rank b.
Proof.
  induction a as [|c a IH]; simpl; [reflexivity|].
  now rewrite IH, app_assoc.
Qed.

Lemma expand_rank_str e :
  1 <= e <= 9 -> expand_rank (str e) = repeat "." e.
Proof.
  intros H. destruct (str_digit e H) as (d & -> & Hd & Hv).
  simpl. rewrite Hd, Hv. apply app_nil_r.
Qed.

Lemma is_token_inv p :
  is_token p = true ->
  exists c, p = String c EmptyString /\ is_digit c = false
            /\ Ascii.eqb c "/" = false /\ Ascii.eqb c "." = false.
Proof.
  destruct p as [|c [|]]; simpl; try discriminate.
  intros H. apply andb_prop in H as [H H3]. apply andb_prop in H as [H1 H2].
  exists c. rewrite !negb_true_iff in *. auto.
Qed.

Lemma token_not_dot p : is_token p = true -> String.eqb p "." = false.
Proof.
  intros H. destruct (is_token_inv p H) as (c & -> & _ & _ & Hc).
  simpl. now rewrite Hc.
Qed.

Lemma expand_rank_token p : is_token p = true -> expand_rank p = [p].
Proof.
  intros H. destruct (is_token_inv p H) as (c & -> & Hd & _).
  simpl. now rewrite Hd.
Qed.

Lemma repeat_snoc {A} (x : A) n l : repeat x (n + 1) ++ l = repeat x n ++ x :: l.
Proof.
  rewrite repeat_app, <- app_assoc. reflexivity.
Qed.

Lemma mem_string_In x l : mem_string x l = true -> In x l.
Proof.
  unfold mem_string. rewrite existsb_exists. intros (y & Hin & Heq).
  apply String.eqb_eq in Heq. now subst.
Qed.

Lemma grid_label_cell_ok p : grid_label p = true -> cell_ok p.
Proof.
  unfold grid_label, known_label. intros H.
  apply orb_prop in H as [H|H]; [apply orb_prop in H as [H|H]|].
  - left. now apply String.eqb_eq in H.
  - right. apply mem_string_In in H. simpl in H.
    repeat (destruct H as [<-|H]; [reflexivity|]). contradiction.
  - right. apply String.eqb_eq in H. now subst.
Qed.

Lemma known_label_grid_label p : known_label p = true -> grid_label p = true.
Proof. unfold grid_label. now intros ->. Qed.

(** *** The run-length loop decodes to the cells it read *)

Lemma fen_fold_expand cells : forall s e,
  Forall cell_ok cells -> e + List.length cells <= 9 ->
  let st := fold_left fen_col_step cells (s, e) in
  expand_rank (fst st) ++ repeat "." (snd st)
  = expand_rank s ++ repeat "." e ++ cells
  /\ snd st <= e + List.length cells.
Proof.
  induction cells as [|p cells IH]; intros s e Hall Hlen; simpl in *.
  - rewrite app_nil_r. split; [reflexivity | lia].
  - inversion Hall as [|? ? Hp Hrest]; subst.
    destruct Hp as [-> | Htok].
    + simpl. destruct (IH s (e + 1) Hrest ltac:(lia)) as [E L].
      split; [|lia]. rewrite E. now rewrite repeat_snoc.
    + rewrite (token_not_dot _ Htok).
      destruct (Nat.ltb_spec 0 e) as [He|He].
      * destruct (IH ((s ++ str e) ++ p)%string 0 Hrest ltac:(lia)) as [E L].
        split; [|lia]. rewrite E. rewrite !expand_rank_app.
        rewrite expand_rank_str by lia. rewrite (expand_rank_token _ Htok).
        simpl. now rewrite <- !app_assoc.
      * assert (e = 0) by lia; subst e.
        destruct (IH (s ++ p)%string 0 Hrest ltac:(lia)) as [E L].
        split; [|lia]. rewrite E. rewrite expand_rank_app.
        rewrite (expand_rank_token _ Htok). simpl. now rewrite <- app_assoc.
Qed.

Lemma expand_encode_rank cells :
  Forall cell_ok cells -> List.length cells <= 9 ->
  expand_rank (encode_rank cells) = cells.
Proof.
  intros Hall Hlen. unfold encode_rank.
  destruct (fen_fold_expand cells "" 0 Hall ltac:(lia)) as [E L].
  destruct (fold_left fen_col_step cells ("", 0)) as [s e]; simpl in *.
  destruct (Nat.ltb_spec 0 e).
  - rewrite expand_rank_app, expand_rank_str by lia. exact E.
  - assert (e = 0) by lia; subst e. simpl in E. now rewrite app_nil_r in E.
Qed.

(** *** The rank strings never contain the delimiter *)

Lemma no_slash_app a b :
  no_slash (a ++ b)%string = no_slash a && no_slash b.
Proof.
  induction a as [|c a IH]; simpl; [reflexivity|].
  now rewrite IH, andb_assoc.
Qed.

Lemma digit_not_slash d : is_digit d = true -> Ascii.eqb d "/" = false.
Proof.
  intros H. destruct (Ascii.eqb_spec d "/") as [->|]; [discriminate H | reflexivity].
Qed.

Lemma no_slash_str e : 1 <= e <= 9 -> no_slash (str e) = true.
Proof.
  intros H. destruct (str_digit e H) as (d & -> & Hd & _).
  simpl. now rewrite (digit_not_slash d Hd).
Qed.

Lemma no_slash_token p : is_token p = true -> no_slash p = true.
Proof.
  intros H. destruct (is_token_inv p H) as (c & -> & _ & Hs & _).
  simpl. now rewrite Hs.
Qed.

Lemma fen_fold_no_slash cells : forall s e,
  Forall cell_ok cells -> e + List.length cells <= 9 ->
  no_slash s = true ->
  let st := fold_left fen_col_step cells (s, e) in
  no_slash (fst st) = true /\ snd st <= e + List.length cells.
Proof.
  induction cells as [|p cells IH]; intros s e Hall Hlen Hs; simpl in *.
  - split; [assumption | lia].
  - inversion Hall as [|? ? Hp Hrest]; subst.
    destruct Hp as [-> | Htok].
    + simpl. destruct (IH s (e + 1) Hrest ltac:(lia) Hs). split; [assumption | lia].
    + rewrite (token_not_dot _ Htok).
      destruct (Nat.ltb_spec 0 e) as [He|He].
      * destruct (IH ((s ++ str e) ++ p)%string 0 Hrest ltac:(lia)); [|split; [assumption|lia]].
        rewrite !no_slash_app, Hs, no_slash_str, (no_slash_token _ Htok) by lia.
        reflexivity.
      * destruct (IH (s ++ p)%string e Hrest ltac:(lia)); [|split; [assumption|lia]].
        now rewrite no_slash_app, Hs, (no_slash_token _ Htok).
Qed.

Lemma encode_rank_no_slash cells :
  Forall cell_ok cells -> List.length cells <= 9 ->
  no_slash (encode_rank cells) = true.
Proof.
  intros Hall Hlen. unfold encode_rank.
  destruct (fen_fold_no_slash cells "" 0 Hall ltac:(lia) eq_refl) as [E L].
  destruct (fold_left fen_col_step cells ("", 0)) as [s e]; simpl in *.
  destruct (Nat.ltb_spec 0 e); [|assumption].
  rewrite no_slash_app, E, no_slash_str by lia. reflexivity.
Qed.

Lemma split_fen_position board :
  is_8x8 board -> Forall (Forall cell_ok) board ->
  split "/" (fen_position board) = map encode_rank board.
Proof.
  intros H8 Hall. unfold fen_position. rewrite (fen_rows_cells _ H8).
  destruct H8 as [Hlen Hrows].
  apply split_join.
  - destruct board; [discriminate Hlen | discriminate].
  - rewrite Forall_map. rewrite Forall_forall in *. intros r Hin.
    apply encode_rank_no_slash; [auto | rewrite (Hrows r Hin); lia].
Qed.

(** Round trip for every 8x8 grid of dots and one-character tokens. *)
Lemma parse_fen_position board :
  is_8x8 board -> Forall (Forall cell_ok) board ->
  parse_position (fen_position board) = board.
Proof.
  intros H8 Hall. unfold parse_position.
  rewrite (split_fen_position _ H8 Hall), map_map.
  rewrite <- (map_id board) at 2. apply map_ext_in. intros r Hin.
  destruct H8 as [_ Hrows]. rewrite Forall_forall in *.
  apply expand_encode_rank; [auto | rewrite (Hrows r Hin); lia].
Qed.

(** *** The measures of a rank string *)

Lemma digit_sum_app a b :
  digit_sum (a ++ b)%string = digit_sum a + digit_sum b.
Proof. induction a as [|c a IH]; simpl; [reflexivity | rewrite IH; lia]. Qed.

Lemma non_digit_count_app a b :
  non_digit_count (a ++ b)%string = non_digit_count a + non_digit_count b.
Proof. induction a as [|c a IH]; simpl; [reflexivity | rewrite IH; lia]. Qed.

Lemma last_is_digit_snoc a c :
  last_is_digit (a ++ String c EmptyString)%string = is_digit c.
Proof.
  induction a as [|x a IH]; simpl; [reflexivity|].
  destruct (a ++ String c EmptyString)%string eqn:E; [|exact IH].
  destruct a; discriminate E.
Qed.

Lemma no_adjacent_digits_snoc a c :
  no_adjacent_digits a = true ->
  last_is_digit a && is_digit c = false ->
  no_adjacent_digits (a ++ String c EmptyString)%string = true.
Proof.
  induction a as [|x a IH]; intros Ha Hl; [reflexivity|].
  destruct a as [|y a].
  - simpl in *. now rewrite Hl.
  - change (no_adjacent_digits (String x (String y a)))
      with (negb (is_digit x && is_digit y) && no_adjacent_digits (String y a)) in Ha.
    apply andb_prop in Ha as [Hxy Hya].
    change (no_adjacent_digits (String x (String y a) ++ String c EmptyString)%string)
      with (negb (is_digit x && is_digit y)
            && no_adjacent_digits (String y a ++ String c EmptyString)%string).
    rewrite Hxy. apply IH; assumption.
Qed.

Lemma fen_fold_measure cells : forall s e,
  Forall cell_ok cells -> e + List.length cells <= 9 ->
  no_adjacent_digits s = true -> last_is_digit s = false ->
  let st := fold_left fen_col_step cells (s, e) in
  digit_sum (fst st) + non_digit_count (fst st) + snd st
  = digit_sum s + non_digit_count s + e + List.length cells
  /\ no_adjacent_digits (fst st) = true
  /\ last_is_digit (fst st) = false
  /\ snd st <= e + List.length cells.
Proof.
  induction cells as [|p cells IH]; intros s e Hall Hlen Hs Hl; simpl in *.
  - repeat split; auto; lia.
  - inversion Hall as [|? ? Hp Hrest]; subst.
    destruct Hp as [-> | Htok].
    + simpl. destruct (IH s (e + 1) Hrest ltac:(lia) Hs Hl) as (E & A & B & L).
      repeat split; auto; lia.
    + rewrite (token_not_dot _ Htok).
      destruct (is_token_inv p Htok) as (c & -> & Hc & _).
      destruct (Nat.ltb_spec 0 e) as [He|He].
      * destruct (str_digit e ltac:(lia)) as (d & Hstr & Hd & Hv).
        assert (A1 : no_adjacent_digits (s ++ str e)%string = true).
        { rewrite Hstr. apply no_adjacent_digits_snoc; [assumption|now rewrite Hl]. }
        destruct (IH ((s ++ str e) ++ String c EmptyString)%string 0 Hrest ltac:(lia))
          as (E & A & B & L).
        { apply no_adjacent_digits_snoc; [assumption|]. rewrite Hc. apply andb_false_r. }
        { now rewrite last_is_digit_snoc. }
        repeat split; auto; [|lia].
        rewrite E, !digit_sum_app, !non_digit_count_app, Hstr. simpl.
        rewrite Hd, Hc, Hv. lia.
      * destruct (IH (s ++ String c EmptyString)%string e Hrest ltac:(lia))
          as (E & A & B & L).
        { apply no_adjacent_digits_snoc; [assumption|]. rewrite Hc. apply andb_false_r. }
        { now rewrite last_is_digit_snoc. }
        repeat split; auto; [|lia].
        rewrite E, !digit_sum_app, !non_digit_count_app. simpl. rewrite Hc. lia.
Qed.

Lemma encode_rank_measure cells :
  Forall cell_ok cells -> List.length cells <= 9 ->
  digit_sum (encode_rank cells) + non_digit_count (encode_rank cells)
  = List.length cells
  /\ no_adjacent_digits (encode_rank cells) = true.
Proof.
  intros Hall Hlen. unfold encode_rank.
  destruct (fen_fold_measure cells "" 0 Hall ltac:(lia) eq_refl eq_refl)
    as (E & A & B & L).
  destruct (fold_left fen_col_step cells ("", 0)) as [s e]; simpl in *.
  destruct (Nat.ltb_spec 0 e) as [He|He].
  - destruct (str_digit e ltac:(lia)) as (d & Hstr & Hd & Hv).
    rewrite Hstr, digit_sum_app, non_digit_count_app. simpl. rewrite Hd, Hv.
    split; [lia|]. apply no_adjacent_digits_snoc; [assumption | now rewrite B].
  - split; [lia | assumption].
Qed.

(** C2.  For every 8x8 grid whose labels are empty or pieces of known
    colour, parsing the assembled position string (split on the delimiter,
    digits expanded, one token per other character) gives the grid back,
    and with it the sequence of its 64 labels. *)
Theorem position_round_trip board :
  is_8x8 board ->
  Forall (Forall (fun p => known_label p = true)) board ->
  parse_position (fen_position board) = board
  /\ labels (parse_position (fen_position board)) = labels board
  /\ List.length (labels board) = 64.
Proof.
  intros H8 Hknown.
  assert (Hok : Forall (Forall cell_ok) board).
  { eapply Forall_impl; [|exact Hknown]. intros r Hr.
    eapply Forall_impl; [|exact Hr]. intros p Hp.
    now apply grid_label_cell_ok, known_label_grid_label. }
  rewrite (parse_fen_position board H8 Hok).
  split; [reflexivity|]. split; [reflexivity|].
  destruct H8 as [Hlen Hrows]. unfold labels.
  do 9 (destruct board as [|? board]; try discriminate Hlen).
  repeat match goal with
         | H : Forall _ (_ :: _) |- _ => inversion H; clear H; subst
         end.
  simpl. rewrite !length_app. simpl. lia.
Qed.

(** C10.  For every 8x8 grid of ['.'], piece letters and ['?'], the
    position string splits on the delimiter into 8 segments; in each of them
    the digit values and the number of other characters add up to 8, and no
    two digits are adjacent. *)
Theorem rank_segments board :
  is_8x8 board ->
  Forall (Forall (fun p => grid_label p = true)) board ->
  List.length (split "/" (fen_position board)) = 8
  /\ Forall (fun seg => digit_sum seg + non_digit_count seg = 8
                       /\ no_adjacent_digits seg = true)
            (split "/" (fen_position board)).
Proof.
  intros H8 Hgrid.
  assert (Hok : Forall (Forall cell_ok) board).
  { eapply Forall_impl; [|exact Hgrid]. intros r Hr.
    eapply Forall_impl; [|exact Hr]. intros p Hp.
    now apply grid_label_cell_ok. }
  rewrite (split_fen_position board H8 Hok).
  destruct H8 as [Hlen Hrows]. split; [now rewrite length_map|].
  apply Forall_map. rewrite Forall_forall in *. intros r Hin.
  destruct (encode_rank_measure r (Hok r Hin)) as [Hm Hn].
  - rewrite (Hrows r Hin). lia.
  - rewrite (Hrows r Hin) in Hm. now split.
Qed.

End FenFacts.

Module Step3Facts.
Import Cv Step3 NpFacts.

Section Classifier.
Context `{cv : OpenCV}.

(** *** Occupancy *)

Lemma total_pixels_length (m : Np.Mat) :
  (Z.of_nat (Np.rows m) * Z.of_nat (Np.cols m))%Z
  = Z.of_nat (List.length (Np.pixels m)).
Proof. rewrite length_pixels. lia. Qed.

Lemma uint8_sub_exact m lo hi :
  In lo (Np.pixels m) -> In hi (Np.pixels m) -> (lo <= hi)%Z ->
  Np.uint8_sub hi lo = (hi - lo)%Z.
Proof.
  intros Hlo Hhi Hle. apply pixels_range in Hlo, Hhi.
  unfold Np.uint8_sub. apply Z.mod_small. lia.
Qed.

Lemma contrast_count cell_color (blurred : Np.Mat) :
  cell_color = "light" \/ cell_color = "dark" ->
  (if String.eqb cell_color "light"
   then Np.count (fun v => (v <? 80)%Z) blurred
   else Np.count (fun v => (180 <? v)%Z) blurred)
  = Z.of_nat (List.length (filter (contrast_pixel cell_color) (Np.pixels blurred))).
Proof. intros [-> | ->]; reflexivity. Qed.

(** C5.  On a non-empty cell image and for either background shade, the
    occupancy test answers, and it answers "empty" exactly when both the
    share of contrast pixels of the blurred cell (below 80 on a light cell,
    above 180 on a dark one) among all pixels is below 0.15 and the spread
    between the greatest and the least grey level of the blurred cell is
    below 100. *)
Theorem is_cell_empty_rule cell_image cell_color :
  cell_color = "light" \/ cell_color = "dark" ->
  Np.pixels (cvtColor_BGR2GRAY cell_image) <> [] ->
  Np.pixels (GaussianBlur (cvtColor_BGR2GRAY cell_image) (5, 5) 0%Z) <> [] ->
  exists b,
    is_cell_empty cell_image cell_color = Some b
    /\ (b = true <->
        (contrast_ratio cell_image cell_color < 0.15)%Q
        /\ spread_below cell_image 100).
Proof.
  intros Hcol Hgray Hblur. unfold is_cell_empty, contrast_ratio, spread_below.
  set (gray := cvtColor_BGR2GRAY cell_image) in *.
  set (blurred := GaussianBlur gray (5, 5) 0%Z) in *.
  destruct (amin_some blurred Hblur) as (lo & -> & Hlo & Hmin).
  destruct (amax_some blurred Hblur) as (hi & -> & Hhi & Hmax).
  rewrite (uint8_sub_exact blurred lo hi Hlo Hhi (Hmin hi Hhi)).
  rewrite (contrast_count cell_color blurred Hcol), total_pixels_length.
  assert (Hn : Z.of_nat (List.length (Np.pixels gray)) <> 0%Z).
  { destruct (Np.pixels gray); [congruence | simpl; lia]. }
  unfold Np.true_divide.
  destruct (Z.eqb_spec (Z.of_nat (List.length (Np.pixels gray))) 0) as [E|_];
    [contradiction|].
  eexists. split; [reflexivity|]. cbn [Np.lt].
  rewrite andb_true_iff, Qltb_lt, Z.ltb_lt. split.
  - intros [Hr Hs]. split; [exact Hr|]. exists lo, hi. repeat split; auto.
  - intros [Hr (lo' & hi' & [Hlo' Hmin'] & [Hhi' Hmax'] & Hs)]. split; [exact Hr|].
    assert (lo' = lo) by (apply Z.le_antisymm; auto).
    assert (hi' = hi) by (apply Z.le_antisymm; auto).
    now subst.
Qed.

(** *** Piece type *)

Lemma gt_mono (x : Np.float64) (c c' : Q) :
  (c <= c')%Q -> Np.gt x c' = true -> Np.gt x c = true.
Proof.
  destruct x as [q| | |]; simpl; auto.
  rewrite !Qltb_lt. intros. eapply Qle_lt_trans; eassumption.
Qed.

Lemma guess_piece_type_letters cell_image piece_color cell_color :
  In (guess_piece_type cell_image piece_color cell_color) ["r"; "q"; "n"; "b"; "p"].
Proof.
  unfold guess_piece_type.
  destruct (piece_contours cell_image cell_color); simpl; auto 6.
  repeat match goal with |- context [if ?b then _ else _] => destruct b end;
    simpl; auto 6.
Qed.

Lemma filled_pixel_lit cell_image cell_color bound :
  findContours_covers -> (0 <= bound)%Q ->
  Np.gt (fill_ratio cell_image cell_color) bound = true ->
  piece_contours cell_image cell_color <> [].
Proof.
  intros Hcov Hb Hgt. unfold fill_ratio, piece_contours in *.
  set (gray := cvtColor_BGR2GRAY cell_image) in *.
  destruct (String.eqb cell_color "light").
  - apply gt_divide_pos in Hgt; [|apply count_range|lia|assumption].
    apply count_pos_witness in Hgt as (v & Hin & Hv).
    apply In_pixels_inv in Hin as (r & c & Hr & Hc & ->).
    apply (Hcov _ r c); [exact Hr | exact Hc |].
    cbn [threshold Np.px]. apply Z.ltb_lt in Hv.
    destruct (Z.ltb_spec 100 (Np.u8 (Np.px gray r c))); [lia | discriminate].
  - apply gt_divide_pos in Hgt; [|apply count_range|lia|assumption].
    apply count_pos_witness in Hgt as (v & Hin & Hv).
    apply In_pixels_inv in Hin as (r & c & Hr & Hc & ->).
    apply (Hcov _ r c); [exact Hr | exact Hc |].
    cbn [threshold Np.px]. rewrite Hv. discriminate.
Qed.

(** C6.  The piece-type heuristic follows the table: fill above 0.6 with a
    tall box gives the rook, fill above 0.6 without it the queen, fill above
    0.4 the knight, fill above 0.2 the bishop, anything else the pawn; the
    king is never returned.  [findContours_covers] is what is used of the
    library: a binary image with a lit pixel has a contour. *)
Theorem guess_piece_type_table cell_image piece_color cell_color :
  findContours_covers ->
  let fill := fill_ratio cell_image cell_color in
  let t := guess_piece_type cell_image piece_color cell_color in
  (Np.gt fill 0.6 = true -> tall_box cell_image cell_color -> t = "r")
  /\ (Np.gt fill 0.6 = true -> ~ tall_box cell_image cell_color -> t = "q")
  /\ (Np.gt fill 0.6 = false -> Np.gt fill 0.4 = true -> t = "n")
  /\ (Np.gt fill 0.4 = false -> Np.gt fill 0.2 = true -> t = "b")
  /\ (Np.gt fill 0.2 = false -> t = "p")
  /\ t <> "k" /\ PyStr.upper t <> "K".
Proof.
  intros Hcov fill t.
  assert (Hne : forall bound, (0 <= bound)%Q -> Np.gt fill bound = true ->
                piece_contours cell_image cell_color <> []).
  { intros bound Hb Hg. exact (filled_pixel_lit _ _ bound Hcov Hb Hg). }
  assert (H64 : Np.gt fill 0.4 = false -> Np.gt fill 0.6 = false).
  { intros H. destruct (Np.gt fill 0.6) eqn:E; [|reflexivity].
    rewrite (gt_mono fill 0.4%Q 0.6%Q) in H; [discriminate | easy | exact E]. }
  assert (H42 : Np.gt fill 0.2 = false -> Np.gt fill 0.4 = false).
  { intros H. destruct (Np.gt fill 0.4) eqn:E; [|reflexivity].
    rewrite (gt_mono fill 0.2%Q 0.4%Q) in H; [discriminate | easy | exact E]. }
  repeat split.
  - intros Hf (c & cs & Hc & Ht). subst t. unfold guess_piece_type.
    fold fill. rewrite Hc, Hf. apply Qltb_lt in Ht. now rewrite Ht.
  - intros Hf Hnt. subst t. unfold guess_piece_type. fold fill.
    destruct (piece_contours cell_image cell_color) as [|c cs] eqn:Hc.
    + now apply (Hne 0.6%Q) in Hf.
    + rewrite Hf. destruct (Np.Qltb 1.2 (aspect_of (max_by_area c cs))) eqn:Ha;
        [|reflexivity].
      exfalso. apply Hnt. exists c, cs. split; [assumption | now apply Qltb_lt].
  - intros Hf6 Hf4. subst t. unfold guess_piece_type. fold fill.
    destruct (piece_contours cell_image cell_color) as [|c cs] eqn:Hc.
    + now apply (Hne 0.4%Q) in Hf4.
    + now rewrite Hf6, Hf4.
  - intros Hf4 Hf2. subst t. unfold guess_piece_type. fold fill.
    destruct (piece_contours cell_image cell_color) as [|c cs] eqn:Hc.
    + now apply (Hne 0.2%Q) in Hf2.
    + now rewrite (H64 Hf4), Hf4, Hf2.
  - intros Hf2. subst t. unfold guess_piece_type. fold fill.
    destruct (piece_contours cell_image cell_color) as [|c cs]; [reflexivity|].
    now rewrite (H64 (H42 Hf2)), (H42 Hf2), Hf2.
  - pose proof (guess_piece_type_letters cell_image piece_color cell_color) as H.
    fold t in H. simpl in H. intros E. rewrite E in H.
    repeat (destruct H as [H|H]; [discriminate H|]). contradiction.
  - pose proof (guess_piece_type_letters cell_image piece_color cell_color) as H.
    fold t in H. simpl in H.
    repeat (destruct H as [H|H]; [rewrite <- H; discriminate|]). contradiction.
Qed.

(** *** Lists updated by index *)

Lemma length_list_set {A} (l : list A) : forall i v,
  List.length (list_set l i v) = List.length l.
Proof. induction l; destruct i; simpl; auto. Qed.

Lemma nth_list_set_eq {A} (l : list A) : forall i v d,
  i < List.length l -> nth i (list_set l i v) d = v.
Proof.
  induction l; destruct i; simpl; intros; try lia; auto.
  apply IHl. lia.
Qed.

Lemma nth_list_set_neq {A} (l : list A) : forall i j v d,
  i <> j -> nth j (list_set l i v) d = nth j l d.
Proof.
  induction l; destruct i, j; simpl; intros; try congruence; auto.
Qed.

Lemma Forall_list_set {A} (P : A -> Prop) (l : list A) : forall i v,
  Forall P l -> (i < List.length l -> P v) -> Forall P (list_set l i v).
Proof.
  induction l; destruct i; simpl; intros v Hl Hv; auto;
    inversion Hl; subst; constructor; auto.
  - apply Hv. lia.
  - apply IHl; auto. intros. apply Hv. lia.
Qed.

Lemma row_length_8 b r :
  Fen.is_8x8 b -> r < 8 -> List.length (nth r b []) = 8.
Proof.
  intros [Hlen Hrows] Hr. rewrite Forall_forall in Hrows.
  apply Hrows, nth_In. lia.
Qed.

Lemma set_cell_8x8 b r c v : Fen.is_8x8 b -> Fen.is_8x8 (set_cell b r c v).
Proof.
  intros H. pose proof H as [Hlen Hrows]. unfold set_cell. split.
  - now rewrite length_list_set.
  - apply Forall_list_set; [assumption|]. intros Hr.
    rewrite length_list_set. apply row_length_8; [assumption | lia].
Qed.

Lemma board_at_set_cell_eq b r c v :
  Fen.is_8x8 b -> r < 8 -> c < 8 ->
  Fen.board_at (set_cell b r c v) r c = v.
Proof.
  intros H Hr Hc. unfold Fen.board_at, set_cell.
  rewrite nth_list_set_eq by (destruct H; lia).
  apply nth_list_set_eq. rewrite (row_length_8 b r H Hr). exact Hc.
Qed.

Lemma board_at_set_cell_neq b r c v r' c' :
  Fen.is_8x8 b -> r < 8 -> (r, c) <> (r', c') ->
  Fen.board_at (set_cell b r c v) r' c' = Fen.board_at b r' c'.
Proof.
  intros H Hr Hne. unfold Fen.board_at, set_cell.
  destruct (Nat.eq_dec r r') as [<-|Hrr].
  - rewrite nth_list_set_eq by (destruct H; lia).
    apply nth_list_set_neq. congruence.
  - now rewrite nth_list_set_neq.
Qed.

(** *** Loops *)

Lemma for_each_app {S I} (body : S -> I -> option S) l1 : forall l2 s,
  for_each body (l1 ++ l2) s
  = match for_each body l1 s with
    | Some s' => for_each body l2 s'
    | None => None
    end.
Proof.
  induction l1 as [|i l1 IH]; intros l2 s; simpl; [reflexivity|].
  destruct (body s i); auto.
Qed.

Lemma for_each_map {S I J} (body : S -> J -> option S) (g : I -> J) l : forall s,
  for_each (fun s i => body s (g i)) l s = for_each body (map g l) s.
Proof.
  induction l as [|i l IH]; intros s; simpl; [reflexivity|].
  destruct (body s (g i)); auto.
Qed.

Lemma for_each_nested {S} (f : S -> nat -> nat -> option S) cols rows : forall s,
  for_each (fun st r => for_each (fun st c => f st r c) cols st) rows s
  = for_each (fun st rc => f st (fst rc) (snd rc)) (list_prod rows cols) s.
Proof.
  induction rows as [|r rows IH]; intros s; simpl; [reflexivity|].
  rewrite for_each_app.
  rewrite <- (for_each_map (fun st rc => f st (fst rc) (snd rc)) (fun y => (r, y))).
  simpl. destruct (for_each (fun st c => f st r c) cols s); auto.
Qed.

Lemma NoDup_list_prod {A B} (l : list A) (l' : list B) :
  NoDup l -> NoDup l' -> NoDup (list_prod l l').
Proof.
  intros Hl Hl'. induction Hl as [|x l Hx Hl IH]; simpl; [constructor|].
  apply NoDup_app; [| exact IH |].
  - apply NoDup_map_NoDup_ForallPairs; [|assumption].
    intros a b _ _ E. now inversion E.
  - intros [a b] Hin Hin'. apply in_map_iff in Hin as (y & E & _).
    inversion E; subst. apply in_prod_iff in Hin' as [Hin' _]. contradiction.
Qed.

Lemma NoDup_squares : NoDup Fen.squares.
Proof. apply NoDup_list_prod; apply seq_NoDup. Qed.

Lemma In_squares r c : In (r, c) Fen.squares <-> r < 8 /\ c < 8.
Proof.
  unfold Fen.squares. rewrite in_prod_iff, !in_seq. lia.
Qed.

(** *** One cell *)

Lemma analyse_cell_classify st row col file :
  analyse_cell st row col file
  = option_map (record_cell st row col) (classify file).
Proof.
  destruct file as [| |cell]; simpl; try reflexivity.
  destruct (is_cell_empty cell (get_cell_color cell)) as [[|]|]; try reflexivity.
  destruct (String.eqb (get_piece_color cell (get_cell_color cell)) "w");
    [reflexivity|].
  destruct (String.eqb (get_piece_color cell (get_cell_color cell)) "b");
    reflexivity.
Qed.

Lemma classify_label_fits file lv : classify file = Some lv -> label_fits lv.
Proof.
  destruct file as [| |cell]; simpl; try discriminate.
  - intros E. inversion E. reflexivity.
  - destruct (is_cell_empty cell (get_cell_color cell)) as [[|]|]; try discriminate.
    + intros E. inversion E. reflexivity.
    + pose proof (guess_piece_type_letters cell
                    (get_piece_color cell (get_cell_color cell))
                    (get_cell_color cell)) as Ht.
      destruct (String.eqb _ "w"); [|destruct (String.eqb _ "b")];
        intros E; inversion E; unfold label_fits; simpl; try reflexivity;
        simpl in Ht;
        repeat (destruct Ht as [Ht|Ht]; [rewrite <- Ht; simpl; auto 6|]);
        contradiction.
Qed.

Lemma label_fits_grid lv : label_fits lv -> Fen.grid_label (fst lv) = true.
Proof.
  destruct lv as [l v]. unfold label_fits. simpl.
  destruct v; simpl; intros H; try (subst; reflexivity);
    repeat (destruct H as [H|H]; [subst; reflexivity|]); contradiction.
Qed.

Lemma label_fits_unknown lv :
  label_fits lv -> String.eqb "?" (fst lv) = verdict_eqb IsUnknown (snd lv).
Proof.
  destruct lv as [l v]. unfold label_fits. simpl.
  destruct v; simpl; intros H; try (subst; reflexivity);
    repeat (destruct H as [H|H]; [subst; reflexivity|]); contradiction.
Qed.

Lemma label_fits_empty lv :
  label_fits lv -> String.eqb "." (fst lv) = verdict_eqb IsEmpty (snd lv).
Proof.
  destruct lv as [l v]. unfold label_fits. simpl.
  destruct v; simpl; intros H; try (subst; reflexivity);
    repeat (destruct H as [H|H]; [subst; reflexivity|]); contradiction.
Qed.

(** *** The loop over a list of squares *)

Lemma analyse_flat files : analyse files = for_each (body files) Fen.squares init.
Proof.
  unfold analyse, Fen.squares, body.
  exact (for_each_nested
           (fun st r c => analyse_cell st r c (files r c)) (seq 0 8) (seq 0 8) init).
Qed.

Lemma tally_cons files v rc cells :
  tally files v (rc :: cells)
  = (if has_verdict files v rc then 1 else 0) + tally files v cells.
Proof. unfold tally. simpl. destruct (has_verdict files v rc); reflexivity. Qed.

Lemma for_each_squares files cells : forall st st',
  NoDup cells -> (forall rc, In rc cells -> fst rc < 8 /\ snd rc < 8) ->
  Fen.is_8x8 (board st) ->
  for_each (body files) cells st = Some st' ->
  Fen.is_8x8 (board st')
  /\ (forall r c, ~ In (r, c) cells ->
        Fen.board_at (board st') r c = Fen.board_at (board st) r c)
  /\ (forall r c, In (r, c) cells ->
        exists v, classify (files r c) = Some (Fen.board_at (board st') r c, v))
  /\ empty_count st' = empty_count st + tally files IsEmpty cells
  /\ white_count st' = white_count st + tally files IsWhite cells
  /\ black_count st' = black_count st + tally files IsBlack cells.
Proof.
  induction cells as [|[r0 c0] cells IH]; intros st st' Hnd Hr H8 Hrun.
  - simpl in Hrun. inversion Hrun; subst. unfold tally; simpl.
    split; [exact H8|]. split; [reflexivity|]. split; [intros r c []|]. lia.
  - simpl in Hrun. unfold body at 1 in Hrun. simpl in Hrun.
    rewrite analyse_cell_classify in Hrun.
    destruct (classify (files r0 c0)) as [[lbl v]|] eqn:Hc; [|discriminate].
    simpl in Hrun. inversion Hnd as [|? ? Hnotin Hnd']; subst.
    destruct (Hr (r0, c0) (or_introl eq_refl)) as [Hr0 Hc0]. simpl in Hr0, Hc0.
    assert (Hb1 : board (record_cell st r0 c0 (lbl, v)) = set_cell (board st) r0 c0 lbl)
      by (destruct v; reflexivity).
    destruct (IH _ _ Hnd' (fun rc H => Hr rc (or_intror H))
                ltac:(rewrite Hb1; now apply set_cell_8x8) Hrun)
      as (I8 & Iout & Iin & Ie & Iw & Ib).
    rewrite Hb1 in Iout.
    split; [exact I8|]. split; [|split].
    + intros r c Hnin. rewrite Iout by (intros H; apply Hnin; now right).
      apply board_at_set_cell_neq; auto. intros E. apply Hnin. left. exact E.
    + intros r c [E|Hin].
      * inversion E; subst. rewrite Iout by assumption.
        rewrite board_at_set_cell_eq by assumption. exists v. exact Hc.
      * apply Iin. exact Hin.
    + rewrite !tally_cons. unfold has_verdict. simpl. rewrite Hc.
      rewrite Ie, Iw, Ib. destruct v; simpl; repeat split; lia.
Qed.

Lemma new_board_8x8 : Fen.is_8x8 Fen.new_board.
Proof. split; [reflexivity | repeat constructor]. Qed.

(** What a completed analysis looks like. *)
Lemma analyse_done files st :
  analyse files = Some st ->
  Fen.is_8x8 (board st)
  /\ (forall r c, r < 8 -> c < 8 ->
        exists v, classify (files r c) = Some (Fen.board_at (board st) r c, v))
  /\ empty_count st = tally files IsEmpty Fen.squares
  /\ white_count st = tally files IsWhite Fen.squares
  /\ black_count st = tally files IsBlack Fen.squares.
Proof.
  rewrite analyse_flat. intros Hrun.
  destruct (for_each_squares files Fen.squares init st NoDup_squares)
    as (I8 & _ & Iin & Ie & Iw & Ib); auto.
  - intros [r c] H. now apply In_squares.
  - apply new_board_8x8.
  - split; [exact I8|].
    split; [|split; [exact Ie | split; [exact Iw | exact Ib]]].
    intros r c Hr Hc. apply Iin. now apply In_squares.
Qed.

(** *** The labels of a completed grid *)

Lemma board_table b :
  Fen.is_8x8 b ->
  b = map (fun r => map (fun c => Fen.board_at b r c) (seq 0 8)) (seq 0 8).
Proof.
  intros H. pose proof H as [Hlen _].
  rewrite <- (FenFacts.map_nth_seq_id [] b) at 1. rewrite Hlen.
  apply map_ext_in. intros r Hr. apply in_seq in Hr.
  rewrite <- (FenFacts.map_nth_seq_id "" (nth r b [])) at 1.
  rewrite (row_length_8 b r H) by lia. reflexivity.
Qed.

Lemma concat_table {A} (f : nat -> nat -> A) cols rows :
  List.concat (map (fun r => map (fun c => f r c) cols) rows)
  = map (fun rc => f (fst rc) (snd rc)) (list_prod rows cols).
Proof.
  induction rows as [|r rows IH]; simpl; [reflexivity|].
  now rewrite IH, map_app, map_map.
Qed.

Lemma labels_squares b :
  Fen.is_8x8 b ->
  Fen.labels b = map (fun rc => Fen.board_at b (fst rc) (snd rc)) Fen.squares.
Proof.
  intros H. unfold Fen.labels, Fen.squares.
  rewrite (board_table b H) at 1. apply concat_table.
Qed.

Lemma count_label_squares x b :
  Fen.is_8x8 b ->
  Fen.count_label x b
  = List.length (filter (fun rc => String.eqb x (Fen.board_at b (fst rc) (snd rc)))
                        Fen.squares).
Proof.
  intros H. unfold Fen.count_label.
  now rewrite (labels_squares b H), filter_map_swap, length_map.
Qed.

Lemma tally_total files cells :
  (forall rc, In rc cells -> classify (files (fst rc) (snd rc)) <> None) ->
  tally files IsEmpty cells + tally files IsWhite cells
  + tally files IsBlack cells + tally files IsUnknown cells
  = List.length cells.
Proof.
  induction cells as [|rc cells IH]; intros H; [reflexivity|].
  rewrite !tally_cons. simpl List.length.
  rewrite <- IH by (intros; apply H; now right).
  unfold has_verdict.
  destruct (classify (files (fst rc) (snd rc))) as [[l v]|] eqn:E.
  - destruct v; simpl; lia.
  - exfalso. apply (H rc); [now left | exact E].
Qed.

Lemma grid_counts files st :
  analyse files = Some st ->
  Fen.count_label "?" (board st) = tally files IsUnknown Fen.squares
  /\ Fen.count_label "." (board st) = tally files IsEmpty Fen.squares.
Proof.
  intros Hrun. destruct (analyse_done files st Hrun) as (H8 & Hin & _).
  rewrite !(count_label_squares _ _ H8). unfold tally.
  split; f_equal; apply filter_ext_in; intros [r c] Hrc;
    apply In_squares in Hrc as [Hr Hc];
    destruct (Hin r c Hr Hc) as (v & Hv);
    unfold has_verdict; simpl; rewrite Hv;
    apply classify_label_fits in Hv.
  - exact (label_fits_unknown _ Hv).
  - exact (label_fits_empty _ Hv).
Qed.

Lemma count_non_empty_complement b :
  Fen.count_label "." b + Fen.count_non_empty b = List.length (Fen.labels b).
Proof.
  unfold Fen.count_label, Fen.count_non_empty, Fen.empty_label.
  rewrite <- (filter_length (String.eqb ".") (Fen.labels b)).
  f_equal. f_equal. apply filter_ext. intros l. now rewrite String.eqb_sym.
Qed.

Lemma grid_cells_ok files st :
  analyse files = Some st -> Forall (Forall Fen.cell_ok) (board st).
Proof.
  intros Hrun. destruct (analyse_done files st Hrun) as (H8 & Hin & _).
  rewrite (board_table _ H8).
  apply Forall_map, Forall_forall. intros r Hr. apply in_seq in Hr.
  apply Forall_map, Forall_forall. intros c Hc. apply in_seq in Hc.
  destruct (Hin r c) as (v & Hv); try lia.
  apply classify_label_fits, label_fits_grid in Hv.
  now apply FenFacts.grid_label_cell_ok.
Qed.

(** C1 (as amended).  For every grid the analysis loop produces, the three
    counters together with the number of cells labelled ['?'] make 64; the
    white and black counters together with the ['?'] cells are the non-empty
    labels, and the empty counter is the number of ['.'] labels.  A cell
    labelled ['?'] is in none of the three counters. *)
Theorem counts_with_unknown files st :
  analyse files = Some st ->
  empty_count st + white_count st + black_count st
  + Fen.count_label "?" (board st) = 64
  /\ white_count st + black_count st + Fen.count_label "?" (board st)
     = Fen.count_non_empty (board st)
  /\ empty_count st = Fen.count_label "." (board st)
  /\ List.length (Fen.labels (board st)) = 64.
Proof.
  intros Hrun.
  destruct (analyse_done files st Hrun) as (H8 & Hin & He & Hw & Hb).
  destruct (grid_counts files st Hrun) as [Hu Hd].
  assert (Hlen : List.length (Fen.labels (board st)) = 64).
  { rewrite (labels_squares _ H8), length_map. reflexivity. }
  assert (Htot : tally files IsEmpty Fen.squares + tally files IsWhite Fen.squares
                 + tally files IsBlack Fen.squares + tally files IsUnknown Fen.squares
                 = 64).
  { rewrite tally_total; [reflexivity|]. intros [r c] Hrc.
    apply In_squares in Hrc as [Hr Hc]. destruct (Hin r c Hr Hc) as (v & Hv).
    simpl. congruence. }
  pose proof (count_non_empty_complement (board st)) as Hc.
  rewrite Hlen in Hc. repeat split; lia.
Qed.

(** The colour test answers ['?'] exactly on the indeterminate band. *)
Lemma get_piece_color_unknown_iff cell cell_color :
  get_piece_color cell cell_color = "?"
  <-> indeterminate cell_color (center_brightness cell).
Proof.
  unfold get_piece_color, indeterminate, center_brightness.
  destruct (String.eqb cell_color "light");
    match goal with
    | |- context [Np.gt ?a ?c] => destruct (Np.gt a c)
    end;
    match goal with
    | |- context [Np.lt ?a ?c] => destruct (Np.lt a c)
    end;
    split; intros H; try discriminate H; try (destruct H; discriminate);
    auto.
Qed.

(** C9.  An occupied cell whose colour test answers ['?'] - its central
    brightness is in the indeterminate band of its background shade - is
    written to the grid as ['?'], which is none of the twelve piece letters,
    and the position string assembled from the grid decodes to ['?'] on that
    square. *)
Theorem unknown_colour_preserved files st row col cell :
  analyse files = Some st ->
  row < 8 -> col < 8 ->
  files row col = Decoded cell ->
  is_cell_empty cell (get_cell_color cell) = Some false ->
  get_piece_color cell (get_cell_color cell) = "?" ->
  indeterminate (get_cell_color cell) (center_brightness cell)
  /\ Fen.board_at (board st) row col = "?"
  /\ ~ In "?" Fen.piece_letters
  /\ Fen.board_at (Fen.parse_position (Fen.fen_position (board st))) row col = "?".
Proof.
  intros Hrun Hr Hc Hfile Hocc Hcol.
  destruct (analyse_done files st Hrun) as (H8 & Hin & _).
  assert (Hentry : Fen.board_at (board st) row col = "?").
  { destruct (Hin row col Hr Hc) as (v & Hv).
    rewrite Hfile in Hv. simpl in Hv. rewrite Hocc, Hcol in Hv. simpl in Hv.
    now inversion Hv. }
  split; [now apply get_piece_color_unknown_iff|].
  split; [exact Hentry|]. split.
  - simpl. intros H. repeat (destruct H as [H|H]; [discriminate H|]). exact H.
  - rewrite FenFacts.parse_fen_position; auto. now apply grid_cells_ok with files.
Qed.

End Classifier.

End Step3Facts.

Module Step0Facts.
Import Cv Step0 NpFacts.

(** *** [argmin] and [argmax] *)

Lemma argmin_cons2 x y l :
  argmin (x :: y :: l)
  = if (x <=? nth (argmin (y :: l)) (y :: l) 0)%Z then 0 else S (argmin (y :: l)).
Proof. reflexivity. Qed.

Lemma argmax_cons2 x y l :
  argmax (x :: y :: l)
  = if (nth (argmax (y :: l)) (y :: l) 0 <=? x)%Z then 0 else S (argmax (y :: l)).
Proof. reflexivity. Qed.

Lemma nth_map_middle {A} (f : A -> Z) before p after :
  nth (List.length before) (map f (before ++ p :: after)) 0%Z = f p.
Proof.
  rewrite map_app. simpl. rewrite <- (length_map f before). apply nth_middle.
Qed.

(** The point picked by [argmin]: the first one of least value. *)
Lemma argmin_pick (f : Point -> Z) pts :
  pts <> [] ->
  exists before p after,
    pts = before ++ p :: after
    /\ argmin (map f pts) = List.length before
    /\ (forall q, In q before -> (f p < f q)%Z)
    /\ (forall q, In q after -> (f p <= f q)%Z).
Proof.
  induction pts as [|x xs IH]; [congruence|]. intros _.
  destruct xs as [|y ys].
  - exists [], x, []. simpl.
    split; [reflexivity|]. split; [reflexivity|]. split; intros q [].
  - destruct IH as (b & p & a & E & Hk & Hb & Ha); [discriminate|].
    assert (Hn : nth (argmin (map f (y :: ys))) (map f (y :: ys)) 0%Z = f p).
    { rewrite Hk, E. apply nth_map_middle. }
    change (map f (x :: y :: ys)) with (f x :: map f (y :: ys)).
    destruct (map f (y :: ys)) as [|fy fys] eqn:Em; [discriminate Em|].
    rewrite argmin_cons2, Hn.
    destruct (Z.leb_spec (f x) (f p)) as [Hle|Hlt].
    + exists [], x, (y :: ys).
      split; [reflexivity|]. split; [reflexivity|]. split; [intros q []|].
      intros q Hq. rewrite E in Hq. apply in_app_or in Hq as [Hq|[<-|Hq]].
      * specialize (Hb q Hq). lia.
      * exact Hle.
      * specialize (Ha q Hq). lia.
    + exists (x :: b), p, a. rewrite E.
      split; [reflexivity|]. split; [rewrite Hk; reflexivity|]. split; [|exact Ha].
      intros q [<-|Hq]; [exact Hlt | now apply Hb].
Qed.

Lemma argmax_pick (f : Point -> Z) pts :
  pts <> [] ->
  exists before p after,
    pts = before ++ p :: after
    /\ argmax (map f pts) = List.length before
    /\ (forall q, In q before -> (f q < f p)%Z)
    /\ (forall q, In q after -> (f q <= f p)%Z).
Proof.
  induction pts as [|x xs IH]; [congruence|]. intros _.
  destruct xs as [|y ys].
  - exists [], x, []. simpl.
    split; [reflexivity|]. split; [reflexivity|]. split; intros q [].
  - destruct IH as (b & p & a & E & Hk & Hb & Ha); [discriminate|].
    assert (Hn : nth (argmax (map f (y :: ys))) (map f (y :: ys)) 0%Z = f p).
    { rewrite Hk, E. apply nth_map_middle. }
    change (map f (x :: y :: ys)) with (f x :: map f (y :: ys)).
    destruct (map f (y :: ys)) as [|fy fys] eqn:Em; [discriminate Em|].
    rewrite argmax_cons2, Hn.
    destruct (Z.leb_spec (f p) (f x)) as [Hle|Hlt].
    + exists [], x, (y :: ys).
      split; [reflexivity|]. split; [reflexivity|]. split; [intros q []|].
      intros q Hq. rewrite E in Hq. apply in_app_or in Hq as [Hq|[<-|Hq]].
      * specialize (Hb q Hq). lia.
      * exact Hle.
      * specialize (Ha q Hq). lia.
    + exists (x :: b), p, a. rewrite E.
      split; [reflexivity|]. split; [rewrite Hk; reflexivity|]. split; [|exact Ha].
      intros q [<-|Hq]; [exact Hlt | now apply Hb].
Qed.

(** The picked point as a member of least (greatest) value. *)
Lemma pick_min f pts :
  pts <> [] ->
  let p := row_at pts (argmin (map f pts)) in
  In p pts /\ forall q, In q pts -> (f p <= f q)%Z.
Proof.
  intros Hne. destruct (argmin_pick f pts Hne) as (b & p & a & E & Hk & Hb & Ha).
  cbv zeta.
  assert (Hp : row_at pts (argmin (map f pts)) = p)
    by (unfold row_at; rewrite Hk, E; apply nth_middle).
  rewrite Hp. split.
  - rewrite E. apply in_elt.
  - intros q Hq. rewrite E in Hq. apply in_app_or in Hq as [Hq|[<-|Hq]].
    + specialize (Hb q Hq). lia.
    + lia.
    + now apply Ha.
Qed.

Lemma pick_max f pts :
  pts <> [] ->
  let p := row_at pts (argmax (map f pts)) in
  In p pts /\ forall q, In q pts -> (f q <= f p)%Z.
Proof.
  intros Hne. destruct (argmax_pick f pts Hne) as (b & p & a & E & Hk & Hb & Ha).
  cbv zeta.
  assert (Hp : row_at pts (argmax (map f pts)) = p)
    by (unfold row_at; rewrite Hk, E; apply nth_middle).
  rewrite Hp. split.
  - rewrite E. apply in_elt.
  - intros q Hq. rewrite E in Hq. apply in_app_or in Hq as [Hq|[<-|Hq]].
    + specialize (Hb q Hq). lia.
    + lia.
    + now apply Ha.
Qed.

Lemma point_diff_exact p : in_frame p -> point_diff p = (snd p - fst p)%Z.
Proof.
  intros [Hx Hy]. unfold point_diff, int32.
  rewrite Z.mod_small; lia.
Qed.

Lemma map_point_diff pts :
  Forall in_frame pts ->
  map point_diff pts = map (fun p : Point => snd p - fst p)%Z pts.
Proof.
  intros H. apply map_ext_in. intros p Hp. rewrite Forall_forall in H.
  now apply point_diff_exact, H.
Qed.

Lemma four_points_nonempty (pts : list Point) : List.length pts = 4 -> pts <> [].
Proof. destruct pts; [discriminate | discriminate]. Qed.

(** C3 (as amended).  Among four corner points in pixel coordinates,
    [order_points] returns as top-left a point of least [x + y], as
    bottom-right a point of greatest [x + y], as top-right a point of least
    [y - x] (that is, of greatest [x - y]) and as bottom-left a point of
    greatest [y - x] (of least [x - y]). *)
Theorem order_points_rule pts :
  List.length pts = 4 -> Forall in_frame pts ->
  exists tl tr br bl,
    order_points pts = [tl; tr; br; bl]
    /\ (In tl pts /\ forall p, In p pts -> (fst tl + snd tl <= fst p + snd p)%Z)
    /\ (In br pts /\ forall p, In p pts -> (fst p + snd p <= fst br + snd br)%Z)
    /\ (In tr pts /\ forall p, In p pts -> (snd tr - fst tr <= snd p - fst p)%Z)
    /\ (In bl pts /\ forall p, In p pts -> (snd p - fst p <= snd bl - fst bl)%Z).
Proof.
  intros Hlen Hfr. pose proof (four_points_nonempty pts Hlen) as Hne.
  unfold order_points. rewrite (map_point_diff pts Hfr).
  do 4 eexists. split; [reflexivity|].
  split; [exact (pick_min point_sum pts Hne)|].
  split; [exact (pick_max point_sum pts Hne)|].
  split; [exact (pick_min (fun p => snd p - fst p)%Z pts Hne)|].
  exact (pick_max (fun p => snd p - fst p)%Z pts Hne).
Qed.

(** *** Invariance under reordering *)

Lemma pick_min_perm f pts pts' :
  Permutation pts pts' -> pts <> [] -> sole_min f pts ->
  row_at pts' (argmin (map f pts')) = row_at pts (argmin (map f pts)).
Proof.
  intros Hp Hne Hsole.
  assert (Hne' : pts' <> []).
  { intros ->. apply Permutation_sym, Permutation_nil in Hp. contradiction. }
  destruct (pick_min f pts Hne) as [Hin Hmin].
  destruct (pick_min f pts' Hne') as [Hin' Hmin'].
  apply Hsole; auto.
  - apply Permutation_in with pts'; [now apply Permutation_sym | exact Hin'].
  - intros r Hr. apply Hmin'. now apply Permutation_in with pts.
Qed.

Lemma pick_max_perm f pts pts' :
  Permutation pts pts' -> pts <> [] -> sole_max f pts ->
  row_at pts' (argmax (map f pts')) = row_at pts (argmax (map f pts)).
Proof.
  intros Hp Hne Hsole.
  assert (Hne' : pts' <> []).
  { intros ->. apply Permutation_sym, Permutation_nil in Hp. contradiction. }
  destruct (pick_max f pts Hne) as [Hin Hmax].
  destruct (pick_max f pts' Hne') as [Hin' Hmax'].
  apply Hsole; auto.
  - apply Permutation_in with pts'; [now apply Permutation_sym | exact Hin'].
  - intros r Hr. apply Hmax'. now apply Permutation_in with pts.
Qed.

(** C8 (as amended).  Feeding the same four corner points in another order
    gives the same assignment, provided no two of them tie for the least or
    the greatest [x + y] or [y - x]. *)
Theorem order_points_permutation pts pts' :
  Permutation pts pts' ->
  List.length pts = 4 -> Forall in_frame pts -> no_ties pts ->
  order_points pts' = order_points pts.
Proof.
  intros Hp Hlen Hfr (Hs1 & Hs2 & Hd1 & Hd2).
  pose proof (four_points_nonempty pts Hlen) as Hne.
  assert (Hfr' : Forall in_frame pts').
  { rewrite Forall_forall in *. intros p Hin. apply Hfr.
    apply Permutation_in with pts'; [now apply Permutation_sym | exact Hin]. }
  unfold order_points.
  rewrite (map_point_diff pts Hfr), (map_point_diff pts' Hfr').
  rewrite (pick_min_perm point_sum pts pts' Hp Hne Hs1).
  rewrite (pick_max_perm point_sum pts pts' Hp Hne Hs2).
  rewrite (pick_min_perm _ pts pts' Hp Hne Hd1).
  rewrite (pick_max_perm _ pts pts' Hp Hne Hd2).
  reflexivity.
Qed.

Section Script.
Context `{cv : OpenCV}.

(** *** The locator loop *)

Lemma locate_step_located seen st cnt :
  located seen st -> located (seen ++ [cnt]) (locate_step st cnt).
Proof.
  destruct st as [[quad|] m]; unfold located; simpl fst; simpl snd.
  - intros (c & (bf & af & E & Hfs & Hpos & Hbf & Haf) & Hq & Hm). subst m quad.
    unfold locate_step.
    destruct (Np.Qltb (contourArea c) (contourArea cnt)) eqn:Hlt.
    + apply Qltb_lt in Hlt.
      destruct (Nat.eqb_spec (List.length (approx_of cnt)) 4) as [H4|H4]; simpl.
      * exists cnt. split; [|split; reflexivity].
        exists seen, []. split; [reflexivity|]. split; [exact H4|].
        split; [lra|]. split; [|intros c' []].
        intros c' Hin Hfs'. rewrite E in Hin.
        apply in_app_or in Hin as [Hin|[<-|Hin]].
        -- specialize (Hbf c' Hin Hfs'). lra.
        -- exact Hlt.
        -- specialize (Haf c' Hin Hfs'). lra.
      * exists c. split; [|split; reflexivity].
        exists bf, (af ++ [cnt]). split; [rewrite E, <- app_assoc; reflexivity|].
        split; [exact Hfs|]. split; [exact Hpos|]. split; [exact Hbf|].
        intros c' Hin Hfs'. apply in_app_or in Hin as [Hin|[<-|[]]]; auto.
        contradiction.
    + apply Qltb_ge in Hlt. simpl.
      exists c. split; [|split; reflexivity].
      exists bf, (af ++ [cnt]). split; [rewrite E, <- app_assoc; reflexivity|].
      split; [exact Hfs|]. split; [exact Hpos|]. split; [exact Hbf|].
      intros c' Hin Hfs'. apply in_app_or in Hin as [Hin|[<-|[]]]; auto.
  - intros [Hm Hall]. subst m. unfold locate_step.
    destruct (Np.Qltb 0 (contourArea cnt)) eqn:Hlt.
    + apply Qltb_lt in Hlt.
      destruct (Nat.eqb_spec (List.length (approx_of cnt)) 4) as [H4|H4]; simpl.
      * exists cnt. split; [|split; reflexivity].
        exists seen, []. split; [reflexivity|]. split; [exact H4|].
        split; [exact Hlt|]. split; [|intros c' []].
        intros c' Hin Hfs'. specialize (Hall c' Hin Hfs'). lra.
      * split; [reflexivity|]. intros c' Hin Hfs'.
        apply in_app_or in Hin as [Hin|[<-|[]]]; auto. contradiction.
    + apply Qltb_ge in Hlt. simpl. split; [reflexivity|].
      intros c' Hin Hfs'. apply in_app_or in Hin as [Hin|[<-|[]]]; auto.
Qed.

Lemma locate_fold_located rest : forall seen st,
  located seen st -> located (seen ++ rest) (fold_left locate_step rest st).
Proof.
  induction rest as [|cnt rest IH]; intros seen st H; simpl.
  - now rewrite app_nil_r.
  - replace (seen ++ cnt :: rest) with ((seen ++ [cnt]) ++ rest)
      by (now rewrite <- app_assoc).
    apply IH. now apply locate_step_located.
Qed.

Lemma board_contour_located contours :
  located contours (fold_left locate_step contours (None, 0%Q)).
Proof.
  apply (locate_fold_located contours [] (None, 0%Q)).
  split; [reflexivity|]. intros c [].
Qed.

Lemma board_contour_some contours quad :
  board_contour contours = Some quad ->
  exists c, first_largest contours c /\ quad = approx_of c.
Proof.
  unfold board_contour. intros H.
  pose proof (board_contour_located contours) as L. unfold located in L.
  rewrite H in L. destruct L as (c & H1 & H2 & _). now exists c.
Qed.

Lemma board_contour_none contours :
  board_contour contours = None ->
  forall c, In c contours -> four_sided c -> (contourArea c <= 0)%Q.
Proof.
  unfold board_contour. intros H.
  pose proof (board_contour_located contours) as L. unfold located in L.
  rewrite H in L. now destruct L.
Qed.

(** C4 (as amended).  The locator keeps the polygon approximation of the
    first contour that has the largest area among the contours with a
    four-vertex approximation, provided that area is positive; a tie is
    settled in favour of the earliest contour.  The outcome is
    board-not-found, reached before any rectification, exactly when no
    contour with a four-vertex approximation has a positive area. *)
Theorem board_contour_rule image contours :
  match board_contour contours with
  | Some quad =>
      (exists c, first_largest contours c /\ quad = approx_of c)
      /\ from_contours image contours <> BoardNotFound
  | None =>
      (forall c, In c contours -> four_sided c -> (contourArea c <= 0)%Q)
      /\ from_contours image contours = BoardNotFound
  end.
Proof.
  unfold from_contours.
  destruct (board_contour contours) as [quad|] eqn:E.
  - split; [now apply board_contour_some | discriminate].
  - split; [now apply board_contour_none | reflexivity].
Qed.

(** C7 (as amended).  The rectifier has no error path.  Whenever some
    contour with a four-vertex approximation has a positive area, the script
    ends with a saved image: the warp of the input through the homography of
    the canonically ordered corners of the located outline.  The corner
    geometry is not examined, so this holds for degenerate corners too. *)
Theorem rectifier_always_saves image contours :
  (exists c, In c contours /\ four_sided c /\ (0 < contourArea c)%Q) ->
  exists c,
    first_largest contours c
    /\ let warped :=
         warpPerspective image
           (getPerspectiveTransform (order_points (approx_of c)) dst)
           (BOARD_SIZE, BOARD_SIZE) in
       from_contours image contours = Saved warped (draw_grid warped).
Proof.
  intros (c0 & Hin & Hfs & Hpos). unfold from_contours.
  destruct (board_contour contours) as [quad|] eqn:E.
  - destruct (board_contour_some contours quad E) as (c & Hc & ->).
    exists c. split; [exact Hc | reflexivity].
  - pose proof (board_contour_none contours E c0 Hin Hfs). lra.
Qed.

End Script.

End Step0Facts.

(** ** Closed examples *)

Module Examples.
Import Cv Reference.

(** The small implementation meets the contract on [findContours]. *)
Lemma ref_cv_covers : findContours_covers (H := ref_cv).
Proof.
  intros m r c Hr Hc Hpx. simpl.
  assert (Hin : In (Z.of_nat c, Z.of_nat r) (lit_points m)).
  { unfold lit_points. apply in_flat_map. exists r. split; [apply in_seq; lia|].
    apply in_flat_map. exists c. split; [apply in_seq; lia|].
    destruct (Byte.eqb (Np.px m r c) x00) eqn:E; [|now left].
    apply Byte.byte_dec_bl in E. contradiction. }
  destruct (lit_points m); [contradiction | discriminate].
Qed.

(** *** The counters (C1) *)

Example sample_run :
  Step3.analyse (cv := ref_cv) sample_files = Some sample_analysis.
Proof. vm_compute. reflexivity. Qed.

(** C1, counterexample.  One occupied cell of undetermined colour among 63
    empty cells: the three counters add up to 63, and the one non-empty
    label is in neither the white nor the black counter. *)
Lemma counts_miss_unknown :
  Step3.analyse (cv := ref_cv) sample_files = Some sample_analysis
  /\ Step3.empty_count sample_analysis + Step3.white_count sample_analysis
     + Step3.black_count sample_analysis <> 64
  /\ Step3.white_count sample_analysis + Step3.black_count sample_analysis
     <> Fen.count_non_empty (Step3.board sample_analysis).
Proof.
  split; [vm_compute; reflexivity|]. split; vm_compute; discriminate.
Qed.

Lemma counts_with_unknown_witness :
  Step3.analyse (cv := ref_cv) sample_files = Some sample_analysis
  /\ (Step3.empty_count sample_analysis + Step3.white_count sample_analysis
      + Step3.black_count sample_analysis
      + Fen.count_label "?" (Step3.board sample_analysis) = 64
      /\ Step3.white_count sample_analysis + Step3.black_count sample_analysis
         + Fen.count_label "?" (Step3.board sample_analysis)
         = Fen.count_non_empty (Step3.board sample_analysis)
      /\ Step3.empty_count sample_analysis
         = Fen.count_label "." (Step3.board sample_analysis)
      /\ List.length (Fen.labels (Step3.board sample_analysis)) = 64).
Proof.
  split; [vm_compute; reflexivity|].
  apply (Step3Facts.counts_with_unknown (cv := ref_cv) sample_files sample_analysis).
  vm_compute. reflexivity.
Defined.

(** *** The unknown colour (C9) *)

Lemma unknown_colour_preserved_witness :
  (Step3.analyse (cv := ref_cv) sample_files = Some sample_analysis
   /\ 0 < 8
   /\ sample_files 0 0 = Step3.Decoded (cv := ref_cv) (split_cell 8)
   /\ Step3.is_cell_empty (cv := ref_cv) (split_cell 8)
        (Step3.get_cell_color (cv := ref_cv) (split_cell 8)) = Some false
   /\ Step3.get_piece_color (cv := ref_cv) (split_cell 8)
        (Step3.get_cell_color (cv := ref_cv) (split_cell 8)) = "?")
  /\ (Step3.indeterminate
        (Step3.get_cell_color (cv := ref_cv) (split_cell 8))
        (Step3.center_brightness (cv := ref_cv) (split_cell 8))
      /\ Fen.board_at (Step3.board sample_analysis) 0 0 = "?"
      /\ ~ In "?" Fen.piece_letters
      /\ Fen.board_at
           (Fen.parse_position (Fen.fen_position (Step3.board sample_analysis)))
           0 0 = "?").
Proof.
  split.
  - split; [vm_compute; reflexivity|]. split; [lia|].
    split; [reflexivity|]. split; vm_compute; reflexivity.
  - apply (Step3Facts.unknown_colour_preserved (cv := ref_cv)
             sample_files sample_analysis 0 0 (split_cell 8)).
    + vm_compute. reflexivity.
    + lia.
    + lia.
    + reflexivity.
    + vm_compute. reflexivity.
    + vm_compute. reflexivity.
Defined.

(** *** The position string (C2, C10) *)

Lemma start_board_8x8 : Fen.is_8x8 start_board.
Proof. split; [reflexivity | repeat constructor]. Defined.

Lemma sample_board_8x8 : Fen.is_8x8 sample_board.
Proof. split; [reflexivity | repeat constructor]. Defined.

Lemma position_round_trip_witness :
  (Fen.is_8x8 start_board
   /\ Forall (Forall (fun p => Fen.known_label p = true)) start_board)
  /\ (Fen.parse_position (Fen.fen_position start_board) = start_board
      /\ Fen.labels (Fen.parse_position (Fen.fen_position start_board))
         = Fen.labels start_board
      /\ List.length (Fen.labels start_board) = 64).
Proof.
  assert (H : Forall (Forall (fun p => Fen.known_label p = true)) start_board)
    by (repeat constructor).
  split; [split; [exact start_board_8x8 | exact H]|].
  apply (FenFacts.position_round_trip start_board start_board_8x8 H).
Defined.

Lemma rank_segments_witness :
  (Fen.is_8x8 sample_board
   /\ Forall (Forall (fun p => Fen.grid_label p = true)) sample_board)
  /\ (List.length (PyStr.split "/" (Fen.fen_position sample_board)) = 8
      /\ Forall (fun seg => Fen.digit_sum seg + Fen.non_digit_count seg = 8
                            /\ Fen.no_adjacent_digits seg = true)
                (PyStr.split "/" (Fen.fen_position sample_board))).
Proof.
  assert (H : Forall (Forall (fun p => Fen.grid_label p = true)) sample_board)
    by (repeat constructor).
  split; [split; [exact sample_board_8x8 | exact H]|].
  apply (FenFacts.rank_segments sample_board sample_board_8x8 H).
Defined.

Example sample_position :
  Fen.fen_position sample_board = "?7/8/8/8/8/8/8/8".
Proof. reflexivity. Qed.

(** *** Occupancy and piece type (C5, C6) *)

Lemma is_cell_empty_rule_witness :
  (("light" = "light" \/ "light" = "dark")
   /\ Np.pixels (cvtColor_BGR2GRAY (OpenCV := ref_cv) (split_cell 8)) <> []
   /\ Np.pixels (GaussianBlur (OpenCV := ref_cv)
                   (cvtColor_BGR2GRAY (OpenCV := ref_cv) (split_cell 8))
                   (5, 5) 0%Z) <> [])
  /\ exists b,
       Step3.is_cell_empty (cv := ref_cv) (split_cell 8) "light" = Some b
       /\ (b = true <->
           (Step3.contrast_ratio (cv := ref_cv) (split_cell 8) "light" < 0.15)%Q
           /\ Step3.spread_below (cv := ref_cv) (split_cell 8) 100).
Proof.
  assert (H1 : "light" = "light" \/ "light" = "dark") by (left; reflexivity).
  assert (H2 : Np.pixels (cvtColor_BGR2GRAY (OpenCV := ref_cv) (split_cell 8)) <> [])
    by (vm_compute; discriminate).
  assert (H3 : Np.pixels (GaussianBlur (OpenCV := ref_cv)
                            (cvtColor_BGR2GRAY (OpenCV := ref_cv) (split_cell 8))
                            (5, 5) 0%Z) <> [])
    by (vm_compute; discriminate).
  split; [split; [exact H1 | split; [exact H2 | exact H3]]|].
  exact (Step3Facts.is_cell_empty_rule (cv := ref_cv) (split_cell 8) "light" H1 H2 H3).
Defined.

Lemma guess_piece_type_table_witness :
  findContours_covers (H := ref_cv)
  /\ (let fill := Step3.fill_ratio (cv := ref_cv) (blob_cell 10 5 x00 xff) "light" in
      let t := Step3.guess_piece_type (cv := ref_cv) (blob_cell 10 5 x00 xff) "b" "light" in
      (Np.gt fill 0.6 = true ->
       Step3.tall_box (cv := ref_cv) (blob_cell 10 5 x00 xff) "light" -> t = "r")
      /\ (Np.gt fill 0.6 = true ->
          ~ Step3.tall_box (cv := ref_cv) (blob_cell 10 5 x00 xff) "light" -> t = "q")
      /\ (Np.gt fill 0.6 = false -> Np.gt fill 0.4 = true -> t = "n")
      /\ (Np.gt fill 0.4 = false -> Np.gt fill 0.2 = true -> t = "b")
      /\ (Np.gt fill 0.2 = false -> t = "p")
      /\ t <> "k" /\ PyStr.upper t <> "K").
Proof.
  split; [exact ref_cv_covers|].
  exact (Step3Facts.guess_piece_type_table (cv := ref_cv)
           (blob_cell 10 5 x00 xff) "b" "light" ref_cv_covers).
Defined.

Example blob_types :
  Step3.guess_piece_type (cv := ref_cv) (blob_cell 10 7 x00 xff) "b" "light" = "r"
  /\ Step3.guess_piece_type (cv := ref_cv) (blob_cell 10 5 x00 xff) "b" "light" = "n"
  /\ Step3.guess_piece_type (cv := ref_cv) (blob_cell 10 3 x00 xff) "b" "light" = "b"
  /\ Step3.guess_piece_type (cv := ref_cv) (blob_cell 10 1 x00 xff) "b" "light" = "p".
Proof. repeat split; vm_compute; reflexivity. Qed.

(** *** Corner order (C3, C8) *)

Example square_corners :
  Step0.order_points (square 0 0 10)
  = [(0, 0); (10, 0); (10, 10); (0, 10)]%Z.
Proof. reflexivity. Qed.

(** C3, counterexample.  On the square with corners (0,0), (10,0), (10,10),
    (0,10) the top-right corner returned is (10,0), where [x - y] is 10: the
    greatest value, not the least, which is -10 at (0,10); and the
    bottom-left corner returned is (0,10), the point of least [x - y]. *)
Lemma top_right_is_not_least_x_minus_y :
  let pts := square 0 0 10 in
  let tr := nth 1 (Step0.order_points pts) (0, 0)%Z in
  let bl := nth 3 (Step0.order_points pts) (0, 0)%Z in
  tr = (10, 0)%Z /\ bl = (0, 10)%Z
  /\ In bl pts
  /\ ~ (forall p, In p pts -> (fst tr - snd tr <= fst p - snd p)%Z)
  /\ ~ (forall p, In p pts -> (fst p - snd p <= fst bl - snd bl)%Z).
Proof.
  cbv zeta. rewrite square_corners. simpl nth.
  split; [reflexivity|]. split; [reflexivity|].
  split; [simpl; auto|]. split.
  - intros H. specialize (H (0, 10)%Z ltac:(simpl; tauto)). simpl in H. lia.
  - intros H. specialize (H (10, 0)%Z ltac:(simpl; tauto)). simpl in H. lia.
Qed.

Lemma square_in_frame : Forall Step0.in_frame (square 0 0 10).
Proof. repeat constructor; simpl; lia. Defined.

Lemma order_points_rule_witness :
  (List.length (square 0 0 10) = 4 /\ Forall Step0.in_frame (square 0 0 10))
  /\ exists tl tr br bl,
       Step0.order_points (square 0 0 10) = [tl; tr; br; bl]
       /\ (In tl (square 0 0 10)
           /\ forall p, In p (square 0 0 10) ->
                        (fst tl + snd tl <= fst p + snd p)%Z)
       /\ (In br (square 0 0 10)
           /\ forall p, In p (square 0 0 10) ->
                        (fst p + snd p <= fst br + snd br)%Z)
       /\ (In tr (square 0 0 10)
           /\ forall p, In p (square 0 0 10) ->
                        (snd tr - fst tr <= snd p - fst p)%Z)
       /\ (In bl (square 0 0 10)
           /\ forall p, In p (square 0 0 10) ->
                        (snd p - fst p <= snd bl - fst bl)%Z).
Proof.
  split; [split; [reflexivity | exact square_in_frame]|].
  exact (Step0Facts.order_points_rule (square 0 0 10) eq_refl square_in_frame).
Defined.

(** C8, counterexample.  The four corners of a diamond tie pairwise in
    [x + y] and in [y - x]; listed from the top corner and listed from the
    left corner they are assigned differently. *)
Lemma diamond_order_matters :
  Permutation diamond diamond_from_left
  /\ Step0.order_points diamond = [(5, 0); (5, 0); (10, 5); (5, 10)]%Z
  /\ Step0.order_points diamond_from_left = [(0, 5); (5, 0); (10, 5); (0, 5)]%Z
  /\ Step0.order_points diamond_from_left <> Step0.order_points diamond.
Proof.
  split.
  - unfold diamond, diamond_from_left.
    apply Permutation_sym. apply (Permutation_cons_app [_; _; _] []). reflexivity.
  - split; [reflexivity|]. split; [reflexivity|]. discriminate.
Qed.

Ltac sole_at x :=
  let p := fresh "p" in
  let q := fresh "q" in
  let Hp := fresh "Hp" in
  let Hq := fresh "Hq" in
  let Mp := fresh "Mp" in
  let Mq := fresh "Mq" in
  intros p q Hp Hq Mp Mq;
  specialize (Mp x ltac:(simpl; tauto));
  specialize (Mq x ltac:(simpl; tauto));
  simpl in Hp, Hq;
  repeat (destruct Hp as [Hp|Hp]; [subst p|]); try contradiction;
  repeat (destruct Hq as [Hq|Hq]; [subst q|]); try contradiction;
  first [reflexivity | exfalso; unfold Step0.point_sum in *; simpl in *; lia].

Lemma square_no_ties : Step0.no_ties (square 0 0 10).
Proof.
  split; [|split; [|split]].
  - sole_at (0, 0)%Z.
  - sole_at (10, 10)%Z.
  - sole_at (10, 0)%Z.
  - sole_at (0, 10)%Z.
Defined.

Lemma order_points_permutation_witness :
  (Permutation (square 0 0 10) [(10, 0); (0, 0); (10, 10); (0, 10)]%Z
   /\ List.length (square 0 0 10) = 4
   /\ Forall Step0.in_frame (square 0 0 10)
   /\ Step0.no_ties (square 0 0 10))
  /\ Step0.order_points [(10, 0); (0, 0); (10, 10); (0, 10)]%Z
     = Step0.order_points (square 0 0 10).
Proof.
  assert (Hp : Permutation (square 0 0 10) [(10, 0); (0, 0); (10, 10); (0, 10)]%Z)
    by apply perm_swap.
  split.
  - split; [exact Hp|]. split; [reflexivity|].
    split; [exact square_in_frame | exact square_no_ties].
  - exact (Step0Facts.order_points_permutation _ _ Hp eq_refl
             square_in_frame square_no_ties).
Defined.

(** *** Locating and rectifying (C4, C7) *)

(** C4, counterexample.  Two squares of area 100, both with a four-vertex
    approximation, tie for the largest area: the first is kept and the
    script goes on to rectification. *)
Lemma tie_keeps_first_contour :
  let first := square 0 0 10 in
  let second := square 20 20 10 in
  Step0.four_sided (cv := ref_cv) first
  /\ Step0.four_sided (cv := ref_cv) second
  /\ contourArea (OpenCV := ref_cv) first = contourArea (OpenCV := ref_cv) second
  /\ Step0.board_contour (cv := ref_cv) [first; second] = Some first
  /\ Step0.from_contours (cv := ref_cv) (uniform 8 xc8) [first; second]
     <> Step0.BoardNotFound (cv := ref_cv).
Proof.
  cbv zeta. split; [reflexivity|]. split; [reflexivity|].
  split; [reflexivity|]. split; [reflexivity|].
  vm_compute. discriminate.
Qed.

(** C7, counterexample.  The diamond is located as the board; its ordered
    corners repeat the top corner, so three of them are on one line; the
    script saves a warped image all the same. *)
Lemma degenerate_corners_are_warped :
  Step0.board_contour (cv := ref_cv) [diamond] = Some diamond
  /\ Step0.degenerate (Step0.order_points diamond) = true
  /\ exists warped grid,
       Step0.from_contours (cv := ref_cv) (uniform 8 xc8) [diamond]
       = Step0.Saved (cv := ref_cv) warped grid.
Proof.
  split; [reflexivity|]. split; [reflexivity|].
  do 2 eexists. vm_compute. reflexivity.
Qed.

Lemma rectifier_always_saves_witness :
  (exists c, In c [diamond] /\ Step0.four_sided (cv := ref_cv) c
             /\ (0 < contourArea (OpenCV := ref_cv) c)%Q)
  /\ exists c,
       Step0.first_largest (cv := ref_cv) [diamond] c
       /\ let warped :=
            warpPerspective (OpenCV := ref_cv) (uniform 8 xc8)
              (getPerspectiveTransform (OpenCV := ref_cv)
                 (Step0.order_points (Step0.approx_of (cv := ref_cv) c)) Step0.dst)
              (Step0.BOARD_SIZE, Step0.BOARD_SIZE) in
          Step0.from_contours (cv := ref_cv) (uniform 8 xc8) [diamond]
          = Step0.Saved (cv := ref_cv) warped (Step0.draw_grid (cv := ref_cv) warped).
Proof.
  assert (H : exists c, In c [diamond] /\ Step0.four_sided (cv := ref_cv) c
                        /\ (0 < contourArea (OpenCV := ref_cv) c)%Q).
  { exists diamond. split; [left; reflexivity|]. split; reflexivity. }
  split; [exact H|].
  exact (Step0Facts.rectifier_always_saves (cv := ref_cv) (uniform 8 xc8) [diamond] H).
Defined.

End Examples.

(** * Part III: further properties of the scripts *)

Module LoopFacts.
Import Cv Step3 NpFacts Step3Facts.

Section Classifier.
Context `{cv : OpenCV}.

(** *** When the analysis stops with an exception *)

Lemma is_cell_empty_none_iff cell cell_color :
  is_cell_empty cell cell_color = None
  <-> Np.pixels (GaussianBlur (cvtColor_BGR2GRAY cell) (5, 5) 0%Z) = [].
Proof.
  unfold is_cell_empty, Np.amin, Np.amax.
  destruct (Np.pixels (GaussianBlur (cvtColor_BGR2GRAY cell) (5, 5) 0%Z));
    split; intros H; try reflexivity; discriminate H.
Qed.

Lemma classify_none_iff file :
  classify file = None
  <-> file = Undecodable
      \/ exists cell, file = Decoded cell
                      /\ is_cell_empty cell (get_cell_color cell) = None.
Proof.
  destruct file as [| |cell]; simpl.
  - split; [discriminate | intros [H|(c & H & _)]; discriminate H].
  - split; auto.
  - destruct (is_cell_empty cell (get_cell_color cell)) as [[|]|] eqn:E.
    + split; [discriminate|]. intros [H|(c & H & H')]; [discriminate H|].
      inversion H; subst. congruence.
    + split.
      * destruct (String.eqb _ "w"); [discriminate|].
        destruct (String.eqb _ "b"); discriminate.
      * intros [H|(c & H & H')]; [discriminate H|].
        inversion H; subst. congruence.
    + split; auto. intros _. right. now exists cell.
Qed.

Lemma for_each_body_none files cells : forall st,
  for_each (body files) cells st = None
  <-> exists rc, In rc cells /\ classify (files (fst rc) (snd rc)) = None.
Proof.
  induction cells as [|rc cells IH]; intros st; simpl.
  - split; [discriminate | intros (rc & [] & _)].
  - unfold body at 1. rewrite analyse_cell_classify.
    destruct (classify (files (fst rc) (snd rc))) as [lv|] eqn:E; simpl.
    + rewrite IH. split.
      * intros (rc' & Hin & Hn). exists rc'. auto.
      * intros (rc' & [<-|Hin] & Hn); [congruence|]. exists rc'. auto.
    + split; auto. intros _. exists rc. auto.
Qed.

(** X1.  The analysis loop stops with an exception exactly when one of the
    64 cell files exists but cannot be decoded, or decodes to an image whose
    blurred version has no pixel.  A missing file never stops it. *)
Theorem analyse_fails_iff files :
  analyse files = None
  <-> exists row col,
        row < 8 /\ col < 8
        /\ (files row col = Undecodable
            \/ exists cell,
                 files row col = Decoded cell
                 /\ Np.pixels (GaussianBlur (cvtColor_BGR2GRAY cell) (5, 5) 0%Z) = []).
Proof.
  rewrite analyse_flat, for_each_body_none. split.
  - intros ([r c] & Hin & Hn). apply In_squares in Hin as [Hr Hc].
    exists r, c. split; [exact Hr|]. split; [exact Hc|].
    apply classify_none_iff in Hn as [H|(cell & H & He)]; [now left|].
    right. exists cell. split; [exact H|]. now apply is_cell_empty_none_iff in He.
  - intros (r & c & Hr & Hc & H). exists (r, c). split; [now apply In_squares|].
    apply classify_none_iff. destruct H as [H|(cell & H & He)]; [now left|].
    right. exists cell. split; [exact H|]. now apply is_cell_empty_none_iff.
Qed.

(** *** Every cell on its own *)

(** X2.  The label of a square depends on the file of that square only: two
    runs over file sets that agree on one square label it alike. *)
Theorem label_depends_on_own_file files1 files2 st1 st2 row col :
  analyse files1 = Some st1 -> analyse files2 = Some st2 ->
  row < 8 -> col < 8 ->
  files1 row col = files2 row col ->
  Fen.board_at (board st1) row col = Fen.board_at (board st2) row col.
Proof.
  intros H1 H2 Hr Hc Hsame.
  destruct (analyse_done files1 st1 H1) as (_ & In1 & _).
  destruct (analyse_done files2 st2 H2) as (_ & In2 & _).
  destruct (In1 row col Hr Hc) as (v1 & E1).
  destruct (In2 row col Hr Hc) as (v2 & E2).
  rewrite Hsame, E2 in E1. now inversion E1.
Qed.

(** X3.  A missing cell file is labelled ['?'] on the grid. *)
Theorem missing_file_is_unknown files st row col :
  analyse files = Some st -> row < 8 -> col < 8 ->
  files row col = Missing ->
  Fen.board_at (board st) row col = "?".
Proof.
  intros Hrun Hr Hc Hm.
  destruct (analyse_done files st Hrun) as (_ & Hin & _).
  destruct (Hin row col Hr Hc) as (v & E).
  rewrite Hm in E. simpl in E. now inversion E.
Qed.

(** *** What the grid can contain *)

Lemma label_fits_loop_label lv :
  label_fits lv -> In (fst lv) Summary.loop_labels.
Proof.
  destruct lv as [l v]. unfold label_fits, Summary.loop_labels. simpl.
  destruct v; intros H; try (subst; simpl; tauto);
    repeat (destruct H as [H|H]; [subst; simpl; tauto|]); contradiction.
Qed.

(** X4.  A grid the loop produces is 8x8 and holds only ['.'], ['?'] and
    the letters of rook, queen, knight, bishop and pawn in either case: a
    king is never written. *)
Theorem grid_has_no_king files st :
  analyse files = Some st ->
  Fen.is_8x8 (board st)
  /\ Forall (Forall (fun l => In l Summary.loop_labels)) (board st)
  /\ ~ In "K" (Fen.labels (board st))
  /\ ~ In "k" (Fen.labels (board st)).
Proof.
  intros Hrun. destruct (analyse_done files st Hrun) as (H8 & Hin & _).
  assert (Hall : Forall (Forall (fun l => In l Summary.loop_labels)) (board st)).
  { rewrite (board_table _ H8).
    apply Forall_map, Forall_forall. intros r Hr. apply in_seq in Hr.
    apply Forall_map, Forall_forall. intros c Hc. apply in_seq in Hc.
    destruct (Hin r c) as (v & Hv); try lia.
    exact (label_fits_loop_label _ (classify_label_fits _ _ Hv)). }
  split; [exact H8|]. split; [exact Hall|].
  assert (Hlab : forall l, In l (Fen.labels (board st)) -> In l Summary.loop_labels).
  { intros l Hl. unfold Fen.labels in Hl. apply in_concat in Hl as (r & Hr & Hl).
    rewrite Forall_forall in Hall. specialize (Hall r Hr).
    rewrite Forall_forall in Hall. now apply Hall. }
  split; intros H; apply Hlab in H; simpl in H;
    repeat (destruct H as [H|H]; [discriminate H|]); exact H.
Qed.

(** *** The colour counters *)

Lemma label_fits_white lv :
  label_fits lv ->
  Fen.mem_string (fst lv) Summary.white_letters = verdict_eqb IsWhite (snd lv).
Proof.
  destruct lv as [l v]. unfold label_fits. simpl.
  destruct v; simpl; intros H; try (subst; reflexivity);
    repeat (destruct H as [H|H]; [subst; reflexivity|]); contradiction.
Qed.

Lemma label_fits_black lv :
  label_fits lv ->
  Fen.mem_string (fst lv) Summary.black_letters = verdict_eqb IsBlack (snd lv).
Proof.
  destruct lv as [l v]. unfold label_fits. simpl.
  destruct v; simpl; intros H; try (subst; reflexivity);
    repeat (destruct H as [H|H]; [subst; reflexivity|]); contradiction.
Qed.

Lemma count_in_squares set b :
  Fen.is_8x8 b ->
  Summary.count_in set b
  = List.length
      (filter (fun rc => Fen.mem_string (Fen.board_at b (fst rc) (snd rc)) set)
              Fen.squares).
Proof.
  intros H. unfold Summary.count_in.
  now rewrite (labels_squares b H), filter_map_swap, length_map.
Qed.

Lemma tally_colour_counts files st :
  analyse files = Some st ->
  tally files IsWhite Fen.squares = Summary.count_in Summary.white_letters (board st)
  /\ tally files IsBlack Fen.squares = Summary.count_in Summary.black_letters (board st).
Proof.
  intros Hrun. destruct (analyse_done files st Hrun) as (H8 & Hin & _).
  rewrite !(count_in_squares _ _ H8). unfold tally.
  split; f_equal; apply filter_ext_in; intros [r c] Hrc;
    apply In_squares in Hrc as [Hr Hc];
    destruct (Hin r c Hr Hc) as (v & Hv);
    unfold has_verdict; simpl; rewrite Hv;
    apply classify_label_fits in Hv; symmetry.
  - exact (label_fits_white _ Hv).
  - exact (label_fits_black _ Hv).
Qed.

(** X5.  The white counter is the number of upper-case piece letters on
    the grid and the black counter the number of lower-case ones. *)
Theorem colour_counters files st :
  analyse files = Some st ->
  white_count st = Summary.count_in Summary.white_letters (board st)
  /\ black_count st = Summary.count_in Summary.black_letters (board st).
Proof.
  intros Hrun. destruct (analyse_done files st Hrun) as (_ & _ & _ & Hw & Hb).
  destruct (tally_colour_counts files st Hrun) as [Tw Tb].
  split; congruence.
Qed.

End Classifier.

End LoopFacts.

Module ClassifierFacts.
Import Cv Step3 NpFacts Step3Facts.

Lemma lt_mono (x : Np.float64) (c c' : Q) :
  (c <= c')%Q -> Np.lt x c = true -> Np.lt x c' = true.
Proof.
  destruct x as [q| | |]; simpl; auto.
  rewrite !Qltb_lt. intros. eapply Qlt_le_trans; eassumption.
Qed.

Lemma pixels_nil m : Np.rows m * Np.cols m = 0 -> Np.pixels m = [].
Proof.
  intros H. apply length_zero_iff_nil. now rewrite length_pixels.
Qed.

Lemma count_none test m :
  (forall v, In v (Np.pixels m) -> test v = false) -> Np.count test m = 0%Z.
Proof.
  intros H. unfold Np.count.
  replace (filter test (Np.pixels m)) with (@nil Z); [reflexivity|].
  symmetry. induction (Np.pixels m) as [|v l IH]; simpl; [reflexivity|].
  rewrite (H v (or_introl eq_refl)). apply IH. intros w Hw. apply H. now right.
Qed.

Lemma zero_ratio_small t :
  t <> 0%Z -> Np.lt (Np.true_divide 0 t) 0.15 = true.
Proof.
  intros Ht. unfold Np.true_divide.
  destruct (Z.eqb_spec t 0); [contradiction|]. simpl.
  apply Qltb_lt. unfold Qdiv. rewrite Qmult_0_l. reflexivity.
Qed.

Section Classifier.
Context `{cv : OpenCV}.

(** *** Occupancy *)

(** X6.  Two grey levels of the blurred cell that are 100 or more apart
    make the cell occupied, whatever the background shade and however few
    contrast pixels there are. *)
Theorem wide_spread_is_occupied cell cell_color p q :
  In p (Np.pixels (GaussianBlur (cvtColor_BGR2GRAY cell) (5, 5) 0%Z)) ->
  In q (Np.pixels (GaussianBlur (cvtColor_BGR2GRAY cell) (5, 5) 0%Z)) ->
  (100 <= q - p)%Z ->
  is_cell_empty cell cell_color = Some false.
Proof.
  intros Hp Hq Hpq. unfold is_cell_empty.
  set (blurred := GaussianBlur (cvtColor_BGR2GRAY cell) (5, 5) 0%Z) in *.
  assert (Hne : Np.pixels blurred <> []) by (intros E; rewrite E in Hp; exact Hp).
  destruct (amin_some blurred Hne) as (lo & -> & Hlo & Hmin).
  destruct (amax_some blurred Hne) as (hi & -> & Hhi & Hmax).
  rewrite (uint8_sub_exact blurred lo hi Hlo Hhi (Hmin hi Hhi)).
  specialize (Hmin p Hp). specialize (Hmax q Hq).
  destruct (Z.ltb_spec (hi - lo) 100); [lia|]. now rewrite andb_false_r.
Qed.

(** X7.  A non-empty cell whose blurred grey levels all lie between 80 and
    180 and differ by less than 100 is empty, on a light and on a dark
    background alike. *)
Theorem flat_cell_is_empty cell cell_color :
  Np.pixels (cvtColor_BGR2GRAY cell) <> [] ->
  Np.pixels (GaussianBlur (cvtColor_BGR2GRAY cell) (5, 5) 0%Z) <> [] ->
  (forall v, In v (Np.pixels (GaussianBlur (cvtColor_BGR2GRAY cell) (5, 5) 0%Z)) ->
             (80 <= v <= 180)%Z) ->
  (forall p q, In p (Np.pixels (GaussianBlur (cvtColor_BGR2GRAY cell) (5, 5) 0%Z)) ->
               In q (Np.pixels (GaussianBlur (cvtColor_BGR2GRAY cell) (5, 5) 0%Z)) ->
               (q - p < 100)%Z) ->
  is_cell_empty cell cell_color = Some true.
Proof.
  intros Hgray Hblur Hband Hspread. unfold is_cell_empty.
  set (gray := cvtColor_BGR2GRAY cell) in *.
  set (blurred := GaussianBlur gray (5, 5) 0%Z) in *.
  destruct (amin_some blurred Hblur) as (lo & -> & Hlo & Hmin).
  destruct (amax_some blurred Hblur) as (hi & -> & Hhi & Hmax).
  rewrite (uint8_sub_exact blurred lo hi Hlo Hhi (Hmin hi Hhi)).
  assert (Hc : (if String.eqb cell_color "light"
                then Np.count (fun v => (v <? 80)%Z) blurred
                else Np.count (fun v => (180 <? v)%Z) blurred) = 0%Z).
  { destruct (String.eqb cell_color "light"); apply count_none; intros v Hv;
      specialize (Hband v Hv); [apply Z.ltb_ge | apply Z.ltb_ge]; lia. }
  rewrite Hc, total_pixels_length, zero_ratio_small.
  - specialize (Hspread lo hi Hlo Hhi).
    destruct (Z.ltb_spec (hi - lo) 100); [reflexivity | lia].
  - destruct (Np.pixels gray); [congruence | simpl; lia].
Qed.

(** *** Piece colour *)

(** X8.  On a cell image with at most one row or at most one column the
    central region is empty, its mean is not a number, and the colour test
    answers ['?'] on either background. *)
Theorem tiny_cell_has_unknown_colour cell cell_color :
  Np.rows (cvtColor_BGR2GRAY cell) <= 1 \/ Np.cols (cvtColor_BGR2GRAY cell) <= 1 ->
  get_piece_color cell cell_color = "?".
Proof.
  intros H. unfold get_piece_color.
  set (gray := cvtColor_BGR2GRAY cell) in *.
  assert (E : Np.pixels (Np.slice gray (Np.rows gray / 4) (3 * Np.rows gray / 4)
                           (Np.cols gray / 4) (3 * Np.cols gray / 4)) = []).
  { apply pixels_nil. simpl.
    destruct H as [H|H].
    - assert (Hh : Np.rows gray = 0 \/ Np.rows gray = 1) by lia.
      destruct Hh as [-> | ->]; reflexivity.
    - assert (Hw : Np.cols gray = 0 \/ Np.cols gray = 1) by lia.
      destruct Hw as [-> | ->]; simpl; lia. }
  unfold Np.mean. rewrite E. simpl.
  destruct (String.eqb cell_color "light"); reflexivity.
Qed.

(** X9.  The white threshold is higher on a dark cell and the black
    threshold lower on a light cell: a cell image read as white against a
    dark background is read as white against a light one, and one read as
    black against a light background is read as black against a dark
    one. *)
Theorem colour_thresholds_nest cell :
  (get_piece_color cell "dark" = "w" -> get_piece_color cell "light" = "w")
  /\ (get_piece_color cell "light" = "b" -> get_piece_color cell "dark" = "b").
Proof.
  unfold get_piece_color.
  set (avg := Np.mean _). simpl String.eqb. cbv iota.
  split.
  - destruct (Np.gt avg 180) eqn:E180.
    + intros _. now rewrite (gt_mono avg 160%Q 180%Q ltac:(easy) E180).
    + destruct (Np.lt avg 140); discriminate.
  - destruct (Np.gt avg 160) eqn:E160; [discriminate|].
    destruct (Np.lt avg 100) eqn:E100; [|discriminate]. intros _.
    destruct (Np.gt avg 180) eqn:E180.
    + rewrite (gt_mono avg 160%Q 180%Q ltac:(easy) E180) in E160. discriminate.
    + now rewrite (lt_mono avg 100%Q 140%Q ltac:(easy) E100).
Qed.

End Classifier.

End ClassifierFacts.

Module SummaryFacts.
Import PyStr Fen Summary FenFacts.

(** *** Strings as lists of characters *)

Lemma chars_app a b :
  list_ascii_of_string (a ++ b)%string
  = list_ascii_of_string a ++ list_ascii_of_string b.
Proof. induction a as [|c a IH]; simpl; [reflexivity | now rewrite IH]. Qed.

Lemma char_count_app c a b :
  char_count c (a ++ b)%string = char_count c a + char_count c b.
Proof. induction a as [|d a IH]; simpl; [reflexivity | rewrite IH; lia]. Qed.

Lemma char_count_digit c d :
  is_digit c = false -> is_digit d = true ->
  char_count c (String d EmptyString) = 0.
Proof.
  intros Hc Hd. simpl. destruct (Ascii.eqb_spec c d) as [->|]; [congruence | reflexivity].
Qed.

Lemma count_cells_cons x p cells :
  count_cells x (p :: cells)
  = (if String.eqb x p then 1 else 0) + count_cells x cells.
Proof. unfold count_cells. simpl. destruct (String.eqb x p); reflexivity. Qed.

Lemma eqb_single c d :
  String.eqb (String c EmptyString) (String d EmptyString) = Ascii.eqb c d.
Proof. simpl. destruct (Ascii.eqb c d); reflexivity. Qed.

(** *** Letters of one rank *)

Lemma fen_fold_char c cells : forall s e,
  Forall cell_ok cells -> e + List.length cells <= 9 ->
  is_digit c = false -> Ascii.eqb c "." = false ->
  let st := fold_left fen_col_step cells (s, e) in
  char_count c (fst st)
  = char_count c s + count_cells (String c EmptyString) cells
  /\ snd st <= e + List.length cells.
Proof.
  induction cells as [|p cells IH]; intros s e Hall Hlen Hc Hdot; simpl in *.
  - unfold count_cells. simpl. split; lia.
  - inversion Hall as [|? ? Hp Hrest]; subst. rewrite count_cells_cons.
    destruct Hp as [-> | Htok].
    + rewrite (eqb_single c), Hdot. simpl String.eqb. cbv iota.
      destruct (IH s (e + 1) Hrest ltac:(lia) Hc Hdot) as [E L].
      split; [rewrite E|]; lia.
    + rewrite (token_not_dot _ Htok).
      destruct (is_token_inv p Htok) as (d & -> & Hd & _).
      rewrite eqb_single.
      destruct (Nat.ltb_spec 0 e) as [He|He].
      * destruct (str_digit e ltac:(lia)) as (k & Hstr & Hk & _).
        destruct (IH ((s ++ str e) ++ String d EmptyString)%string 0 Hrest
                    ltac:(lia) Hc Hdot) as [E L].
        split; [|lia]. rewrite E, !char_count_app, Hstr.
        rewrite (char_count_digit c k Hc Hk). simpl. lia.
      * destruct (IH (s ++ String d EmptyString)%string e Hrest
                    ltac:(lia) Hc Hdot) as [E L].
        split; [|lia]. rewrite E, char_count_app. simpl. lia.
Qed.

Lemma encode_rank_char c cells :
  Forall cell_ok cells -> List.length cells <= 9 ->
  is_digit c = false -> Ascii.eqb c "." = false ->
  char_count c (encode_rank cells) = count_cells (String c EmptyString) cells.
Proof.
  intros Hall Hlen Hc Hdot. unfold encode_rank.
  destruct (fen_fold_char c cells "" 0 Hall ltac:(lia) Hc Hdot) as [E L].
  destruct (fold_left fen_col_step cells ("", 0)) as [s e]; simpl in *.
  destruct (Nat.ltb_spec 0 e) as [He|He]; [|exact E].
  destruct (str_digit e ltac:(lia)) as (k & Hstr & Hk & _).
  rewrite char_count_app, Hstr, (char_count_digit c k Hc Hk). lia.
Qed.

(** *** Digits of one rank *)

Lemma digit_sum_token p : is_token p = true -> digit_sum p = 0.
Proof.
  intros H. destruct (is_token_inv p H) as (d & -> & Hd & _).
  simpl. now rewrite Hd.
Qed.

Lemma fen_fold_digits cells : forall s e,
  Forall cell_ok cells -> e + List.length cells <= 9 ->
  let st := fold_left fen_col_step cells (s, e) in
  digit_sum (fst st) + snd st = digit_sum s + e + count_cells "." cells
  /\ snd st <= e + List.length cells.
Proof.
  induction cells as [|p cells IH]; intros s e Hall Hlen; simpl in *.
  - unfold count_cells. simpl. split; lia.
  - inversion Hall as [|? ? Hp Hrest]; subst. rewrite count_cells_cons.
    destruct Hp as [-> | Htok].
    + simpl String.eqb. cbv iota.
      destruct (IH s (e + 1) Hrest ltac:(lia)) as [E L]. split; lia.
    + rewrite (token_not_dot _ Htok).
      assert (Hnd : String.eqb "." p = false)
        by (rewrite String.eqb_sym; exact (token_not_dot _ Htok)).
      rewrite Hnd.
      destruct (Nat.ltb_spec 0 e) as [He|He].
      * destruct (str_digit e ltac:(lia)) as (k & Hstr & Hk & Hv).
        destruct (IH ((s ++ str e) ++ p)%string 0 Hrest ltac:(lia)) as [E L].
        split; [|lia]. rewrite E, !digit_sum_app, (digit_sum_token _ Htok), Hstr.
        simpl. rewrite Hk, Hv. lia.
      * destruct (IH (s ++ p)%string e Hrest ltac:(lia)) as [E L].
        split; [|lia]. rewrite E, digit_sum_app, (digit_sum_token _ Htok). lia.
Qed.

Lemma encode_rank_digits cells :
  Forall cell_ok cells -> List.length cells <= 9 ->
  digit_sum (encode_rank cells) = count_cells "." cells.
Proof.
  intros Hall Hlen. unfold encode_rank.
  destruct (fen_fold_digits cells "" 0 Hall ltac:(lia)) as [E L].
  destruct (fold_left fen_col_step cells ("", 0)) as [s e]; simpl in *.
  destruct (Nat.ltb_spec 0 e) as [He|He]; [|lia].
  destruct (str_digit e ltac:(lia)) as (k & Hstr & Hk & Hv).
  rewrite digit_sum_app, Hstr. simpl. rewrite Hk, Hv. lia.
Qed.

(** *** From the ranks to the whole string *)

Lemma count_label_cons x r rows :
  count_label x (r :: rows) = count_cells x r + count_label x rows.
Proof.
  unfold count_label, labels, count_cells. simpl.
  now rewrite filter_app, length_app.
Qed.

Lemma join_cons2 r r' rows :
  join "/" (r :: r' :: rows) = (r ++ String "/" (join "/" (r' :: rows)))%string.
Proof. reflexivity. Qed.

Lemma join_char c (rows : list (list string)) :
  Forall (Forall cell_ok) rows -> Forall (fun r => List.length r <= 9) rows ->
  is_digit c = false -> Ascii.eqb c "." = false -> Ascii.eqb c "/" = false ->
  char_count c (join "/" (map encode_rank rows))
  = count_label (String c EmptyString) rows.
Proof.
  intros Hok Hlen Hc Hdot Hslash.
  induction rows as [|r rows IH]; [reflexivity|].
  inversion Hok; inversion Hlen; subst. rewrite count_label_cons.
  destruct rows as [|r' rows].
  - simpl. rewrite encode_rank_char by assumption.
    unfold count_label. simpl. lia.
  - change (map encode_rank (r :: r' :: rows))
      with (encode_rank r :: encode_rank r' :: map encode_rank rows).
    rewrite join_cons2, char_count_app. simpl char_count at 2.
    rewrite Hslash, encode_rank_char by assumption.
    rewrite <- IH by assumption. reflexivity.
Qed.

Lemma join_digits (rows : list (list string)) :
  Forall (Forall cell_ok) rows -> Forall (fun r => List.length r <= 9) rows ->
  digit_sum (join "/" (map encode_rank rows)) = count_label "." rows.
Proof.
  intros Hok Hlen.
  induction rows as [|r rows IH]; [reflexivity|].
  inversion Hok; inversion Hlen; subst. rewrite count_label_cons.
  destruct rows as [|r' rows].
  - simpl. rewrite encode_rank_digits by assumption.
    unfold count_label. simpl. lia.
  - change (map encode_rank (r :: r' :: rows))
      with (encode_rank r :: encode_rank r' :: map encode_rank rows).
    rewrite join_cons2, digit_sum_app. simpl digit_sum at 2.
    rewrite encode_rank_digits by assumption.
    rewrite <- IH by assumption. reflexivity.
Qed.

Lemma join_slashes (rows : list string) :
  Forall (fun r => no_slash r = true) rows ->
  char_count "/" (join "/" rows) = List.length rows - 1.
Proof.
  assert (H0 : forall r, no_slash r = true -> char_count "/" r = 0).
  { induction r as [|d r IH]; [reflexivity|]. cbn [no_slash char_count]. intros H.
    apply andb_prop in H as [Hd Hr]. apply negb_true_iff in Hd.
    rewrite Ascii.eqb_sym, Hd. now apply IH. }
  induction rows as [|r rows IH]; intros H; [reflexivity|].
  inversion H; subst. destruct rows as [|r' rows].
  - simpl. rewrite H0 by assumption. reflexivity.
  - rewrite join_cons2, char_count_app. cbn [char_count].
    rewrite Ascii.eqb_refl, H0, IH by assumption. cbn [List.length]. lia.
Qed.

Lemma grid_rows_ok board :
  is_8x8 board -> Forall (Forall (fun p => grid_label p = true)) board ->
  Forall (Forall cell_ok) board /\ Forall (fun r => List.length r <= 9) board.
Proof.
  intros [_ Hrows] Hgrid. split.
  - eapply Forall_impl; [|exact Hgrid]. intros r Hr.
    eapply Forall_impl; [|exact Hr]. intros p Hp. now apply grid_label_cell_ok.
  - eapply Forall_impl; [|exact Hrows]. intros r Hr. simpl in Hr. lia.
Qed.

(** X10.  The position string carries the same summary as the grid: its
    digits add up to the number of empty cells, every other symbol occurs as
    often as it does on the grid, and there are 7 rank separators. *)
Theorem string_matches_grid board :
  is_8x8 board -> Forall (Forall (fun p => grid_label p = true)) board ->
  digit_sum (fen_position board) = count_label "." board
  /\ (forall c, is_digit c = false -> c <> "."%char -> c <> "/"%char ->
        char_count c (fen_position board) = count_label (String c EmptyString) board)
  /\ char_count "/" (fen_position board) = 7.
Proof.
  intros H8 Hgrid. destruct (grid_rows_ok board H8 Hgrid) as [Hok Hlen].
  unfold fen_position. rewrite (fen_rows_cells _ H8).
  split; [now apply join_digits|]. split.
  - intros c Hc Hdot Hslash. apply join_char; auto.
    + destruct (Ascii.eqb_spec c "."); [contradiction | reflexivity].
    + destruct (Ascii.eqb_spec c "/"); [contradiction | reflexivity].
  - rewrite join_slashes.
    + rewrite length_map. destruct H8 as [-> _]. reflexivity.
    + apply Forall_map. rewrite Forall_forall in *. intros r Hr.
      apply encode_rank_no_slash; auto.
Qed.

(** X11.  Two different 8x8 grids of ['.'], piece letters and ['?'] never
    have the same position string. *)
Theorem fen_position_injective board1 board2 :
  is_8x8 board1 -> Forall (Forall (fun p => grid_label p = true)) board1 ->
  is_8x8 board2 -> Forall (Forall (fun p => grid_label p = true)) board2 ->
  board1 <> board2 ->
  fen_position board1 <> fen_position board2.
Proof.
  intros H1 G1 H2 G2 Hne E. apply Hne.
  rewrite <- (parse_fen_position board1 H1 (proj1 (grid_rows_ok _ H1 G1))).
  rewrite <- (parse_fen_position board2 H2 (proj1 (grid_rows_ok _ H2 G2))).
  now rewrite E.
Qed.

End SummaryFacts.

Module RecogniseFacts.
Import PyStr Fen Summary FenFacts SummaryFacts.

(** *** The alphabet of the position string *)

Lemma str_rank_digit e :
  1 <= e <= 8 ->
  exists d, str e = String d EmptyString /\ rank_digit d = true.
Proof.
  intros H.
  do 9 (destruct e as [|e]; [try lia; eexists; split; reflexivity|]).
  lia.
Qed.

Lemma fen_fold_chars (P : ascii -> Prop) cells : forall s e,
  Forall cell_ok cells -> e + List.length cells <= 8 ->
  (forall d, rank_digit d = true -> P d) ->
  (forall d, In (String d EmptyString) cells -> d <> "."%char -> P d) ->
  (forall c, In c (list_ascii_of_string s) -> P c) ->
  let st := fold_left fen_col_step cells (s, e) in
  (forall c, In c (list_ascii_of_string (fst st)) -> P c)
  /\ snd st <= e + List.length cells.
Proof.
  induction cells as [|p cells IH]; intros s e Hall Hlen Hdig Hcell Hs; simpl in *.
  - split; [exact Hs | lia].
  - inversion Hall as [|? ? Hp Hrest]; subst.
    destruct Hp as [-> | Htok].
    + simpl String.eqb. cbv iota.
      destruct (IH s (e + 1) Hrest ltac:(lia) Hdig) as [E L]; auto.
      split; [exact E | lia].
    + rewrite (token_not_dot _ Htok).
      destruct (is_token_inv p Htok) as (d & -> & Hd & _ & Hdot).
      assert (Pd : P d).
      { apply Hcell; [now left|]. intros ->. discriminate Hdot. }
      destruct (Nat.ltb_spec 0 e) as [He|He].
      * destruct (str_rank_digit e ltac:(lia)) as (k & Hstr & Hk).
        destruct (IH ((s ++ str e) ++ String d EmptyString)%string 0 Hrest
                    ltac:(lia) Hdig) as [E L]; auto.
        { intros c Hc. rewrite !chars_app, Hstr in Hc. simpl in Hc.
          apply in_app_or in Hc as [Hc|[<-|[]]]; [|exact Pd].
          apply in_app_or in Hc as [Hc|[<-|[]]]; auto. }
        split; [exact E | lia].
      * destruct (IH (s ++ String d EmptyString)%string e Hrest
                    ltac:(lia) Hdig) as [E L]; auto.
        { intros c Hc. rewrite chars_app in Hc. simpl in Hc.
          apply in_app_or in Hc as [Hc|[<-|[]]]; auto. }
        split; [exact E | lia].
Qed.

Lemma encode_rank_chars cells c :
  Forall cell_ok cells -> List.length cells <= 8 ->
  In c (list_ascii_of_string (encode_rank cells)) ->
  rank_digit c = true \/ (In (String c EmptyString) cells /\ c <> "."%char).
Proof.
  intros Hall Hlen. unfold encode_rank.
  destruct (fen_fold_chars
              (fun c => rank_digit c = true
                        \/ (In (String c EmptyString) cells /\ c <> "."%char))
              cells "" 0 Hall ltac:(lia)) as [E L]; auto.
  destruct (fold_left fen_col_step cells ("", 0)) as [s e]; simpl in *.
  destruct (Nat.ltb_spec 0 e) as [He|He]; [|apply E].
  destruct (str_rank_digit e ltac:(lia)) as (k & Hstr & Hk).
  rewrite chars_app, Hstr. simpl. intros Hc.
  apply in_app_or in Hc as [Hc|[<-|[]]]; auto.
Qed.

Lemma join_chars (rows : list string) c :
  In c (list_ascii_of_string (join "/" rows)) ->
  c = "/"%char \/ exists r, In r rows /\ In c (list_ascii_of_string r).
Proof.
  induction rows as [|r rows IH]; [intros []|].
  destruct rows as [|r' rows].
  - simpl. intros H. right. exists r. auto.
  - rewrite join_cons2, chars_app.
    change (list_ascii_of_string (String "/" ?x))
      with ("/"%char :: list_ascii_of_string x).
    intros H. apply in_app_or in H as [H|[<-|H]].
    + right. exists r. split; [now left | exact H].
    + now left.
    + destruct (IH H) as [->|(r0 & Hr0 & Hc)]; [now left|].
      right. exists r0. split; [now right | exact Hc].
Qed.

(** X12.  Every character of the position string is the rank separator, a
    digit from 1 to 8, or the character of a label of the grid other than
    ['.']: the string never contains ['0'], ['9'] or ['.']. *)
Theorem fen_alphabet board c :
  is_8x8 board -> Forall (Forall (fun p => grid_label p = true)) board ->
  In c (list_ascii_of_string (fen_position board)) ->
  c = "/"%char
  \/ rank_digit c = true
  \/ (In (String c EmptyString) (labels board) /\ c <> "."%char).
Proof.
  intros H8 Hgrid Hc. destruct (grid_rows_ok board H8 Hgrid) as [Hok _].
  unfold fen_position in Hc. rewrite (fen_rows_cells _ H8) in Hc.
  apply join_chars in Hc as [->|(r & Hr & Hc)]; [now left|]. right.
  apply in_map_iff in Hr as (cells & <- & Hcells).
  destruct H8 as [_ Hrows]. rewrite Forall_forall in Hok, Hrows.
  apply encode_rank_chars in Hc; [|now apply Hok|rewrite (Hrows _ Hcells); lia].
  destruct Hc as [Hc|[Hin Hd]]; [now left|]. right. split; [|exact Hd].
  unfold labels. apply in_concat. exists cells. auto.
Qed.

(** *** The string against the counters *)

Lemma count_in_white_sum board :
  count_in white_letters board
  = count_label "K" board + count_label "Q" board + count_label "R" board
    + count_label "B" board + count_label "N" board + count_label "P" board.
Proof.
  unfold count_in, count_label. induction (labels board) as [|p l IH]; [reflexivity|].
  cbn [filter]. unfold mem_string, white_letters. cbn [existsb].
  rewrite !(String.eqb_sym p).
  destruct (String.eqb_spec "K" p) as [<-|]; [simpl in *; lia|].
  destruct (String.eqb_spec "Q" p) as [<-|]; [simpl in *; lia|].
  destruct (String.eqb_spec "R" p) as [<-|]; [simpl in *; lia|].
  destruct (String.eqb_spec "B" p) as [<-|]; [simpl in *; lia|].
  destruct (String.eqb_spec "N" p) as [<-|]; [simpl in *; lia|].
  destruct (String.eqb_spec "P" p) as [<-|]; [simpl in *; lia|].
  simpl in *. lia.
Qed.

Lemma count_in_black_sum board :
  count_in black_letters board
  = count_label "k" board + count_label "q" board + count_label "r" board
    + count_label "b" board + count_label "n" board + count_label "p" board.
Proof.
  unfold count_in, count_label. induction (labels board) as [|p l IH]; [reflexivity|].
  cbn [filter]. unfold mem_string, black_letters. cbn [existsb].
  rewrite !(String.eqb_sym p).
  destruct (String.eqb_spec "k" p) as [<-|]; [simpl in *; lia|].
  destruct (String.eqb_spec "q" p) as [<-|]; [simpl in *; lia|].
  destruct (String.eqb_spec "r" p) as [<-|]; [simpl in *; lia|].
  destruct (String.eqb_spec "b" p) as [<-|]; [simpl in *; lia|].
  destruct (String.eqb_spec "n" p) as [<-|]; [simpl in *; lia|].
  destruct (String.eqb_spec "p" p) as [<-|]; [simpl in *; lia|].
  simpl in *. lia.
Qed.

Section Classifier.
Import Cv Step3 Step3Facts LoopFacts.
Context `{cv : OpenCV}.

(** X13.  The position string and the three counters of one run agree: the
    digits of the string add up to the empty counter, its upper-case piece
    letters number the white counter and its lower-case ones the black
    counter, and its ['?'] characters are the cells no counter has. *)
Theorem recognise_summary files st fen :
  recognise files = Some (st, fen) ->
  digit_sum fen = empty_count st
  /\ white_chars fen = white_count st
  /\ black_chars fen = black_count st
  /\ char_count "?" fen + empty_count st + white_count st + black_count st = 64.
Proof.
  unfold recognise. destruct (analyse files) as [st'|] eqn:Hrun; [|discriminate].
  intros E. inversion E; subst st' fen. clear E.
  destruct (analyse_done files st Hrun) as (H8 & Hin & He & Hw & Hb).
  destruct (grid_counts files st Hrun) as [Hu Hd].
  destruct (tally_colour_counts files st Hrun) as [Tw Tb].
  pose proof (grid_cells_ok files st Hrun) as Hok.
  assert (Hlen : Forall (fun r => List.length r <= 9) (board st)).
  { destruct H8 as [_ Hrows]. eapply Forall_impl; [|exact Hrows].
    intros r Hr. simpl in Hr. lia. }
  assert (Hchar : forall c, is_digit c = false -> Ascii.eqb c "." = false ->
                            Ascii.eqb c "/" = false ->
                  char_count c (fen_position (board st))
                  = count_label (String c EmptyString) (board st)).
  { intros c H1 H2 H3. unfold fen_position. rewrite (fen_rows_cells _ H8).
    now apply join_char. }
  assert (Hdig : digit_sum (fen_position (board st)) = count_label "." (board st)).
  { unfold fen_position. rewrite (fen_rows_cells _ H8). now apply join_digits. }
  assert (Htot : tally files IsEmpty squares + tally files IsWhite squares
                 + tally files IsBlack squares + tally files IsUnknown squares = 64).
  { rewrite tally_total; [reflexivity|]. intros [r c] Hrc.
    apply In_squares in Hrc as [Hr Hc]. destruct (Hin r c Hr Hc) as (v & Hv).
    simpl. congruence. }
  split; [congruence|]. split; [|split].
  - unfold white_chars. rewrite !Hchar by reflexivity.
    rewrite Hw, Tw. symmetry. apply count_in_white_sum.
  - unfold black_chars. rewrite !Hchar by reflexivity.
    rewrite Hb, Tb. symmetry. apply count_in_black_sum.
  - rewrite Hchar by reflexivity. lia.
Qed.

End Classifier.

End RecogniseFacts.

Module LocatorFacts.
Import Cv Step0 NpFacts Step0Facts.

(** *** Upright rectangles *)

Ltac corner_by Hin Hext :=
  unfold Grid.upright in Hin; simpl in Hin;
  destruct Hin as [<-|[<-|[<-|[<-|[]]]]];
  unfold point_sum in Hext; cbn [fst snd] in Hext;
  first [reflexivity | exfalso; lia].

(** X14.  The four corners of an upright rectangle, fed in any order, come
    back as top-left, top-right, bottom-right, bottom-left. *)
Theorem upright_rectangle_is_ordered x0 y0 x1 y1 pts :
  (0 <= x0 < x1)%Z -> (x1 < 2 ^ 31)%Z -> (0 <= y0 < y1)%Z -> (y1 < 2 ^ 31)%Z ->
  Permutation (Grid.upright x0 y0 x1 y1) pts ->
  order_points pts = Grid.upright x0 y0 x1 y1.
Proof.
  intros Hx Hx1 Hy Hy1 Hp.
  assert (Hne : pts <> []).
  { intros ->. apply Permutation_sym, Permutation_nil in Hp. discriminate Hp. }
  assert (Hsub : forall p, In p pts -> In p (Grid.upright x0 y0 x1 y1)).
  { intros p Hin. apply Permutation_in with pts;
      [now apply Permutation_sym | exact Hin]. }
  assert (Hsup : forall p, In p (Grid.upright x0 y0 x1 y1) -> In p pts).
  { intros p Hin. now apply Permutation_in with (Grid.upright x0 y0 x1 y1). }
  assert (Hfr : Forall in_frame pts).
  { apply Forall_forall. intros p Hin. apply Hsub in Hin. simpl in Hin.
    unfold in_frame.
    repeat (destruct Hin as [<-|Hin]; [simpl; lia|]). contradiction. }
  unfold order_points. rewrite (map_point_diff pts Hfr). unfold Grid.upright.
  destruct (pick_min point_sum pts Hne) as [I1 M1].
  destruct (pick_max point_sum pts Hne) as [I2 M2].
  destruct (pick_min (fun p : Point => snd p - fst p)%Z pts Hne) as [I3 M3].
  destruct (pick_max (fun p : Point => snd p - fst p)%Z pts Hne) as [I4 M4].
  apply Hsub in I1, I2, I3, I4.
  specialize (M1 (x0, y0) (Hsup (x0, y0) ltac:(unfold Grid.upright; simpl; tauto))).
  specialize (M2 (x1, y1) (Hsup (x1, y1) ltac:(unfold Grid.upright; simpl; tauto))).
  specialize (M3 (x1, y0) (Hsup (x1, y0) ltac:(unfold Grid.upright; simpl; tauto))).
  specialize (M4 (x0, y1) (Hsup (x0, y1) ltac:(unfold Grid.upright; simpl; tauto))).
  remember (row_at pts (argmin (map point_sum pts))) as p1 eqn:E1.
  remember (row_at pts (argmax (map point_sum pts))) as p2 eqn:E2.
  remember (row_at pts (argmin (map (fun p : Point => snd p - fst p)%Z pts)))
    as p3 eqn:E3.
  remember (row_at pts (argmax (map (fun p : Point => snd p - fst p)%Z pts)))
    as p4 eqn:E4.
  clear E1 E2 E3 E4.
  f_equal; [|f_equal; [|f_equal; [|f_equal]]].
  - corner_by I1 M1.
  - corner_by I3 M3.
  - corner_by I2 M2.
  - corner_by I4 M4.
Qed.

(** *** The grid overlay *)

Lemma cell_is_100 : Grid.cell = 100%Z.
Proof. reflexivity. Qed.

Lemma cell_rect_inside row col x y :
  row < 8 -> col < 8 -> (0 <= x < BOARD_SIZE)%Z -> (0 <= y < BOARD_SIZE)%Z ->
  (Grid.inside (Grid.cell_rect (row, col)) x y
   <-> row = Z.to_nat (y / 100) /\ col = Z.to_nat (x / 100)).
Proof.
  intros Hr Hc Hx Hy. unfold BOARD_SIZE in *.
  unfold Grid.inside, Grid.cell_rect. cbn [fst snd]. rewrite cell_is_100.
  split.
  - intros [[Hx1 Hx2] [Hy1 Hy2]]. split.
    + assert (y / 100 = Z.of_nat row)%Z; [|lia].
      symmetry. apply Z.div_unique with (r := (y - Z.of_nat row * 100)%Z); lia.
    + assert (x / 100 = Z.of_nat col)%Z; [|lia].
      symmetry. apply Z.div_unique with (r := (x - Z.of_nat col * 100)%Z); lia.
  - intros [-> ->].
    pose proof (Z.div_pos y 100 ltac:(lia) ltac:(lia)).
    pose proof (Z.div_pos x 100 ltac:(lia) ltac:(lia)).
    rewrite !Z2Nat.id by assumption.
    pose proof (Z.mul_div_le x 100 ltac:(lia)).
    pose proof (Z.mul_div_le y 100 ltac:(lia)).
    pose proof (Z.mul_succ_div_gt x 100 ltac:(lia)).
    pose proof (Z.mul_succ_div_gt y 100 ltac:(lia)).
    lia.
Qed.

Section Script.
Context `{cv : OpenCV}.

(** The overlay is the fold of [cv2.rectangle] over the 64 squares in
    row-major order. *)
Lemma draw_grid_squares warped :
  draw_grid warped
  = fold_left
      (fun grid r => rectangle grid (fst r) (snd r) (0, 255, 0)%Z 1%Z)
      (map Grid.cell_rect Fen.squares) warped.
Proof. reflexivity. Qed.

(** X15.  The grid overlay is 64 rectangles, one per square in row-major
    order, each of side 100; the last one ends at the board size; and a
    pixel of the 800x800 board lies within the rectangle of (row, col), far
    edges excluded, exactly when row is [y // 100] and col is [x // 100]. *)
Theorem grid_squares_partition_board :
  (forall warped,
     draw_grid warped
     = fold_left
         (fun grid r => rectangle grid (fst r) (snd r) (0, 255, 0)%Z 1%Z)
         (map Grid.cell_rect Fen.squares) warped)
  /\ List.length (map Grid.cell_rect Fen.squares) = 64
  /\ (forall rc, In rc Fen.squares ->
        let r := Grid.cell_rect rc in
        (fst (snd r) - fst (fst r) = 100 /\ snd (snd r) - snd (fst r) = 100)%Z)
  /\ snd (Grid.cell_rect (7, 7)) = (BOARD_SIZE, BOARD_SIZE)
  /\ forall row col x y,
       row < 8 -> col < 8 -> (0 <= x < BOARD_SIZE)%Z -> (0 <= y < BOARD_SIZE)%Z ->
       (Grid.inside (Grid.cell_rect (row, col)) x y
        <-> row = Z.to_nat (y / 100) /\ col = Z.to_nat (x / 100)).
Proof.
  split; [exact draw_grid_squares|]. split; [reflexivity|].
  split; [|split; [reflexivity | exact cell_rect_inside]].
  intros rc _. unfold Grid.cell_rect. cbn [fst snd]. rewrite cell_is_100. lia.
Qed.

(** *** The located outline *)

(** X16.  A located outline always has exactly four points, so it can be
    reshaped to the 4x2 array of corners. *)
Theorem located_outline_has_four_points contours quad :
  board_contour contours = Some quad -> List.length quad = 4.
Proof.
  intros H. destruct (board_contour_some contours quad H)
    as (c & (_ & _ & _ & Hfs & _) & ->).
  exact Hfs.
Qed.

Lemma located_max_area_nonneg seen st :
  located seen st -> (0 <= snd st)%Q.
Proof.
  unfold located. destruct (fst st) as [quad|].
  - intros (c & (_ & _ & _ & _ & Hpos & _) & _ & ->). lra.
  - intros [-> _]. lra.
Qed.

Lemma locate_step_skip seen st c :
  located seen st ->
  ~ four_sided c \/ (contourArea c <= 0)%Q ->
  locate_step st c = st.
Proof.
  intros Hloc H. pose proof (located_max_area_nonneg seen st Hloc) as Hm.
  destruct st as [b m]. simpl in Hm. unfold locate_step.
  destruct (Np.Qltb m (contourArea c)) eqn:Hlt; [|reflexivity].
  apply Qltb_lt in Hlt.
  destruct H as [H|H]; [|lra].
  destruct (Nat.eqb_spec (List.length (approx_of c)) 4); [contradiction | reflexivity].
Qed.

(** X17.  A contour whose approximation does not have four vertices, or
    whose area is not positive, has no influence: the locator gives the same
    result with and without it, wherever it stands in the list. *)
Theorem unqualified_contour_is_ignored before c after :
  ~ four_sided c \/ (contourArea c <= 0)%Q ->
  board_contour (before ++ c :: after) = board_contour (before ++ after).
Proof.
  intros H. unfold board_contour. rewrite !fold_left_app. simpl.
  rewrite (locate_step_skip before _ c); [reflexivity | | exact H].
  apply (locate_fold_located before [] (None, 0%Q)).
  split; [reflexivity|]. intros c' [].
Qed.

Lemma first_largest_is_max contours c :
  first_largest contours c ->
  In c contours /\ four_sided c /\ (0 < contourArea c)%Q
  /\ forall c', In c' contours -> four_sided c' ->
                (contourArea c' <= contourArea c)%Q.
Proof.
  intros (bf & af & -> & Hfs & Hpos & Hbf & Haf).
  split; [apply in_elt|]. split; [exact Hfs|]. split; [exact Hpos|].
  intros c' Hin Hfs'. apply in_app_or in Hin as [Hin|[<-|Hin]].
  - specialize (Hbf c' Hin Hfs'). lra.
  - lra.
  - now apply Haf.
Qed.

(** X18.  Reordering the contours changes neither whether a board is found
    nor the area of the outline that is kept; only the choice among
    outlines of the same largest area depends on the order. *)
Theorem located_area_ignores_order contours contours' :
  Permutation contours contours' ->
  (board_contour contours = None <-> board_contour contours' = None)
  /\ forall c c', first_largest contours c -> first_largest contours' c' ->
                  (contourArea c == contourArea c')%Q.
Proof.
  intros Hp.
  assert (Hnone : forall l l', Permutation l l' ->
                  board_contour l = None -> board_contour l' = None).
  { intros l l' Hll Hn. destruct (board_contour l') as [q|] eqn:E; [|reflexivity].
    destruct (board_contour_some l' q E) as (c & Hc & _).
    apply first_largest_is_max in Hc as (Hin & Hfs & Hpos & _).
    pose proof (board_contour_none l Hn c
                  (Permutation_in _ (Permutation_sym Hll) Hin) Hfs). lra. }
  split.
  - split; [apply Hnone; exact Hp | apply Hnone; now apply Permutation_sym].
  - intros c c' Hc Hc'.
    apply first_largest_is_max in Hc as (Hin & Hfs & _ & Hmax).
    apply first_largest_is_max in Hc' as (Hin' & Hfs' & _ & Hmax').
    apply Qle_antisym.
    + apply Hmax'; [|exact Hfs]. now apply Permutation_in with contours.
    + apply Hmax; [|exact Hfs'].
      apply Permutation_in with contours'; [now apply Permutation_sym | exact Hin'].
Qed.

End Script.

End LocatorFacts.

Module ReportFacts.
Import PyStr PyText Fen Summary FenFacts SummaryFacts RecogniseFacts.

(** *** Appending and concatenating *)

Lemma append_assoc (a b c : string) :
  ((a ++ b) ++ c)%string = (a ++ (b ++ c))%string.
Proof. induction a as [|x a IH]; simpl; [reflexivity | now rewrite IH]. Qed.

Lemma append_nil_r (a : string) : (a ++ "")%string = a.
Proof. induction a as [|x a IH]; simpl; [reflexivity | now rewrite IH]. Qed.

Lemma cat_cons x xs :
  String.concat "" (x :: xs) = (x ++ String.concat "" xs)%string.
Proof.
  destruct xs as [|y ys]; simpl; [now rewrite append_nil_r | reflexivity].
Qed.

Lemma cat_app xs ys :
  String.concat "" (xs ++ ys)
  = (String.concat "" xs ++ String.concat "" ys)%string.
Proof.
  induction xs as [|x xs IH]; [reflexivity|].
  change ((x :: xs) ++ ys) with (x :: (xs ++ ys)).
  now rewrite !cat_cons, IH, append_assoc.
Qed.

Lemma line_cat_cons l ls :
  Report.line_cat (l :: ls) = (l ++ nl ++ Report.line_cat ls)%string.
Proof.
  unfold Report.line_cat. cbn [map]. now rewrite cat_cons, append_assoc.
Qed.

Lemma line_cat_app ls ls' :
  Report.line_cat (ls ++ ls')
  = (Report.line_cat ls ++ Report.line_cat ls')%string.
Proof. unfold Report.line_cat. now rewrite map_app, cat_app. Qed.

(** *** Lines *)

Lemma no_nl_cons c s :
  no_nl (String c s) = negb (Ascii.eqb "010" c) && no_nl s.
Proof. unfold no_nl. cbn [contains_char]. now rewrite negb_orb. Qed.

Lemma no_nl_app a b : no_nl (a ++ b)%string = no_nl a && no_nl b.
Proof.
  induction a as [|c a IH]; [reflexivity|].
  change (String c a ++ b)%string with (String c (a ++ b)%string).
  now rewrite !no_nl_cons, IH, andb_assoc.
Qed.

Lemma split_nl_line a rest :
  no_nl a = true ->
  split "010" (a ++ nl ++ rest)%string = a :: split "010" rest.
Proof.
  induction a as [|c a IH]; intros H; [reflexivity|].
  rewrite no_nl_cons in H. apply andb_prop in H as [Hc Ha].
  apply negb_true_iff in Hc. rewrite Ascii.eqb_sym in Hc.
  change (String c a ++ nl ++ rest)%string with (String c (a ++ nl ++ rest)%string).
  cbn [split]. rewrite Hc, (IH Ha). reflexivity.
Qed.

Lemma split_line_cat ls rest :
  Forall (fun l => no_nl l = true) ls ->
  split "010" (Report.line_cat ls ++ rest)%string = ls ++ split "010" rest.
Proof.
  induction ls as [|l ls IH]; intros H; [reflexivity|].
  inversion H; subst.
  rewrite line_cat_cons, !append_assoc, split_nl_line by assumption.
  now rewrite IH.
Qed.

Lemma find_first {A} (test : A -> bool) before x after :
  Forall (fun a => test a = false) before -> test x = true ->
  find test (before ++ x :: after) = Some x.
Proof.
  induction before as [|a before IH]; intros Hb Hx; simpl.
  - now rewrite Hx.
  - inversion Hb; subst. rewrite H1. now apply IH.
Qed.

(** *** The report as lines *)

Lemma row_writes_lines board i :
  String.concat "" (Report.row_writes board i)
  = Report.line_cat (Report.row_lines board i).
Proof.
  unfold Report.row_writes, Report.row_lines, Report.row_text.
  rewrite !cat_app, line_cat_cons.
  destruct (i <? 7); cbn [String.concat];
    unfold Report.line_cat; cbn [map String.concat];
    rewrite ?append_assoc, ?append_nil_r; reflexivity.
Qed.

Lemma rows_writes_lines board rows :
  String.concat "" (flat_map (Report.row_writes board) rows)
  = Report.line_cat (flat_map (Report.row_lines board) rows).
Proof.
  induction rows as [|i rows IH]; [reflexivity|].
  cbn [flat_map]. now rewrite cat_app, line_cat_app, row_writes_lines, IH.
Qed.

Lemma text_lines board fen e w b :
  Report.text board fen e w b
  = (Report.line_cat (Report.lines_before board)
     ++ (("FEN: " ++ fen) ++ nl ++ Report.text_after e w b))%string.
Proof.
  unfold Report.text, Report.writes, Report.lines_before.
  rewrite !cat_app, !line_cat_app, rows_writes_lines, !append_assoc.
  f_equal. f_equal.
  unfold Report.text_after, Report.line_cat. cbn [map].
  rewrite !cat_cons, !append_assoc. reflexivity.
Qed.

(** *** Labels and characters *)

Lemma grid_label_In p :
  grid_label p = true -> In p ("." :: "?" :: piece_letters).
Proof.
  unfold grid_label, known_label. intros H.
  apply orb_prop in H as [H|H]; [apply orb_prop in H as [H|H]|].
  - apply String.eqb_eq in H. subst. now left.
  - apply mem_string_In in H. now right; right.
  - apply String.eqb_eq in H. subst. right. now left.
Qed.

Lemma grid_label_plain p :
  grid_label p = true -> no_nl p = true /\ all_chars plain p = true.
Proof.
  intros H. apply grid_label_In in H. simpl in H.
  repeat (destruct H as [<-|H]; [split; reflexivity|]). contradiction.
Qed.

Lemma rank_digit_In c :
  rank_digit c = true ->
  In c ["1"; "2"; "3"; "4"; "5"; "6"; "7"; "8"]%char.
Proof.
  unfold rank_digit. intros H. apply andb_prop in H as [H1 H2].
  apply Nat.leb_le in H1, H2. rewrite <- (ascii_nat_embedding c).
  set (n := nat_of_ascii c) in *.
  assert (Hn : n = 49 \/ n = 50 \/ n = 51 \/ n = 52 \/ n = 53 \/ n = 54
               \/ n = 55 \/ n = 56) by lia.
  clearbody n.
  repeat (destruct Hn as [Hn|Hn]; [subst n; simpl; tauto|]).
  subst n. simpl. tauto.
Qed.

Lemma all_chars_forall test s :
  all_chars test s = true
  <-> forall c, In c (list_ascii_of_string s) -> test c = true.
Proof.
  induction s as [|d s IH]; simpl.
  - split; [intros _ c [] | reflexivity].
  - rewrite andb_true_iff, IH. split.
    + intros [Hd Hs] c [<-|Hc]; auto.
    + intros H. split; [apply H; now left | intros c Hc; apply H; now right].
Qed.

Lemma labels_grid board l :
  Forall (Forall (fun p => grid_label p = true)) board ->
  In l (labels board) -> grid_label l = true.
Proof.
  intros Hgrid Hl. unfold labels in Hl. apply in_concat in Hl as (r & Hr & Hl).
  rewrite Forall_forall in Hgrid. specialize (Hgrid r Hr).
  rewrite Forall_forall in Hgrid. now apply Hgrid.
Qed.

(** Every character of the position string is plain. *)
Lemma fen_position_plain board :
  is_8x8 board -> Forall (Forall (fun p => grid_label p = true)) board ->
  all_chars plain (fen_position board) = true.
Proof.
  intros H8 Hgrid. apply all_chars_forall. intros c Hc.
  destruct (grid_rows_ok board H8 Hgrid) as [Hok _].
  unfold fen_position in Hc. rewrite (fen_rows_cells _ H8) in Hc.
  apply join_chars in Hc as [->|(r & Hr & Hc)]; [reflexivity|].
  apply in_map_iff in Hr as (cells & <- & Hcells).
  pose proof H8 as [_ Hrows]. rewrite Forall_forall in Hok, Hrows.
  apply encode_rank_chars in Hc; [|now apply Hok|rewrite (Hrows _ Hcells); lia].
  destruct Hc as [Hc|[Hin _]].
  - apply rank_digit_In in Hc. simpl in Hc.
    repeat (destruct Hc as [<-|Hc]; [reflexivity|]). contradiction.
  - assert (Hl : In (String c EmptyString) (labels board)).
    { unfold labels. apply in_concat. exists cells. auto. }
    apply (labels_grid board _ Hgrid), grid_label_plain in Hl as [_ Hl].
    simpl in Hl. now rewrite andb_true_r in Hl.
Qed.

Lemma plain_no_nl s : all_chars plain s = true -> no_nl s = true.
Proof.
  induction s as [|c s IH]; [reflexivity|]. cbn [all_chars].
  intros H. apply andb_prop in H as [Hc Hs]. rewrite no_nl_cons, (IH Hs).
  unfold plain in Hc. apply andb_prop in Hc as [Hc _].
  apply andb_prop in Hc as [Hc _]. apply andb_prop in Hc as [Hc _].
  rewrite Ascii.eqb_sym, Hc. reflexivity.
Qed.

(** *** The lines before the position line *)

Lemma no_nl_cat xs :
  Forall (fun x => no_nl x = true) xs -> no_nl (String.concat "" xs) = true.
Proof.
  induction xs as [|x xs IH]; intros H; [reflexivity|].
  inversion H; subst. rewrite cat_cons, no_nl_app. rewrite IH by assumption.
  now rewrite andb_true_r.
Qed.

Lemma board_at_grid board i j :
  is_8x8 board -> Forall (Forall (fun p => grid_label p = true)) board ->
  i < 8 -> j < 8 -> grid_label (board_at board i j) = true.
Proof.
  intros [Hlen Hrows] Hgrid Hi Hj. unfold board_at.
  rewrite Forall_forall in Hgrid, Hrows.
  assert (Hr : In (nth i board []) board) by (apply nth_In; lia).
  specialize (Hgrid _ Hr). rewrite Forall_forall in Hgrid.
  apply Hgrid, nth_In. rewrite (Hrows _ Hr). exact Hj.
Qed.

Lemma row_text_skipped board i :
  is_8x8 board -> Forall (Forall (fun p => grid_label p = true)) board ->
  i < 8 -> Report.skipped (Report.row_text board i).
Proof.
  intros H8 Hgrid Hi.
  assert (Hcells : no_nl (String.concat ""
                     (map (fun j => (board_at board i j ++ "│")%string) (seq 0 8)))
                   = true).
  { apply no_nl_cat, Forall_map, Forall_forall. intros j Hj. apply in_seq in Hj.
    rewrite no_nl_app.
    destruct (grid_label_plain _ (board_at_grid board i j H8 Hgrid Hi ltac:(lia)))
      as [-> _].
    reflexivity. }
  unfold Report.skipped, Report.row_text.
  do 8 (destruct i as [|i];
        [split; [rewrite !no_nl_app, Hcells; reflexivity | reflexivity]|]).
  lia.
Qed.

Lemma lines_before_skipped board :
  is_8x8 board -> Forall (Forall (fun p => grid_label p = true)) board ->
  Forall Report.skipped (Report.lines_before board).
Proof.
  intros H8 Hgrid. unfold Report.lines_before.
  apply Forall_app. split; [repeat constructor|].
  apply Forall_app. split; [|repeat constructor].
  apply Forall_flat_map, Forall_forall. intros i Hi. apply in_seq in Hi.
  unfold Report.row_lines. constructor.
  - apply row_text_skipped; auto. lia.
  - destruct (i <? 7); repeat constructor.
Qed.

(** *** Replacing and stripping on plain text *)

Lemma plain_not_F c : plain c = true -> c <> "F"%char.
Proof.
  unfold plain. intros H E. subst c. discriminate H.
Qed.

Lemma replace_from_plain s :
  all_chars plain s = true -> replace_from "FEN: " "" 0 s = s.
Proof.
  induction s as [|c s IH]; [reflexivity|]. cbn [all_chars].
  intros H. apply andb_prop in H as [Hc Hs].
  cbn [replace_from String.prefix].
  destruct (ascii_dec "F" c) as [E|_].
  - exfalso. now apply (plain_not_F c Hc).
  - now rewrite (IH Hs).
Qed.

Lemma prefix_nil s : String.prefix "" s = true.
Proof. destruct s; reflexivity. Qed.

Lemma prefix_app p s : String.prefix p (p ++ s)%string = true.
Proof.
  induction p as [|c p IH]; [apply prefix_nil|].
  cbn [String.append String.prefix].
  destruct (ascii_dec c c) as [_|N]; [exact IH | now contradiction N].
Qed.

Lemma replace_fen_line fen :
  all_chars plain fen = true ->
  replace ("FEN: " ++ fen)%string "FEN: " "" = fen.
Proof.
  intros H. unfold replace. cbn. rewrite prefix_nil.
  now apply replace_from_plain.
Qed.

Lemma leading_none seqs c r :
  first_of seqs c = false -> leading seqs (String c r) = None.
Proof.
  unfold leading. intros H.
  replace (find (fun w => String.prefix w (String c r)) seqs) with (@None string);
    [reflexivity|].
  symmetry. induction seqs as [|w seqs IH]; [reflexivity|].
  cbn [first_of existsb] in H. apply orb_false_elim in H as [Hw Hs].
  cbn [find]. destruct w as [|d w]; [discriminate Hw|].
  cbn [String.prefix]. destruct (ascii_dec d c) as [E|_].
  - subst d. rewrite Ascii.eqb_refl in Hw. discriminate Hw.
  - apply IH. exact Hs.
Qed.

Lemma lstrip_from_none seqs s :
  match s with
  | EmptyString => True
  | String c _ => first_of seqs c = false
  end ->
  lstrip_from seqs 0 s = s.
Proof.
  destruct s as [|c r]; [reflexivity|]. intros H.
  cbn [lstrip_from]. now rewrite (leading_none seqs c r H).
Qed.

Lemma forallb_chars test s :
  all_chars test s = forallb test (list_ascii_of_string s).
Proof. induction s as [|c s IH]; simpl; [reflexivity | now rewrite IH]. Qed.

Lemma all_chars_reverse test s :
  all_chars test (reverse s) = all_chars test s.
Proof.
  unfold reverse. rewrite !forallb_chars, list_ascii_of_string_of_list_ascii.
  apply eq_true_iff_eq. rewrite !forallb_forall. split; intros H c Hc; apply H.
  - now apply in_rev in Hc.
  - now apply in_rev.
Qed.

Lemma reverse_involutive s : reverse (reverse s) = s.
Proof.
  unfold reverse.
  now rewrite list_ascii_of_string_of_list_ascii, rev_involutive,
    string_of_list_ascii_of_string.
Qed.

Lemma strip_plain s : all_chars plain s = true -> strip s = s.
Proof.
  intros H. unfold strip, lstrip, rstrip.
  assert (Hfirst : forall t, all_chars plain t = true ->
            match t with
            | EmptyString => True
            | String c _ => first_of spaces c = false
                            /\ first_of (map reverse spaces) c = false
            end).
  { intros [|c t] Ht; [exact I|]. cbn [all_chars] in Ht.
    apply andb_prop in Ht as [Hc _]. unfold plain in Hc.
    apply andb_prop in Hc as [Hc H4]. apply andb_prop in Hc as [_ H3].
    now rewrite negb_true_iff in H3, H4. }
  rewrite (lstrip_from_none spaces s).
  - rewrite (lstrip_from_none (map reverse spaces) (reverse s)).
    + apply reverse_involutive.
    + pose proof (Hfirst (reverse s)) as Hr. rewrite all_chars_reverse in Hr.
      specialize (Hr H). destruct (reverse s); [exact I | apply Hr].
  - specialize (Hfirst s H). destruct s; [exact I | apply Hfirst].
Qed.

(** *** Reading the report back *)

Lemma load_report board_parses board e w b :
  is_8x8 board -> Forall (Forall (fun p => grid_label p = true)) board ->
  Step4.load_fen_from_step3 board_parses
    (Step4.Text (Report.text board (fen_position board) e w b))
  = if board_parses (fen_position board) then Some (fen_position board) else None.
Proof.
  intros H8 Hgrid.
  pose proof (fen_position_plain board H8 Hgrid) as Hplain.
  unfold Step4.load_fen_from_step3.
  rewrite text_lines, split_line_cat.
  2:{ eapply Forall_impl; [|apply (lines_before_skipped board H8 Hgrid)].
      now intros l [Hl _]. }
  rewrite split_nl_line.
  2:{ rewrite no_nl_app. now rewrite (plain_no_nl _ Hplain). }
  rewrite find_first.
  - rewrite replace_fen_line, strip_plain by assumption. reflexivity.
  - eapply Forall_impl; [|apply (lines_before_skipped board H8 Hgrid)].
    now intros l [_ Hl].
  - apply prefix_app.
Qed.

End ReportFacts.

Module PipelineFacts.
Import PyStr PyText Fen Summary FenFacts ReportFacts.

(** *** What step 4 loads *)



Section Classifier.
Import Cv Step3 Step3Facts LoopFacts.
Context `{cv : OpenCV}.

Lemma analysed_grid files st :
  analyse files = Some st ->
  is_8x8 (board st) /\ Forall (Forall (fun p => grid_label p = true)) (board st).
Proof.
  intros Hrun. destruct (analyse_done files st Hrun) as (H8 & Hin & _).
  split; [exact H8|]. rewrite (board_table _ H8).
  apply Forall_map, Forall_forall. intros r Hr. apply in_seq in Hr.
  apply Forall_map, Forall_forall. intros c Hc. apply in_seq in Hc.
  destruct (Hin r c) as (v & Hv); try lia.
  exact (label_fits_grid _ (classify_label_fits _ _ Hv)).
Qed.

(** X20.  The position step 4 reads from the report of a run of step 3 is
    the position string that run assembled: the first line starting with
    the marker is the position line, and removing the marker and stripping
    leave the string unchanged.  Whether the load succeeds is then up to
    [chess.Board] alone. *)
Theorem step4_reads_step3_position board_parses files st :
  analyse files = Some st ->
  Step4.load_fen_from_step3 board_parses (Step4.Text (Report.of_analysis st))
  = if board_parses (fen_position (board st))
    then Some (fen_position (board st)) else None.
Proof.
  intros Hrun. destruct (analysed_grid files st Hrun) as [H8 Hgrid].
  unfold Report.of_analysis. now apply load_report.
Qed.

(** *** The visualisation *)

Lemma analysed_label files st row col :
  analyse files = Some st -> row < 8 -> col < 8 ->
  In (board_at (board st) row col) loop_labels.
Proof.
  intros Hrun Hr Hc. destruct (analyse_done files st Hrun) as (_ & Hin & _).
  destruct (Hin row col Hr Hc) as (v & Hv).
  exact (label_fits_loop_label _ (classify_label_fits _ _ Hv)).
Qed.

(** X21.  In the visualisation a square gets its two circles exactly when
    its label is not ['.']; the filled circle has the white-piece colour
    exactly for the upper-case letters, so a ['?'] square is drawn in the
    colour of a black piece; and the letter written is the upper-case one,
    or ['?']. *)
Theorem unknown_is_drawn_as_black files st row col :
  analyse files = Some st -> row < 8 -> col < 8 ->
  let piece := board_at (board st) row col in
  List.length (filter Render.is_circle (Render.draw_cell (board st) row col))
  = (if String.eqb piece "." then 0 else 2)
  /\ (Render.circle_color piece = Render.white_circle <-> In piece white_letters)
  /\ (piece = "?" -> Render.circle_color piece = Render.circle_color "p")
  /\ In (Render.piece_char piece) ("." :: "?" :: white_letters).
Proof.
  intros Hrun Hr Hc piece.
  pose proof (analysed_label files st row col Hrun Hr Hc) as Hl. fold piece in Hl.
  split.
  - unfold Render.draw_cell. fold piece.
    destruct (String.eqb piece "."); reflexivity.
  - clearbody piece. unfold loop_labels in Hl. simpl in Hl.
    repeat (destruct Hl as [<-|Hl];
            [split; [|split; [|simpl; tauto]];
             [split; [intros E; try discriminate E; simpl; tauto
                     |intros E; simpl in E;
                      repeat (destruct E as [E|E]; try discriminate E);
                      try reflexivity; contradiction]
             |intros E; try discriminate E; reflexivity]|]).
    contradiction.
Qed.

End Classifier.

End PipelineFacts.

(** ** Closed examples for Part III *)

Module MoreExamples.
Import Cv Reference Samples Examples.

Example lonely_run :
  Step3.analyse (cv := ref_cv) lonely_files = Some lonely_analysis.
Proof. vm_compute. reflexivity. Qed.

Lemma label_depends_on_own_file_witness :
  (Step3.analyse (cv := ref_cv) sample_files = Some sample_analysis
   /\ Step3.analyse (cv := ref_cv) lonely_files = Some lonely_analysis
   /\ 0 < 8
   /\ sample_files 0 0 = lonely_files 0 0)
  /\ Fen.board_at (Step3.board sample_analysis) 0 0
     = Fen.board_at (Step3.board lonely_analysis) 0 0.
Proof.
  split.
  - split; [vm_compute; reflexivity|]. split; [vm_compute; reflexivity|].
    split; [lia | reflexivity].
  - apply (LoopFacts.label_depends_on_own_file (cv := ref_cv)
             sample_files lonely_files sample_analysis lonely_analysis 0 0).
    + vm_compute. reflexivity.
    + vm_compute. reflexivity.
    + lia.
    + lia.
    + reflexivity.
Defined.

Lemma missing_file_is_unknown_witness :
  (Step3.analyse (cv := ref_cv) lonely_files = Some lonely_analysis
   /\ 3 < 8 /\ 5 < 8
   /\ lonely_files 3 5 = Step3.Missing (cv := ref_cv))
  /\ Fen.board_at (Step3.board lonely_analysis) 3 5 = "?".
Proof.
  split.
  - split; [vm_compute; reflexivity|]. split; [lia|]. split; [lia | reflexivity].
  - apply (LoopFacts.missing_file_is_unknown (cv := ref_cv)
             lonely_files lonely_analysis 3 5).
    + vm_compute. reflexivity.
    + lia.
    + lia.
    + reflexivity.
Defined.

Lemma grid_has_no_king_witness :
  Step3.analyse (cv := ref_cv) sample_files = Some sample_analysis
  /\ (Fen.is_8x8 (Step3.board sample_analysis)
      /\ Forall (Forall (fun l => In l Summary.loop_labels))
                (Step3.board sample_analysis)
      /\ ~ In "K" (Fen.labels (Step3.board sample_analysis))
      /\ ~ In "k" (Fen.labels (Step3.board sample_analysis))).
Proof.
  split; [vm_compute; reflexivity|].
  apply (LoopFacts.grid_has_no_king (cv := ref_cv) sample_files sample_analysis).
  vm_compute. reflexivity.
Defined.

Lemma colour_counters_witness :
  Step3.analyse (cv := ref_cv) sample_files = Some sample_analysis
  /\ (Step3.white_count sample_analysis
      = Summary.count_in Summary.white_letters (Step3.board sample_analysis)
      /\ Step3.black_count sample_analysis
         = Summary.count_in Summary.black_letters (Step3.board sample_analysis)).
Proof.
  split; [vm_compute; reflexivity|].
  apply (LoopFacts.colour_counters (cv := ref_cv) sample_files sample_analysis).
  vm_compute. reflexivity.
Defined.

Lemma wide_spread_is_occupied_witness :
  (In 0%Z (Np.pixels (GaussianBlur (OpenCV := ref_cv)
                        (cvtColor_BGR2GRAY (OpenCV := ref_cv) (split_cell 8))
                        (5, 5) 0%Z))
   /\ In 255%Z (Np.pixels (GaussianBlur (OpenCV := ref_cv)
                             (cvtColor_BGR2GRAY (OpenCV := ref_cv) (split_cell 8))
                             (5, 5) 0%Z))
   /\ (100 <= 255 - 0)%Z)
  /\ Step3.is_cell_empty (cv := ref_cv) (split_cell 8) "dark" = Some false.
Proof.
  assert (H0 : In 0%Z (Np.pixels (GaussianBlur (OpenCV := ref_cv)
                         (cvtColor_BGR2GRAY (OpenCV := ref_cv) (split_cell 8))
                         (5, 5) 0%Z)))
    by (vm_compute; tauto).
  assert (H1 : In 255%Z (Np.pixels (GaussianBlur (OpenCV := ref_cv)
                           (cvtColor_BGR2GRAY (OpenCV := ref_cv) (split_cell 8))
                           (5, 5) 0%Z)))
    by (vm_compute; tauto).
  split; [split; [exact H0 | split; [exact H1 | lia]]|].
  apply (ClassifierFacts.wide_spread_is_occupied (cv := ref_cv)
           (split_cell 8) "dark" 0%Z 255%Z H0 H1). lia.
Defined.

Lemma grey_cell_levels v :
  In v (Np.pixels grey_cell) -> v = 150%Z.
Proof.
  vm_compute. intros H. repeat (destruct H as [H|H]; [now symmetry|]).
  contradiction.
Defined.

Lemma flat_cell_is_empty_witness :
  (Np.pixels (cvtColor_BGR2GRAY (OpenCV := ref_cv) grey_cell) <> []
   /\ (forall v, In v (Np.pixels (GaussianBlur (OpenCV := ref_cv)
                          (cvtColor_BGR2GRAY (OpenCV := ref_cv) grey_cell)
                          (5, 5) 0%Z)) -> (80 <= v <= 180)%Z)
   /\ (forall p q,
         In p (Np.pixels (GaussianBlur (OpenCV := ref_cv)
                            (cvtColor_BGR2GRAY (OpenCV := ref_cv) grey_cell)
                            (5, 5) 0%Z)) ->
         In q (Np.pixels (GaussianBlur (OpenCV := ref_cv)
                            (cvtColor_BGR2GRAY (OpenCV := ref_cv) grey_cell)
                            (5, 5) 0%Z)) -> (q - p < 100)%Z))
  /\ Step3.is_cell_empty (cv := ref_cv) grey_cell "light" = Some true.
Proof.
  assert (H1 : Np.pixels (cvtColor_BGR2GRAY (OpenCV := ref_cv) grey_cell) <> [])
    by (vm_compute; discriminate).
  assert (H2 : forall v, In v (Np.pixels (GaussianBlur (OpenCV := ref_cv)
                          (cvtColor_BGR2GRAY (OpenCV := ref_cv) grey_cell)
                          (5, 5) 0%Z)) -> (80 <= v <= 180)%Z).
  { intros v Hv. apply grey_cell_levels in Hv. lia. }
  assert (H3 : forall p q,
         In p (Np.pixels (GaussianBlur (OpenCV := ref_cv)
                            (cvtColor_BGR2GRAY (OpenCV := ref_cv) grey_cell)
                            (5, 5) 0%Z)) ->
         In q (Np.pixels (GaussianBlur (OpenCV := ref_cv)
                            (cvtColor_BGR2GRAY (OpenCV := ref_cv) grey_cell)
                            (5, 5) 0%Z)) -> (q - p < 100)%Z).
  { intros p q Hp Hq. apply grey_cell_levels in Hp, Hq. lia. }
  split; [split; [exact H1 | split; [exact H2 | exact H3]]|].
  exact (ClassifierFacts.flat_cell_is_empty (cv := ref_cv) grey_cell "light"
           H1 H1 H2 H3).
Defined.

Lemma tiny_cell_has_unknown_colour_witness :
  (Np.rows (cvtColor_BGR2GRAY (OpenCV := ref_cv) pixel_cell) <= 1
   \/ Np.cols (cvtColor_BGR2GRAY (OpenCV := ref_cv) pixel_cell) <= 1)
  /\ Step3.get_piece_color (cv := ref_cv) pixel_cell "light" = "?".
Proof.
  assert (H : Np.rows (cvtColor_BGR2GRAY (OpenCV := ref_cv) pixel_cell) <= 1
              \/ Np.cols (cvtColor_BGR2GRAY (OpenCV := ref_cv) pixel_cell) <= 1)
    by (left; simpl; lia).
  split; [exact H|].
  exact (ClassifierFacts.tiny_cell_has_unknown_colour (cv := ref_cv)
           pixel_cell "light" H).
Defined.

Example white_on_dark_and_light :
  Step3.get_piece_color (cv := ref_cv) (uniform 8 xff) "dark" = "w"
  /\ Step3.get_piece_color (cv := ref_cv) (uniform 8 xff) "light" = "w"
  /\ Step3.get_piece_color (cv := ref_cv) (uniform 8 xaa) "dark" = "?"
  /\ Step3.get_piece_color (cv := ref_cv) (uniform 8 xaa) "light" = "w".
Proof. repeat split; vm_compute; reflexivity. Qed.

Lemma start_board_grid :
  Forall (Forall (fun p => Fen.grid_label p = true)) start_board.
Proof. repeat constructor. Qed.

Lemma sample_board_grid :
  Forall (Forall (fun p => Fen.grid_label p = true)) sample_board.
Proof. repeat constructor. Qed.

Lemma analyse_fails_iff_witness :
  Step3.analyse (cv := ref_cv) broken_files = None.
Proof.
  apply (LoopFacts.analyse_fails_iff (cv := ref_cv) broken_files).
  exists 0, 0. split; [lia|]. split; [lia|]. left. reflexivity.
Defined.

Lemma colour_thresholds_nest_witness :
  Step3.get_piece_color (cv := ref_cv) (uniform 8 xff) "dark" = "w"
  /\ Step3.get_piece_color (cv := ref_cv) (uniform 8 xff) "light" = "w".
Proof.
  assert (H : Step3.get_piece_color (cv := ref_cv) (uniform 8 xff) "dark" = "w")
    by (vm_compute; reflexivity).
  split; [exact H|].
  exact (proj1 (ClassifierFacts.colour_thresholds_nest (cv := ref_cv)
                  (uniform 8 xff)) H).
Defined.

Lemma string_matches_grid_witness :
  Fen.is_8x8 start_board
  /\ Fen.digit_sum (Fen.fen_position start_board)
     = Fen.count_label "." start_board
  /\ Summary.char_count "p" (Fen.fen_position start_board)
     = Fen.count_label "p" start_board
  /\ Summary.char_count "/" (Fen.fen_position start_board) = 7.
Proof.
  split; [exact start_board_8x8|].
  destruct (SummaryFacts.string_matches_grid start_board
              start_board_8x8 start_board_grid) as (Hd & Hc & Hs).
  split; [exact Hd|]. split; [|exact Hs].
  apply (Hc "p"%char); [reflexivity | discriminate | discriminate].
Defined.

Lemma fen_position_injective_witness :
  start_board <> sample_board
  /\ Fen.fen_position start_board <> Fen.fen_position sample_board.
Proof.
  assert (H : start_board <> sample_board) by discriminate.
  split; [exact H|].
  exact (SummaryFacts.fen_position_injective start_board sample_board
           start_board_8x8 start_board_grid
           sample_board_8x8 sample_board_grid H).
Defined.

Lemma fen_alphabet_witness :
  In "r"%char (list_ascii_of_string (Fen.fen_position start_board))
  /\ ("r"%char = "/"%char
      \/ Summary.rank_digit "r" = true
      \/ (In "r" (Fen.labels start_board) /\ "r"%char <> "."%char)).
Proof.
  assert (H : In "r"%char (list_ascii_of_string (Fen.fen_position start_board)))
    by (vm_compute; tauto).
  split; [exact H|].
  exact (RecogniseFacts.fen_alphabet start_board "r"
           start_board_8x8 start_board_grid H).
Defined.

Lemma recognise_summary_witness :
  Step3.recognise (cv := ref_cv) sample_files
  = Some (sample_analysis, "?7/8/8/8/8/8/8/8")
  /\ Fen.digit_sum "?7/8/8/8/8/8/8/8" = 63
  /\ Summary.char_count "?" "?7/8/8/8/8/8/8/8" + 63 + 0 + 0 = 64.
Proof.
  assert (H : Step3.recognise (cv := ref_cv) sample_files
              = Some (sample_analysis, "?7/8/8/8/8/8/8/8"))
    by (vm_compute; reflexivity).
  split; [exact H|].
  destruct (RecogniseFacts.recognise_summary (cv := ref_cv)
              sample_files sample_analysis "?7/8/8/8/8/8/8/8" H)
    as (Hd & _ & _ & Hq).
  split; [exact Hd | exact Hq].
Defined.

Lemma upright_rectangle_is_ordered_witness :
  Step0.order_points [(10, 0); (0, 0); (10, 10); (0, 10)]%Z
  = Grid.upright 0 0 10 10.
Proof.
  apply (LocatorFacts.upright_rectangle_is_ordered 0 0 10 10).
  - lia.
  - lia.
  - lia.
  - lia.
  - apply perm_swap.
Defined.

Lemma grid_squares_partition_board_witness :
  Grid.inside (Grid.cell_rect (7, 2)) 250 730.
Proof.
  apply (proj2 (proj2 (proj2 (proj2
           (LocatorFacts.grid_squares_partition_board (cv := ref_cv)))))
           7 2 250%Z 730%Z).
  - lia.
  - lia.
  - unfold Step0.BOARD_SIZE. lia.
  - unfold Step0.BOARD_SIZE. lia.
  - split; reflexivity.
Defined.

Lemma located_outline_has_four_points_witness :
  Step0.board_contour (cv := ref_cv) [triangle; diamond] = Some diamond
  /\ List.length diamond = 4.
Proof.
  assert (H : Step0.board_contour (cv := ref_cv) [triangle; diamond]
              = Some diamond) by (vm_compute; reflexivity).
  split; [exact H|].
  exact (LocatorFacts.located_outline_has_four_points (cv := ref_cv)
           [triangle; diamond] diamond H).
Defined.

Lemma unqualified_contour_is_ignored_witness :
  Step0.board_contour (cv := ref_cv)
    ([square 0 0 10] ++ triangle :: [square 0 0 20])
  = Step0.board_contour (cv := ref_cv) ([square 0 0 10] ++ [square 0 0 20]).
Proof.
  apply (LocatorFacts.unqualified_contour_is_ignored (cv := ref_cv)).
  left. intros H. discriminate H.
Defined.

Lemma located_area_ignores_order_witness :
  (Step0.board_contour (cv := ref_cv) [square 0 0 10; square 0 0 20] = None
   <-> Step0.board_contour (cv := ref_cv) [square 0 0 20; square 0 0 10] = None)
  /\ forall c c',
       Step0.first_largest (cv := ref_cv) [square 0 0 10; square 0 0 20] c ->
       Step0.first_largest (cv := ref_cv) [square 0 0 20; square 0 0 10] c' ->
       (contourArea (OpenCV := ref_cv) c == contourArea (OpenCV := ref_cv) c')%Q.
Proof.
  apply (LocatorFacts.located_area_ignores_order (cv := ref_cv)).
  apply perm_swap.
Defined.


Lemma step4_reads_step3_position_witness :
  Step3.analyse (cv := ref_cv) sample_files = Some sample_analysis
  /\ Step4.load_fen_from_step3 accept_all
       (Step4.Text (Report.of_analysis sample_analysis))
     = if accept_all (Fen.fen_position (Step3.board sample_analysis))
       then Some (Fen.fen_position (Step3.board sample_analysis)) else None.
Proof.
  assert (H : Step3.analyse (cv := ref_cv) sample_files = Some sample_analysis)
    by (vm_compute; reflexivity).
  split; [exact H|].
  exact (PipelineFacts.step4_reads_step3_position (cv := ref_cv) accept_all
           sample_files sample_analysis H).
Defined.

Lemma unknown_is_drawn_as_black_witness :
  Fen.board_at (Step3.board sample_analysis) 0 0 = "?"
  /\ Render.circle_color (Fen.board_at (Step3.board sample_analysis) 0 0)
     = Render.circle_color "p".
Proof.
  split; [reflexivity|].
  destruct (PipelineFacts.unknown_is_drawn_as_black (cv := ref_cv)
              sample_files sample_analysis 0 0) as (_ & _ & Hq & _).
  - vm_compute. reflexivity.
  - lia.
  - lia.
  - apply Hq. reflexivity.
Defined.

End MoreExamples.
